(** * Earnings Volatility Calculator: a shallow embedding of [src/calculator.py]

    The first part of the file embeds the classes of the Python source, in
    the order of the source: [ProxyManager], [OptionsAnalyzer],
    [EarningsCalendarFetcher], [DataCache] and [EnhancedEarningsScanner];
    then [ProxyManager.fetch_proxies], [SessionManager] and the row filter
    of [EarningsTkApp].  The second part states and proves their
    properties.

    Python values are embedded as follows.

    - A Python/numpy float is a [pyfloat]: NaN, a signed infinity, or a
      rational number.  Arithmetic on finite values is exact (rounding and
      signed zeros are not modelled); division by zero follows numpy
      (a NaN or an infinity, never an exception).  The Python ints that
      the source mixes with floats ([9999], [0], [1]) are the finite
      values of the same magnitude: every comparison of the source agrees
      on them.
    - A [str] is a [string] (its UTF-8 bytes); a result dict is a
      [gmap string pyval]; a dict whose order matters is an association
      list; a [list] is a [list].
    - Code that can raise returns an [exc]; code that talks to the network
      or to the cache directory runs in the monad [M], which threads the
      log of requests and session rotations, the files of the cache
      directory and the [earnings_times] of the calendar fetcher.
    - Everything outside the program (Yahoo, the earnings calendar, the
      clock, [strptime], scipy's lower bound on knots) is a field of a
      [market]; the properties hold for every market. *)

From Stdlib Require Import ZArith QArith Bool List String Ascii Lia Permutation.
From Stdlib Require Import Qabs OrderedTypeEx.
From stdpp Require Import base gmap strings list sorting.

Local Open Scope Z_scope.

(** ** Python floats *)

Module PyFloat.

Inductive pyfloat : Type :=
| NaN
| Inf (neg : bool)
| Fin (q : Q).

Definition of_Z (z : Z) : pyfloat := Fin (inject_Z z).

(** Ordered comparison; [None] when one side is NaN. *)
Definition fcmp (a b : pyfloat) : option comparison :=
  match a, b with
  | NaN, _ | _, NaN => None
  | Fin x, Fin y => Some (x ?= y)%Q
  | Inf s, Inf s' => Some (if Bool.eqb s s' then Eq else if s then Lt else Gt)
  | Inf s, Fin _ => Some (if s then Lt else Gt)
  | Fin _, Inf s => Some (if s then Gt else Lt)
  end.

(** [a <= b], [a >= b], [a < b], [a > b], [a == b]: all false on NaN. *)
Definition fleb (a b : pyfloat) : bool :=
  match fcmp a b with Some Lt | Some Eq => true | _ => false end.
Definition fgeb (a b : pyfloat) : bool :=
  match fcmp a b with Some Gt | Some Eq => true | _ => false end.
Definition fltb (a b : pyfloat) : bool :=
  match fcmp a b with Some Lt => true | _ => false end.
Definition fgtb (a b : pyfloat) : bool :=
  match fcmp a b with Some Gt => true | _ => false end.
Definition feqb (a b : pyfloat) : bool :=
  match fcmp a b with Some Eq => true | _ => false end.

Definition qsign_neg (q : Q) : bool := (Qnum q <? 0)%Z.
Definition qzero (q : Q) : bool := (Qnum q =? 0)%Z.

Definition fneg (a : pyfloat) : pyfloat :=
  match a with
  | NaN => NaN
  | Inf s => Inf (negb s)
  | Fin q => Fin (- q)%Q
  end.

Definition fadd (a b : pyfloat) : pyfloat :=
  match a, b with
  | NaN, _ | _, NaN => NaN
  | Inf s, Inf s' => if Bool.eqb s s' then Inf s else NaN
  | Inf s, Fin _ | Fin _, Inf s => Inf s
  | Fin x, Fin y => Fin (x + y)%Q
  end.

Definition fsub (a b : pyfloat) : pyfloat := fadd a (fneg b).

Definition fmul (a b : pyfloat) : pyfloat :=
  match a, b with
  | NaN, _ | _, NaN => NaN
  | Inf s, Inf s' => Inf (xorb s s')
  | Inf s, Fin q | Fin q, Inf s =>
      if qzero q then NaN else Inf (xorb s (qsign_neg q))
  | Fin x, Fin y => Fin (x * y)%Q
  end.

(** numpy division: [x/0] is an infinity of the sign of [x], [0/0] is
    NaN. *)
Definition fdiv (a b : pyfloat) : pyfloat :=
  match a, b with
  | NaN, _ | _, NaN => NaN
  | Inf _, Inf _ => NaN
  | Inf s, Fin q => Inf (xorb s (qsign_neg q))
  | Fin _, Inf _ => Fin 0
  | Fin x, Fin y =>
      if qzero y then (if qzero x then NaN else Inf (qsign_neg x))
      else Fin (x / y)%Q
  end.

(** Equality of floats as values: [Fin] up to [Qeq]. *)
Definition same (a b : pyfloat) : Prop :=
  match a, b with
  | NaN, NaN => True
  | Inf s, Inf s' => s = s'
  | Fin x, Fin y => (x == y)%Q
  | _, _ => False
  end.

End PyFloat.
Export PyFloat.

(** ** The recommendation rule of [EnhancedEarningsScanner.analyze_stock] *)

Inductive recommendation : Type := Recommended | Consider | Avoid.

Definition rec_string (r : recommendation) : string :=
  match r with
  | Recommended => "Recommended"
  | Consider => "Consider"
  | Avoid => "Avoid"
  end.

Definition iv_threshold : pyfloat := Fin 1.25.
Definition slope_threshold : pyfloat := Fin (-0.00406).

(** Lines 821-829: [avb], [ivcheck], [slopecheck] and the three-way
    choice of [rec]. *)
Definition score (avb : bool) (iv30_rv30 term_slope : pyfloat) : recommendation :=
  let ivcheck := fgeb iv30_rv30 iv_threshold in
  let slopecheck := fleb term_slope slope_threshold in
  if avb && ivcheck && slopecheck then Recommended
  else if slopecheck && ((avb && negb ivcheck) || (ivcheck && negb avb))
       then Consider
       else Avoid.

(** ** ProxyManager (lines 55-199) *)

Module ProxyManager.

(** A proxy is the dict [{'http': ..., 'https': ...}]. *)
Record proxy : Type := { http : string; https : string }.

#[global] Instance proxy_eq_dec : EqDecision proxy.
Proof. solve_decision. Defined.

Record t : Type := {
  proxies : list proxy;
  current_proxy : option proxy;
  proxy_enabled : bool
}.

Definition set_current (pm : t) (p : proxy) : t :=
  {| proxies := proxies pm;
     current_proxy := Some p;
     proxy_enabled := proxy_enabled pm |}.

(** [random.choice(seq)]: the element at a random index below [len(seq)].
    The generator is represented by the draw [r], reduced modulo the
    length; [None] stands for the [IndexError] on an empty sequence. *)
Definition choice {A : Type} (r : nat) (l : list A) : option A :=
  match l with
  | [] => None
  | _ => l !! (r mod length l)%nat
  end.

(** Lines 186-190. *)
Definition get_proxy (r : nat) (pm : t) : option proxy * t :=
  if negb (proxy_enabled pm) || bool_decide (proxies pm = []) then (None, pm)
  else match choice r (proxies pm) with
       | Some p => (Some p, set_current pm p)
       | None => (None, pm)
       end.

(** [av = [p for p in self.proxies if p != self.current_proxy]] *)
Definition available (pm : t) : list proxy :=
  filter (λ p, Some p ≠ current_proxy pm) (proxies pm).

(** Lines 192-199. *)
Definition rotate_proxy (r : nat) (pm : t) : option proxy * t :=
  if negb (proxy_enabled pm) || (length (proxies pm) <=? 1)%nat then (None, pm)
  else match available pm with
       | [] => (None, pm)
       | av => match choice r av with
               | Some p => (Some p, set_current pm p)
               | None => (None, pm)
               end
       end.

(** Rotation is impossible: proxying is disabled, the pool has at most
    one entry, or every entry of the pool is the current endpoint. *)
Definition cannot_rotate (pm : t) : Prop :=
  proxy_enabled pm = false
  ∨ (length (proxies pm) ≤ 1)%nat
  ∨ Forall (λ p, Some p = current_proxy pm) (proxies pm).

End ProxyManager.

(** ** Python built-ins used by the source *)

Module Py.

(** Exceptions: a computation that can raise carries the message. *)
Inductive exc (A : Type) : Type :=
| Ok (a : A)
| Raise (msg : string).
Arguments Ok {A} a.
Arguments Raise {A} msg.

(** [sorted(l)] and [l.sort(key=...)]: a stable sort.  [insert] puts [x]
    in front of the first element that is not below it, so equal elements
    keep the order of the input. *)
Fixpoint insert {A : Type} (leb : A → A → bool) (x : A) (l : list A) : list A :=
  match l with
  | [] => [x]
  | y :: l' => if leb x y then x :: y :: l' else y :: insert leb x l'
  end.

Definition sorted {A : Type} (leb : A → A → bool) (l : list A) : list A :=
  foldr (insert leb) [] l.

(** [str.isspace] of a character, on the UTF-8 bytes that encode it.
    One byte: the ASCII characters tab to carriage return, the four
    separators 0x1c-0x1f, and the space. *)
Definition is_space1 (c : ascii) : bool :=
  let n := nat_of_ascii c in
  ((9 <=? n) && (n <=? 13) || (28 <=? n) && (n <=? 31) || (n =? 32))%nat.

(** Two bytes: U+0085 (C2 85) and U+00A0 (C2 A0). *)
Definition is_space2 (b1 b2 : ascii) : bool :=
  let n1 := nat_of_ascii b1 in
  let n2 := nat_of_ascii b2 in
  ((n1 =? 194) && ((n2 =? 133) || (n2 =? 160)))%nat.

(** Three bytes: U+1680 (E1 9A 80), U+2000 to U+200A (E2 80 80 to
    E2 80 8A), U+2028 and U+2029 (E2 80 A8, E2 80 A9), U+202F
    (E2 80 AF), U+205F (E2 81 9F) and U+3000 (E3 80 80).  No character of
    four bytes is whitespace. *)
Definition is_space3 (b1 b2 b3 : ascii) : bool :=
  let n1 := nat_of_ascii b1 in
  let n2 := nat_of_ascii b2 in
  let n3 := nat_of_ascii b3 in
  ((n1 =? 225) && (n2 =? 154) && (n3 =? 128)
   || (n1 =? 226) && (n2 =? 128)
      && ((128 <=? n3) && (n3 <=? 138) || (n3 =? 168) || (n3 =? 169)
          || (n3 =? 175))
   || (n1 =? 226) && (n2 =? 129) && (n3 =? 159)
   || (n1 =? 227) && (n2 =? 128) && (n3 =? 128))%nat.

(** [s.lstrip()]: the whitespace characters at the front are dropped,
    whatever the number of their bytes. *)
Fixpoint lstrip (s : string) : string :=
  match s with
  | String c1 s1 =>
      if is_space1 c1 then lstrip s1
      else
        match s1 with
        | String c2 s2 =>
            if is_space2 c1 c2 then lstrip s2
            else
              match s2 with
              | String c3 s3 => if is_space3 c1 c2 c3 then lstrip s3 else s
              | EmptyString => s
              end
        | EmptyString => s
        end
  | EmptyString => EmptyString
  end.

(** The same on the reversed string, where the bytes of a character come
    last byte first.  In UTF-8 the first byte of a character of two or
    three bytes is never a later byte of a character, so the bytes found
    at the end of a string are a character of the string. *)
Fixpoint lstrip_reversed (s : string) : string :=
  match s with
  | String c1 s1 =>
      if is_space1 c1 then lstrip_reversed s1
      else
        match s1 with
        | String c2 s2 =>
            if is_space2 c2 c1 then lstrip_reversed s2
            else
              match s2 with
              | String c3 s3 =>
                  if is_space3 c3 c2 c1 then lstrip_reversed s3 else s
              | EmptyString => s
              end
        | EmptyString => s
        end
  | EmptyString => EmptyString
  end.

(** [s.rstrip()] *)
Definition rstrip (s : string) : string :=
  String.rev (lstrip_reversed (String.rev s)).

(** [s.strip()] *)
Definition strip (s : string) : string := rstrip (lstrip s).

Definition upper_char (c : ascii) : ascii :=
  let n := nat_of_ascii c in
  if ((97 <=? n) && (n <=? 122))%nat then ascii_of_nat (n - 32) else c.

(** [s.upper()]: the ASCII letters are mapped; every other byte stays,
    so the case mapping of letters outside ASCII is not modelled.  The
    result is empty exactly when the string is, as in Python. *)
Fixpoint upper (s : string) : string :=
  match s with
  | String c s' => String (upper_char c) (upper s')
  | EmptyString => EmptyString
  end.

(** [sep.join(l)] *)
Fixpoint join (sep : string) (l : list string) : string :=
  match l with
  | [] => ""
  | [x] => x
  | x :: l' => x +:+ sep +:+ join sep l'
  end.

(** Slices [l[i:i+n]] for [i] in [range(0, len(l), n)]; the fuel is the
    length of the list, which bounds the number of slices. *)
Fixpoint chunks_fuel {A : Type} (fuel n : nat) (l : list A) : list (list A) :=
  match fuel, l with
  | _, [] => []
  | O, _ => []
  | S fuel', _ => take n l :: chunks_fuel fuel' n (drop n l)
  end.

Definition chunks {A : Type} (n : nat) (l : list A) : list (list A) :=
  chunks_fuel (length l) n l.

End Py.
Export Py.

(** ** [hashlib.md5] (RFC 1321), on the bytes of a string *)

Module MD5.

Definition w32 (x : Z) : Z := x mod 2 ^ 32.

Definition rotl (x n : Z) : Z :=
  w32 (Z.lor (Z.shiftl x n) (Z.shiftr x (32 - n))).

Definition K : list Z :=
  [ 0xd76aa478; 0xe8c7b756; 0x242070db; 0xc1bdceee; 0xf57c0faf; 0x4787c62a;
    0xa8304613; 0xfd469501; 0x698098d8; 0x8b44f7af; 0xffff5bb1; 0x895cd7be;
    0x6b901122; 0xfd987193; 0xa679438e; 0x49b40821; 0xf61e2562; 0xc040b340;
    0x265e5a51; 0xe9b6c7aa; 0xd62f105d; 0x02441453; 0xd8a1e681; 0xe7d3fbc8;
    0x21e1cde6; 0xc33707d6; 0xf4d50d87; 0x455a14ed; 0xa9e3e905; 0xfcefa3f8;
    0x676f02d9; 0x8d2a4c8a; 0xfffa3942; 0x8771f681; 0x6d9d6122; 0xfde5380c;
    0xa4beea44; 0x4bdecfa9; 0xf6bb4b60; 0xbebfbc70; 0x289b7ec6; 0xeaa127fa;
    0xd4ef3085; 0x04881d05; 0xd9d4d039; 0xe6db99e5; 0x1fa27cf8; 0xc4ac5665;
    0xf4292244; 0x432aff97; 0xab9423a7; 0xfc93a039; 0x655b59c3; 0x8f0ccc92;
    0xffeff47d; 0x85845dd1; 0x6fa87e4f; 0xfe2ce6e0; 0xa3014314; 0x4e0811a1;
    0xf7537e82; 0xbd3af235; 0x2ad7d2bb; 0xeb86d391 ].

Definition shifts : list Z :=
  [ 7; 12; 17; 22; 7; 12; 17; 22; 7; 12; 17; 22; 7; 12; 17; 22;
    5; 9; 14; 20; 5; 9; 14; 20; 5; 9; 14; 20; 5; 9; 14; 20;
    4; 11; 16; 23; 4; 11; 16; 23; 4; 11; 16; 23; 4; 11; 16; 23;
    6; 10; 15; 21; 6; 10; 15; 21; 6; 10; 15; 21; 6; 10; 15; 21 ].

(** [n] bytes of [x], least significant first. *)
Fixpoint le_bytes (n : nat) (x : Z) : list Z :=
  match n with
  | O => []
  | S n' => x mod 256 :: le_bytes n' (x / 256)
  end.

Fixpoint of_le_bytes (l : list Z) : Z :=
  match l with
  | [] => 0
  | b :: l' => b + 256 * of_le_bytes l'
  end.

Definition pad (msg : list Z) : list Z :=
  let len := Z.of_nat (length msg) in
  msg ++ [128] ++ replicate (Z.to_nat ((55 - len) mod 64)) 0
      ++ le_bytes 8 (8 * len).

Definition not32 (x : Z) : Z := Z.lxor x 0xffffffff.

Definition step (M : list Z) (i : nat) (st : Z * Z * Z * Z) : Z * Z * Z * Z :=
  let '(a, b, c, d) := st in
  let zi := Z.of_nat i in
  let '(f, g) :=
    if (i <? 16)%nat then (Z.lor (Z.land b c) (Z.land (not32 b) d), zi)
    else if (i <? 32)%nat then
      (Z.lor (Z.land d b) (Z.land (not32 d) c), (5 * zi + 1) mod 16)
    else if (i <? 48)%nat then (Z.lxor (Z.lxor b c) d, (3 * zi + 5) mod 16)
    else (Z.lxor c (Z.lor b (not32 d)), (7 * zi) mod 16) in
  let f' := w32 (f + a + K !!! i + M !!! Z.to_nat g) in
  (d, w32 (b + rotl f' (shifts !!! i)), b, c).

Definition block (st : Z * Z * Z * Z) (bytes : list Z) : Z * Z * Z * Z :=
  let M := (λ j, of_le_bytes (take 4 (drop (4 * j) bytes))) <$> seq 0 16 in
  let '(a0, b0, c0, d0) := st in
  let '(a, b, c, d) := foldl (λ s i, step M i s) st (seq 0 64) in
  (w32 (a0 + a), w32 (b0 + b), w32 (c0 + c), w32 (d0 + d)).

Definition digest (msg : list Z) : list Z :=
  let '(a, b, c, d) :=
    foldl block (0x67452301, 0xefcdab89, 0x98badcfe, 0x10325476)
          (chunks 64 (pad msg)) in
  le_bytes 4 a ++ le_bytes 4 b ++ le_bytes 4 c ++ le_bytes 4 d.

Definition hex_digit (n : Z) : ascii :=
  ascii_of_nat (Z.to_nat (if n <? 10 then 48 + n else 87 + n)).

Fixpoint hex (l : list Z) : string :=
  match l with
  | [] => ""
  | b :: l' => String (hex_digit (b / 16)) (String (hex_digit (b mod 16)) (hex l'))
  end.

(** [s.encode()]: the bytes of the string *)
Definition encode (s : string) : list Z :=
  (λ c, Z.of_nat (nat_of_ascii c)) <$> list_ascii_of_string s.

(** [hashlib.md5(s.encode()).hexdigest()] *)
Definition hexdigest (s : string) : string := hex (digest (encode s)).

End MD5.

(** ** Values, records and the persisted cache file *)

(** The values stored in a result dict.  [VNum] holds ints and floats
    alike. *)
Inductive pyval : Type :=
| VNone
| VBool (b : bool)
| VNum (x : pyfloat)
| VStr (s : string).

(** A result dict: one per symbol. *)
Abbreviation dict := (gmap string pyval).

(** An element of [missing_data]. *)
Record missing_entry : Type := {
  m_ticker : pyval;
  m_missing_fields : list string;
  m_earnings_time : pyval
}.

(** The pickled dict [cdata] of [DataCache.save_data]. *)
Record cache : Type := {
  c_timestamp : Z;
  c_date : string;
  c_tickers : list string;
  c_data : list dict;
  c_missing_data : list missing_entry
}.

(** What a path of the cache directory holds: bytes that [pickle.load]
    (or the reading of its keys) rejects, or a pickled [cache]. *)
Inductive file : Type :=
| Unreadable
| Pickled (c : cache).

(** ** The network, the session and the monad of effects *)

Module Net.

Inductive request : Type :=
| ReqOptions (sym : string)
| ReqChain (sym exp : string)
| ReqHistory (sym period : string)
| ReqInfo (sym : string)
| ReqDownload (tickers : list string)
| ReqCalendar (date : string).

(** What the program did to the outside world, newest first. *)
Inductive event : Type :=
| Fetched (r : request)
| RotatedSession.

(** The outside world as the program left it, and the one piece of
    program state that outlives a call: the [earnings_times] dict of the
    calendar fetcher.  [files] is the cache directory, by file name. *)
Record state : Type := {
  log : list event;
  files : gmap string file;
  earnings_times : gmap string string
}.

Definition add_event (e : event) (s : state) : state :=
  {| log := e :: log s; files := files s;
     earnings_times := earnings_times s |}.

Definition set_files (fs : gmap string file) (s : state) : state :=
  {| log := log s; files := fs; earnings_times := earnings_times s |}.

Definition set_earnings_times (et : gmap string string) (s : state) : state :=
  {| log := log s; files := files s; earnings_times := et |}.

Definition M (A : Type) : Type := state → exc A * state.

Definition ret {A : Type} (a : A) : M A := λ s, (Ok a, s).

Definition raise {A : Type} (msg : string) : M A := λ s, (Raise msg, s).

Definition bind {A B : Type} (m : M A) (k : A → M B) : M B :=
  λ s, match m s with
       | (Ok a, s') => k a s'
       | (Raise msg, s') => (Raise msg, s')
       end.

(** [try: m  except Exception as e: h e] *)
Definition try_except {A : Type} (m : M A) (h : string → M A) : M A :=
  λ s, match m s with
       | (Ok a, s') => (Ok a, s')
       | (Raise msg, s') => h msg s'
       end.

Definition lift {A : Type} (x : exc A) : M A := λ s, (x, s).

(** A request to the outside world: the answer may depend on everything
    that happened before, and the request is logged. *)
Definition fetch {A : Type} (r : request) (answer : list event → exc A) : M A :=
  λ s, (answer (log s), add_event (Fetched r) s).

(** [self.session_manager.rotate_session()] (lines 215-219), recorded as
    an event; the pool itself is modelled in [ProxyManager]. *)
Definition rotate_session : M unit :=
  λ s, (Ok tt, add_event RotatedSession s).

End Net.
Export Net.

Notation "x <- m ;; k" := (bind m (λ x, k))
  (at level 100, m at next level, right associativity).
Notation "m ;;; k" := (bind m (λ _, k))
  (at level 100, right associativity).

(** ** Market data *)

(** A row of an option-chain frame. *)
Record quote : Type := {
  strike : pyfloat;
  bid : pyfloat;
  ask : pyfloat;
  impliedVolatility : pyfloat
}.

Record chain : Type := { calls : list quote; puts : list quote }.

(** A row of a price-history frame. *)
Record bar : Type := {
  Open : pyfloat;
  High : pyfloat;
  Low : pyfloat;
  Close : pyfloat;
  Volume : pyfloat
}.

Abbreviation history := (list bar).

(** Everything outside the program: the calendar, the clock, Yahoo, the
    earnings calendar, and the two library routines the model does not
    open.  An answer is a function of the log of earlier events, so a
    retry or a rotation can change it. *)
Record market : Type := {
  (** [datetime.today().date()], as a day number *)
  today : Z;
  (** [datetime.strptime(d, "%Y-%m-%d").date()]; [None] is its
      [ValueError] *)
  strptime : string → option Z;
  (** [d.strftime("%Y-%m-%d")] *)
  strftime : Z → string;
  (** [datetime.now()], in seconds *)
  now : list event → Z;
  (** [t.options] *)
  options_of : string → list event → exc (list string);
  (** [t.option_chain(e)] *)
  option_chain_of : string → string → list event → exc chain;
  (** [t.history(period=...)] *)
  history_of : string → string → list event → exc history;
  (** [t.info.get('marketCap', 0)] *)
  market_cap_of : string → list event → exc pyval;
  (** [yf.download(...)]: the frames by ticker *)
  download_of : list string → list event → exc (gmap string history);
  (** the rows of the earnings calendar: ticker and timing *)
  calendar_of : string → list event → exc (list (string * string));
  (** [OptionsAnalyzer.yang_zhang_volatility] with its fallback
      (lines 280-313): a float pipeline of logarithms and square roots;
      both estimators sit in [try/except], so it returns a float, maybe
      NaN, and never raises *)
  yang_zhang_volatility : history → pyfloat;
  (** [f"{round(x, 2)}%"] *)
  format_percent : pyfloat → string;
  (** the least number of knots scipy's linear [interp1d] accepts: 1 in
      current releases, 2 in older ones *)
  interp1d_min_entries : nat
}.

(** Sequencing of pure computations that can raise. *)
Definition exc_bind {A B : Type} (x : exc A) (k : A → exc B) : exc B :=
  match x with
  | Ok a => k a
  | Raise msg => Raise msg
  end.

Notation "x <~ m ;; k" := (exc_bind m (λ x, k))
  (at level 100, m at next level, right associativity).

(** [l[i]] with Python's negative indices; [None] is the [IndexError]. *)
Definition py_nth {A : Type} (l : list A) (i : Z) : option A :=
  let n := Z.of_nat (length l) in
  if i <? 0 then (if 0 <=? n + i then l !! Z.to_nat (n + i) else None)
  else l !! Z.to_nat i.

Definition index {A : Type} (l : list A) (i : Z) : exc A :=
  match py_nth l i with
  | Some a => Ok a
  | None => Raise "IndexError"
  end.

(** [d[k] = v] on an insertion-ordered dict: an existing key keeps its
    place. *)
Fixpoint dict_set {V : Type} (k : string) (v : V) (d : list (string * V))
  : list (string * V) :=
  match d with
  | [] => [(k, v)]
  | (k', v') :: d' =>
      if String.eqb k k' then (k, v) :: d' else (k', v') :: dict_set k v d'
  end.

(** ** OptionsAnalyzer (lines 229-466) *)

Module OptionsAnalyzer.

(** *** filter_dates (lines 265-278) *)

(** The generator under [sorted(...)]: every string is parsed. *)
Fixpoint parse_dates (mk : market) (dates : list string) : exc (list Z) :=
  match dates with
  | [] => Ok []
  | d :: dates' =>
      match strptime mk d with
      | None => Raise "time data does not match format '%Y-%m-%d'"
      | Some z => zs <~ parse_dates mk dates' ;; Ok (z :: zs)
      end
  end.

(** The loop over [enumerate(sdates)]: at the first [d >= cutoff] the
    slice [sdates[:i+1]] is taken and the loop is left; [arr] stays
    empty when no date reaches the cutoff. *)
Fixpoint dates_through (cutoff : Z) (sdates rest : list Z) (i : nat) : list Z :=
  match rest with
  | [] => []
  | d :: rest' =>
      if cutoff <=? d then take (S i) sdates
      else dates_through cutoff sdates rest' (S i)
  end.

Definition filter_dates (mk : market) (dates : list string) : exc (list string) :=
  ds <~ parse_dates mk dates ;;
  let cutoff := today mk + 45 in
  let sdates := sorted Z.leb ds in
  let arr := strftime mk <$> dates_through cutoff sdates sdates 0 in
  match arr with
  | [] => Raise "No date 45+ days out found."
  | a0 :: rest =>
      if String.eqb a0 (strftime mk (today mk)) then Ok rest else Ok arr
  end.

(** *** build_term_structure (lines 315-333) *)

(** The knots an interpolant holds, sorted by day. *)
Record interp : Type := { ix : list Z; iy : list pyfloat }.

Definition by_day (a b : Z * pyfloat) : bool := a.1 <=? b.1.

(** [scipy.interpolate.interp1d(x, y, kind='linear',
    fill_value="extrapolate")]: the arrays must have the same length and
    at least [minval] entries; they are sorted by [x] with a stable
    sort. *)
Definition interp1d (minval : nat) (x : list Z) (y : list pyfloat) : exc interp :=
  if negb (length x =? length y)%nat
  then Raise "x and y arrays must be equal in length along interpolation axis."
  else if (length x <? minval)%nat
  then Raise "x and y arrays must have at least minval entries"
  else let k := sorted by_day (zip x y) in Ok {| ix := k.*1; iy := k.*2 |}.

(** [np.searchsorted(x, v)] on a sorted array: the number of entries
    below [v]. *)
Fixpoint searchsorted (x : list Z) (v : Z) : nat :=
  match x with
  | [] => O
  | xi :: x' => if xi <? v then S (searchsorted x' v) else O
  end.

(** The evaluation of the interpolant (scipy's [_call_linear]): the index
    is clipped to [1 .. len-1], the slope of the segment [lo, hi] is
    taken, and the line through [(x_lo, y_lo)] is evaluated. *)
Definition call_linear (f : interp) (x_new : Z) : exc pyfloat :=
  let n := Z.of_nat (length (ix f)) in
  let hi := Z.min (Z.max (Z.of_nat (searchsorted (ix f) x_new)) 1) (n - 1) in
  let lo := hi - 1 in
  x_lo <~ index (ix f) lo ;;
  x_hi <~ index (ix f) hi ;;
  y_lo <~ index (iy f) lo ;;
  y_hi <~ index (iy f) hi ;;
  let slope := fdiv (fsub y_hi y_lo) (of_Z (x_hi - x_lo)) in
  Ok (fadd (fmul slope (of_Z (x_new - x_lo))) y_lo).

(** The closure [tspline] (lines 323-329). *)
Definition tspline (da : list Z) (va : list pyfloat) (f : interp) (dte : Z)
  : exc pyfloat :=
  d_first <~ index da 0 ;;
  if dte <? d_first then index va 0
  else
    d_last <~ index da (-1) ;;
    if d_last <? dte then index va (-1)
    else call_linear f dte.

(** [idx = da.argsort(); da, va = da[idx], va[idx]] sorts the knots by
    day (knots of the same day stay in the order given); [va[idx]] raises
    when [ivs] is shorter than [days] and ignores the surplus when it is
    longer.  Any exception of the construction gives
    [lambda x: np.nan]. *)
Definition build_term_structure (minval : nat) (days : list Z)
  (ivs : list pyfloat) : Z → exc pyfloat :=
  if (length ivs <? length days)%nat then λ _, Ok NaN
  else
    let k := sorted by_day (zip days ivs) in
    let da := k.*1 in
    let va := k.*2 in
    match interp1d minval da va with
    | Raise _ => λ _, Ok NaN
    | Ok f => tspline da va f
    end.

(** *** get_current_price (lines 335-347) *)

Definition last_close (td : history) : exc pyfloat :=
  match last td with
  | None => Raise "No price data for 1d."
  | Some b => Ok (Close b)
  end.

(** The loop over [range(3)]; falling off the loop returns [None]. *)
Fixpoint price_loop (mk : market) (sym : string) (attempts : list nat)
  : M (option pyfloat) :=
  match attempts with
  | [] => ret None
  | attempt :: rest =>
      try_except
        (td <- fetch (ReqHistory sym "1d") (history_of mk sym "1d") ;;
         p <- lift (last_close td) ;;
         ret (Some p))
        (λ e, if (attempt <? 2)%nat
              then (rotate_session ;;; price_loop mk sym rest)
              else raise ("Cannot get price: " +:+ e))
  end.

Definition get_current_price (mk : market) (sym : string) : M (option pyfloat) :=
  price_loop mk sym [0; 1; 2]%nat.

(** *** compute_recommendation (lines 349-466) *)

(** The dict a successful computation returns (lines 445-458). *)
Record rec_data : Type := {
  od_avg_volume : bool;
  od_avg_volume_value : pyfloat;
  od_iv30_rv30 : pyfloat;
  od_term_slope : pyfloat;
  od_term_structure : pyfloat;
  od_expected_move : string;
  od_underlying_price : option pyfloat;
  od_historical_volatility : pyfloat;
  od_current_iv : option pyfloat;
  od_atr14 : pyfloat;
  od_market_cap : pyval;
  od_volume : pyfloat
}.

(** What [compute_recommendation] returns: [{"error": msg}] or the data
    dict. *)
Inductive od_result : Type :=
| OdError (msg : string)
| OdData (d : rec_data).

(** Lines 366-374: one chain per expiry, with one rotation and a second
    try when the first fetch raises. *)
Fixpoint fetch_chains (mk : market) (s : string) (exps : list string)
  (oc : list (string * chain)) : M (list (string * chain)) :=
  match exps with
  | [] => ret oc
  | e :: exps' =>
      c <- try_except
             (fetch (ReqChain s e) (option_chain_of mk s e))
             (λ _, rotate_session ;;;
                   fetch (ReqChain s e) (option_chain_of mk s e)) ;;
      fetch_chains mk s exps' (dict_set e c oc)
  end.

Definition fabs (a : pyfloat) : pyfloat :=
  match a with
  | NaN => NaN
  | Inf _ => Inf false
  | Fin q => Fin (Qabs q)
  end.

(** [series.idxmin()]: the position of the first minimum, NaN entries
    skipped; [None] when there is none. *)
Fixpoint idxmin_from (l : list pyfloat) (i : nat) (best : option (nat * pyfloat))
  : option nat :=
  match l with
  | [] => fst <$> best
  | x :: l' =>
      let best' :=
        match x, best with
        | NaN, _ => best
        | _, None => Some (i, x)
        | _, Some (_, b) => if fltb x b then Some (i, x) else best
        end in
      idxmin_from l' (S i) best'
  end.

Definition idxmin (l : list pyfloat) : option nat := idxmin_from l O None.

(** [(frame['strike'] - up).abs().idxmin()] and the row it names; [up]
    is [None] only if [get_current_price] fell off its loop. *)
Definition atm_row (up : option pyfloat) (rows : list quote) : exc quote :=
  match up with
  | None => Raise "TypeError: unsupported operand type(s) for -"
  | Some u =>
      match idxmin ((λ q, fabs (fsub (strike q) u)) <$> rows) with
      | None => Raise "KeyError: nan"
      | Some i =>
          match rows !! i with
          | Some q => Ok q
          | None => Raise "KeyError"
          end
      end
  end.

(** [bool(x)] of a float: zero is false, NaN is true. *)
Definition truthy (x : pyfloat) : bool := negb (feqb x (Fin 0)).

(** The loop variables of lines 380-401. *)
Record atm_state : Type := {
  atm_ivs : list (string * pyfloat);
  stprice : option pyfloat;
  fi_iv : option pyfloat;
  atm_i : nat
}.

Definition atm_step (up : option pyfloat) (st : atm_state) (ec : string * chain)
  : exc atm_state :=
  let '(e, ch) := ec in
  if bool_decide (calls ch = []) || bool_decide (puts ch = []) then Ok st
  else
    c <~ atm_row up (calls ch) ;;
    p <~ atm_row up (puts ch) ;;
    let civ := impliedVolatility c in
    let piv := impliedVolatility p in
    let av := fdiv (fadd civ piv) (Fin 2) in
    let ivs' := dict_set e av (atm_ivs st) in
    if (atm_i st =? 0)%nat then
      let '(cbid, cask) := (bid c, ask c) in
      let '(pbid, pask) := (bid p, ask p) in
      let stprice' :=
        if truthy cbid && truthy cask && fgtb cbid (Fin 0) && fgtb cask (Fin 0)
           && truthy pbid && truthy pask && fgtb pbid (Fin 0) && fgtb pask (Fin 0)
        then
          let midc := fdiv (fadd cbid cask) (Fin 2) in
          let midp := fdiv (fadd pbid pask) (Fin 2) in
          Some (fadd midc midp)
        else stprice st in
      Ok {| atm_ivs := ivs'; stprice := stprice'; fi_iv := Some av;
            atm_i := S (atm_i st) |}
    else
      Ok {| atm_ivs := ivs'; stprice := stprice st; fi_iv := fi_iv st;
            atm_i := S (atm_i st) |}.

Fixpoint atm_loop (up : option pyfloat) (st : atm_state) (oc : list (string * chain))
  : exc atm_state :=
  match oc with
  | [] => Ok st
  | ec :: oc' => st' <~ atm_step up st ec ;; atm_loop up st' oc'
  end.

(** Lines 406-412: days to expiry and vols, in the order of [atm_ivs]. *)
Fixpoint days_and_vols (mk : market) (ivs : list (string * pyfloat))
  : exc (list Z * list pyfloat) :=
  match ivs with
  | [] => Ok ([], [])
  | (exp, iv) :: ivs' =>
      match strptime mk exp with
      | None => Raise "time data does not match format '%Y-%m-%d'"
      | Some dtobj =>
          r <~ days_and_vols mk ivs' ;;
          Ok ((dtobj - today mk) :: r.1, iv :: r.2)
      end
  end.

(** [min(ds)]; [None] is the [ValueError] on an empty list. *)
Definition list_min (ds : list Z) : option Z :=
  match ds with
  | [] => None
  | d :: ds' => Some (foldl Z.min d ds')
  end.

(** Lines 413-420: [iv30] and [slope] from the term structure. *)
Definition term_metrics (spline : Z → exc pyfloat) (ds : list Z)
  : exc (pyfloat * pyfloat) :=
  iv30 <~ spline 30 ;;
  match list_min ds with
  | None => Raise "min() arg is an empty sequence"
  | Some d0 =>
      if d0 =? 45 then Ok (iv30, Fin 0)
      else
        let dden := if negb (45 - d0 =? 0) then 45 - d0 else 1 in
        s45 <~ spline 45 ;;
        sd0 <~ spline d0 ;;
        Ok (iv30, fdiv (fsub s45 sd0) (of_Z dden))
  end.

(** Lines 424-427. *)
Definition iv_rv_ratio (iv30 hv : pyfloat) : pyfloat :=
  if feqb hv (Fin 0) then Fin 9999 else fdiv iv30 hv.

Definition is_nan (x : pyfloat) : bool :=
  match x with NaN => true | _ => false end.

(** [series.rolling(n).mean()]: NaN until [n] rows are seen, then the
    mean of the last [n] (NaN when one of them is NaN). *)
Definition rolling_mean (n : nat) (l : list pyfloat) : list pyfloat :=
  (λ i, if (i + 1 <? n)%nat then NaN
        else fdiv (foldr fadd (Fin 0) (take n (drop (i + 1 - n) l)))
                  (of_Z (Z.of_nat n)))
    <$> seq 0 (length l).

(** Line 428. *)
Definition avg_volume_30 (h3 : history) : exc pyfloat :=
  if bool_decide (h3 = []) then Ok (Fin 0)
  else match last (filter (λ x, is_nan x = false) (rolling_mean 30 (Volume <$> h3))) with
       | Some v => Ok v
       | None => Raise "IndexError: single positional indexer is out-of-bounds"
       end.

(** Row-wise [max] of a frame, NaN entries skipped. *)
Definition fmax_skipna (a b : pyfloat) : pyfloat :=
  match a, b with
  | NaN, _ => b
  | _, NaN => a
  | _, _ => if fltb a b then b else a
  end.

(** Lines 431-437: the 14-day average true range. *)
Definition atr14 (h3 : history) : pyfloat :=
  if bool_decide (h3 = []) then Fin 0
  else
    let pc := NaN :: (Close <$> take (length h3 - 1) h3) in
    let tr := (λ bp : bar * pyfloat,
                 let '(b, p) := bp in
                 fmax_skipna (fmax_skipna (fsub (High b) (Low b))
                                          (fabs (fsub (High b) p)))
                             (fabs (fsub (Low b) p)))
                <$> zip h3 pc in
    default NaN (last (rolling_mean 14 tr)).

(** Lines 440-443. *)
Definition expected_move (mk : market) (stprice up : option pyfloat)
  : exc string :=
  match stprice, up with
  | Some sp, Some u =>
      if truthy sp && negb (feqb u (Fin 0))
      then Ok (format_percent mk (fmul (fdiv sp u) (Fin 100)))
      else Ok "N/A"
  | Some sp, None =>
      if truthy sp then Raise "TypeError: unsupported operand type(s) for /"
      else Ok "N/A"
  | None, _ => Ok "N/A"
  end.

(** The body of the [try] of one attempt (lines 358-458). *)
Definition attempt_body (mk : market) (symbol : string) : M od_result :=
  let s := upper (strip symbol) in
  if bool_decide (s = "") then ret (OdError "No symbol provided.")
  else
    opts <- fetch (ReqOptions s) (options_of mk s) ;;
    if bool_decide (opts = []) then ret (OdError ("No options for " +:+ s +:+ "."))
    else
      exps <- lift (filter_dates mk opts) ;;
      oc <- fetch_chains mk s exps [] ;;
      up <- get_current_price mk s ;;
      hist1 <- fetch (ReqHistory s "1d") (history_of mk s "1d") ;;
      let tv := match last hist1 with Some b => Volume b | None => Fin 0 end in
      st <- lift (atm_loop up {| atm_ivs := []; stprice := None;
                                 fi_iv := None; atm_i := O |} oc) ;;
      if bool_decide (atm_ivs st = []) then ret (OdError "No ATM IV found.")
      else
        dv <- lift (days_and_vols mk (atm_ivs st)) ;;
        let '(ds, vs) := dv in
        let spline := build_term_structure (interp1d_min_entries mk) ds vs in
        tm <- lift (term_metrics spline ds) ;;
        let '(iv30, slope) := tm in
        h3 <- fetch (ReqHistory s "3mo") (history_of mk s "3mo") ;;
        let hv := yang_zhang_volatility mk h3 in
        let iv30_rv30 := iv_rv_ratio iv30 hv in
        avgv <- lift (avg_volume_30 h3) ;;
        let at14 := atr14 h3 in
        mc <- fetch (ReqInfo s) (market_cap_of mk s) ;;
        exmo <- lift (expected_move mk (stprice st) up) ;;
        ret (OdData {|
          od_avg_volume := fgeb avgv (Fin 1500000);
          od_avg_volume_value := avgv;
          od_iv30_rv30 := iv30_rv30;
          od_term_slope := slope;
          od_term_structure := iv30;
          od_expected_move := exmo;
          od_underlying_price := up;
          od_historical_volatility := hv;
          od_current_iv := fi_iv st;
          od_atr14 := at14;
          od_market_cap := mc;
          od_volume := tv |}).

(** The loop over [range(3)] (lines 356-466): a result of the body is
    returned; an exception rotates the session and goes on, or, in the
    last attempt, is returned as an error value.  Falling off the loop
    returns [None]. *)
Fixpoint compute_loop (mk : market) (symbol : string) (attempts : list nat)
  : M (option od_result) :=
  match attempts with
  | [] => ret None
  | attempt :: rest =>
      try_except
        (r <- attempt_body mk symbol ;; ret (Some r))
        (λ e, if (attempt <? 2)%nat
              then (rotate_session ;;; compute_loop mk symbol rest)
              else ret (Some (OdError ("Err: " +:+ e))))
  end.

Definition compute_recommendation (mk : market) (symbol : string)
  : M (option od_result) :=
  compute_loop mk symbol [0; 1; 2]%nat.

End OptionsAnalyzer.

(** ** DataCache (lines 564-677) *)

Module DataCache.

Definition cache_expiry_days : Z := 7.

(** Lines 586-589. *)
Definition _get_cache_key (date : string) (tks : list string) : string :=
  let s := join "_" (sorted String.leb tks) in
  let data_str := date +:+ "_" +:+ s in
  MD5.hexdigest data_str.

(** Lines 591-592: the file of a key, inside the cache directory. *)
Definition _get_cache_path (key : string) : string := key +:+ ".pkl".

(** [a == b] on stored values: numbers by value, [True]/[False] as 1/0. *)
Definition as_num (v : pyval) : option pyfloat :=
  match v with
  | VNum x => Some x
  | VBool b => Some (if b then Fin 1 else Fin 0)
  | _ => None
  end.

Definition py_eq (a b : pyval) : bool :=
  match a, b with
  | VNone, VNone => true
  | VStr s, VStr s' => String.eqb s s'
  | _, _ =>
      match as_num a, as_num b with
      | Some x, Some y => feqb x y
      | _, _ => false
      end
  end.

(** [v is None] *)
Definition is_none (v : pyval) : bool :=
  match v with VNone => true | _ => false end.

(** [d.get(k)]: a missing key reads as [None]. *)
Definition dict_get (d : dict) (k : string) : pyval := default VNone (d !! k).

(** Lines 594-614. *)
Definition missing_fields_of (d : dict) : list string :=
  (if py_eq (dict_get d "expected_move") (VStr "N/A") then ["expected_move"] else [])
  ++ (if is_none (dict_get d "current_iv") then ["current_iv"] else [])
  ++ (if py_eq (dict_get d "term_structure") (VNum (Fin 0))
         || py_eq (dict_get d "term_structure") (VStr "N/A")
      then ["term_structure"] else []).

Fixpoint _identify_missing_data (data : list dict) : exc (list missing_entry) :=
  match data with
  | [] => Ok []
  | d :: data' =>
      let mf := missing_fields_of d in
      if bool_decide (mf = []) then _identify_missing_data data'
      else
        match d !! "ticker" with
        | None => Raise "KeyError: 'ticker'"
        | Some t =>
            rest <~ _identify_missing_data data' ;;
            Ok ({| m_ticker := t;
                   m_missing_fields := mf;
                   m_earnings_time := default (VStr "Unknown") (d !! "earnings_time") |}
                :: rest)
        end
  end.

(** Lines 616-630, at time [now]. *)
Definition save_data (now : Z) (fs : gmap string file) (date : string)
  (tickers : list string) (data : list dict) : exc (gmap string file) :=
  let ck := _get_cache_key date tickers in
  let cp := _get_cache_path ck in
  missing_data <~ _identify_missing_data data ;;
  let cdata := {| c_timestamp := now; c_date := date; c_tickers := tickers;
                  c_data := data; c_missing_data := missing_data |} in
  Ok (<[cp := Pickled cdata]> fs).

(** [age.days] of [datetime.now() - c['timestamp']], times in seconds. *)
Definition age_days (now timestamp : Z) : Z := (now - timestamp) / 86400.

(** Lines 632-646: the result pair and the directory afterwards. *)
Definition get_data (now : Z) (fs : gmap string file) (date : string)
  (tickers : list string)
  : (option (list dict) * list missing_entry) * gmap string file :=
  let ck := _get_cache_key date tickers in
  let cp := _get_cache_path ck in
  match fs !! cp with
  | None => ((None, []), fs)
  | Some (Pickled c) =>
      if cache_expiry_days <=? age_days now (c_timestamp c)
      then ((None, []), delete cp fs)
      else ((Some (c_data c), c_missing_data c), fs)
  | Some Unreadable => ((None, []), fs)
  end.

(** The test of line 657:
    [entry[k]=='N/A' or entry[k] is None or entry[k]==0]. *)
Definition is_sentinel (v : pyval) : bool :=
  py_eq v (VStr "N/A") || is_none v || py_eq v (VNum (Fin 0)).

(** Lines 657-658, for one item [(k, v)] of [new_data]. *)
Definition backfill_field (entry : dict) (kv : string * pyval) : dict :=
  match entry !! kv.1 with
  | Some old => if is_sentinel old then <[kv.1 := kv.2]> entry else entry
  | None => entry
  end.

(** Lines 655-658, for one [entry] of [c['data']]. *)
Definition backfill_entry (new_data : dict) (entry : dict) : exc dict :=
  match entry !! "ticker" with
  | None => Raise "KeyError: 'ticker'"
  | Some t =>
      match new_data !! "ticker" with
      | None => Raise "KeyError: 'ticker'"
      | Some t' =>
          if py_eq t t'
          then Ok (foldl backfill_field entry (map_to_list new_data))
          else Ok entry
      end
  end.

Fixpoint backfill_all (new_data : dict) (data : list dict) : exc (list dict) :=
  match data with
  | [] => Ok []
  | entry :: data' =>
      e' <~ backfill_entry new_data entry ;;
      rest <~ backfill_all new_data data' ;;
      Ok (e' :: rest)
  end.

(** Lines 648-664: an exception anywhere leaves the file as it was. *)
Definition update_missing_data (fs : gmap string file) (date : string)
  (tickers : list string) (new_data : dict) : gmap string file :=
  let ck := _get_cache_key date tickers in
  let cp := _get_cache_path ck in
  match fs !! cp with
  | Some (Pickled c) =>
      match (data' <~ backfill_all new_data (c_data c) ;;
             md <~ _identify_missing_data data' ;;
             Ok {| c_timestamp := c_timestamp c; c_date := c_date c;
                   c_tickers := c_tickers c; c_data := data';
                   c_missing_data := md |}) with
      | Ok c' => <[cp := Pickled c']> fs
      | Raise _ => fs
      end
  | _ => fs
  end.

(** The field [k] of record [i] in the cache file [name], if the file
    can be read and has it. *)
Definition read_field (fs : gmap string file) (name : string) (i : nat)
  (k : string) : option pyval :=
  match fs !! name with
  | Some (Pickled c) =>
      match c_data c !! i with
      | Some e => e !! k
      | None => None
      end
  | _ => None
  end.

Definition is_pkl (name : string) : bool :=
  match String.rev name with
  | String "l" (String "k" (String "p" (String "." _))) => true
  | _ => false
  end.

(** Lines 669-677: whether the sweep removes a file: it ends in [.pkl]
    and is expired, or cannot be read. *)
Definition swept (now : Z) (name : string) (f : file) : bool :=
  is_pkl name &&
  match f with
  | Unreadable => true
  | Pickled c => cache_expiry_days <=? age_days now (c_timestamp c)
  end.

(** Lines 666-677. *)
Definition clear_expired (now : Z) (fs : gmap string file) : gmap string file :=
  filter (λ nf : string * file, swept now nf.1 nf.2 = false) fs.

End DataCache.

(** ** EarningsCalendarFetcher (lines 470-560) *)

Module EarningsCalendarFetcher.

(** Lines 517-539: the dict is cleared, then filled row by row. *)
Definition record_times (rows : list (string * string)) : M unit :=
  λ s, (Ok tt,
        set_earnings_times
          (foldl (λ m (row : string * string), <[row.1 := row.2]> m) ∅ rows) s).

(** The [while attempt < max_retries] loop of lines 490-557; three
    rounds of fuel are enough, since every round returns or counts one
    attempt. *)
Fixpoint fetch_loop (mk : market) (date : string) (fuel attempt : nat)
  : M (list string) :=
  match fuel with
  | O => ret []
  | S fuel' =>
      if (attempt <? 3)%nat then
        try_except
          (rows <- fetch (ReqCalendar date) (calendar_of mk date) ;;
           record_times rows ;;;
           ret (rows.*1))
          (λ e, if (S attempt <? 3)%nat
                then (rotate_session ;;; fetch_loop mk date fuel' (S attempt))
                else ret [])
      else ret []
  end.

Definition fetch_earnings_data (mk : market) (date : string) : M (list string) :=
  fetch_loop mk date 3 0.

(** Lines 559-560. *)
Definition get_earnings_time (ticker : string) : M string :=
  λ s, (Ok (default "Unknown" (earnings_times s !! ticker)), s).

End EarningsCalendarFetcher.

(** ** EnhancedEarningsScanner (lines 681-867) *)

Module EnhancedEarningsScanner.

Import OptionsAnalyzer EarningsCalendarFetcher.

Definition batch_size : nat := 10.

(** Lines 700-726: one frame per ticker; an exception of the download
    gives the empty dict. *)
Definition batch_download_history (mk : market) (tickers : list string)
  : M (gmap string history) :=
  try_except
    (data <- fetch (ReqDownload tickers) (download_of mk tickers) ;;
     ret (match tickers with
          | [tk] => {[ tk := default [] (data !! tk) ]}
          | _ =>
              foldl (λ (res : gmap string history) tk,
                       match data !! tk with
                       | Some df => if bool_decide (df = []) then res
                                    else <[tk := df]> res
                       | None => res
                       end) ∅ tickers
          end))
    (λ _, ret ∅).

(** Lines 805-816: price, volatility and volume from the history. *)
Definition history_fields (mk : market) (ticker : string)
  (history_data : option history) : M (pyfloat * pyfloat * pyfloat) :=
  match history_data with
  | Some (b :: hd) =>
      let h := b :: hd in
      cp <- lift (index (Close <$> h) (-1)) ;;
      let hv := yang_zhang_volatility mk h in
      tv <- lift (index (Volume <$> h) (-1)) ;;
      ret (cp, hv, tv)
  | _ =>
      hd <- fetch (ReqHistory ticker "3mo") (history_of mk ticker "3mo") ;;
      if bool_decide (hd = []) then ret (Fin 0, Fin 1, Fin 0)
      else
        cp <- lift (index (Close <$> hd) (-1)) ;;
        let hv := yang_zhang_volatility mk hd in
        tv <- lift (index (Volume <$> hd) (-1)) ;;
        ret (cp, hv, tv)
  end.

Definition opt_num (x : option pyfloat) : pyval :=
  match x with
  | Some v => VNum v
  | None => VNone
  end.

(** The dict of lines 831-847. *)
Definition full_record (ticker : string) (cp tv hv : pyfloat) (mc : pyval)
  (earnings_time : string) (rec : recommendation) (d : rec_data) : dict :=
  list_to_map
    [ ("ticker", VStr ticker);
      ("current_price", VNum cp);
      ("market_cap", mc);
      ("volume", VNum tv);
      ("avg_volume", VBool (od_avg_volume d));
      ("avg_volume_value", VNum (od_avg_volume_value d));
      ("earnings_time", VStr earnings_time);
      ("recommendation", VStr (rec_string rec));
      ("expected_move", VStr (od_expected_move d));
      ("atr14", VNum (od_atr14 d));
      ("iv30_rv30", VNum (od_iv30_rv30 d));
      ("term_slope", VNum (od_term_slope d));
      ("term_structure", VNum (od_term_structure d));
      ("historical_volatility", VNum hv);
      ("current_iv", opt_num (od_current_iv d)) ].

(** The dict of lines 848-864. *)
Definition degraded_record (ticker : string) (cp tv hv : pyfloat) : dict :=
  list_to_map
    [ ("ticker", VStr ticker);
      ("current_price", VNum cp);
      ("market_cap", VNum (Fin 0));
      ("volume", VNum tv);
      ("avg_volume", VBool false);
      ("avg_volume_value", VNum (Fin 0));
      ("earnings_time", VStr "Unknown");
      ("recommendation", VStr "Avoid");
      ("expected_move", VStr "N/A");
      ("atr14", VNum (Fin 0));
      ("iv30_rv30", VNum (Fin 0));
      ("term_slope", VNum (Fin 0));
      ("term_structure", VNum (Fin 0));
      ("historical_volatility", VNum hv);
      ("current_iv", VNone) ].

(** The body of the [try] of [analyze_stock] (lines 805-864). *)
Definition analyze_body (mk : market) (ticker : string)
  (history_data : option history) : M dict :=
  h <- history_fields mk ticker history_data ;;
  let '(cp, hv, tv) := h in
  od <- compute_recommendation mk ticker ;;
  match od with
  | Some (OdData d) =>
      let avb := od_avg_volume d in
      let rec := score avb (od_iv30_rv30 d) (od_term_slope d) in
      mc <- fetch (ReqInfo ticker) (market_cap_of mk ticker) ;;
      et <- get_earnings_time ticker ;;
      ret (full_record ticker cp tv hv mc et rec d)
  | _ => ret (degraded_record ticker cp tv hv)
  end.

(** Lines 803-867: any exception is logged and [None] is returned. *)
Definition analyze_stock (mk : market) (ticker : string)
  (history_data : option history) : M (option dict) :=
  try_except
    (r <- analyze_body mk ticker history_data ;; ret (Some r))
    (λ _, ret None).

(** [if r:] on an optional dict. *)
Definition truthy_result (r : option dict) : bool :=
  match r with
  | Some d => negb (size d =? 0)%nat
  | None => false
  end.

(** Lines 774-789: the analyses of one batch.  The pool runs them
    concurrently and [as_completed] yields them as they finish; the model
    runs them one after the other, in the order of the batch. *)
Fixpoint analyze_batch (mk : market) (b : list string)
  (hist : gmap string history) (recommended : list dict) : M (list dict) :=
  match b with
  | [] => ret recommended
  | st :: b' =>
      r <- try_except (analyze_stock mk st (hist !! st)) (λ _, ret None) ;;
      analyze_batch mk b' hist
        (match r with
         | Some d => if truthy_result r then recommended ++ [d] else recommended
         | None => recommended
         end)
  end.

(** Lines 772-789. *)
Fixpoint scan_batches (mk : market) (batches : list (list string))
  (recommended : list dict) : M (list dict) :=
  match batches with
  | [] => ret recommended
  | b :: bs =>
      hist <- batch_download_history mk b ;;
      recommended' <- analyze_batch mk b hist recommended ;;
      scan_batches mk bs recommended'
  end.

(** The sort key of lines 791-796. *)
Definition sort_key : Type := bool * bool * string * string.

Definition as_str (v : option pyval) : exc string :=
  match v with
  | Some (VStr s) => Ok s
  | Some _ => Raise "TypeError: '<' not supported"
  | None => Raise "KeyError"
  end.

Definition key_of (x : dict) : exc (sort_key * dict) :=
  match x !! "recommendation" with
  | None => Raise "KeyError: 'recommendation'"
  | Some r =>
      et <~ as_str (x !! "earnings_time") ;;
      tk <~ as_str (x !! "ticker") ;;
      Ok ((negb (DataCache.py_eq r (VStr "Recommended")),
           String.eqb et "Unknown", et, tk), x)
  end.

Fixpoint keys_of (l : list dict) : exc (list (sort_key * dict)) :=
  match l with
  | [] => Ok []
  | x :: l' => k <~ key_of x ;; ks <~ keys_of l' ;; Ok (k :: ks)
  end.

(** Tuples compare by their first differing component; [False < True]. *)
Definition bool_lt (a b : bool) : bool := negb a && b.

Definition key_lt (a b : sort_key) : bool :=
  let '(a1, a2, a3, a4) := a in
  let '(b1, b2, b3, b4) := b in
  if negb (Bool.eqb a1 b1) then bool_lt a1 b1
  else if negb (Bool.eqb a2 b2) then bool_lt a2 b2
  else if negb (String.eqb a3 b3) then String.ltb a3 b3
  else String.ltb a4 b4.

Definition key_leb (a b : sort_key * dict) : bool := negb (key_lt b.1 a.1).

(** [recommended.sort(key=...)] *)
Definition sort_results (recommended : list dict) : exc (list dict) :=
  ks <~ keys_of recommended ;;
  Ok ((sorted key_leb ks).*2).

(** [self.data_cache.get_data(ds, e_stocks)] on the state. *)
Definition cache_get (mk : market) (ds : string) (e_stocks : list string)
  : M (option (list dict) * list missing_entry) :=
  λ s, let '(r, fs) := DataCache.get_data (now mk (log s)) (files s) ds e_stocks in
       (Ok r, set_files fs s).

Definition cache_save (mk : market) (ds : string) (e_stocks : list string)
  (data : list dict) : M unit :=
  λ s, match DataCache.save_data (now mk (log s)) (files s) ds e_stocks data with
       | Ok fs => (Ok tt, set_files fs s)
       | Raise e => (Raise e, s)
       end.

Definition cache_update (ds : string) (e_stocks : list string) (r : dict)
  : M unit :=
  λ s, (Ok tt, set_files (DataCache.update_missing_data (files s) ds e_stocks r) s).

(** [" ".join(tickers)] raises on a ticker that is not a string. *)
Fixpoint ticker_strings (l : list pyval) : exc (list string) :=
  match l with
  | [] => Ok []
  | VStr s :: l' => ss <~ ticker_strings l' ;; Ok (s :: ss)
  | _ :: _ => Raise "TypeError: sequence item: expected str instance"
  end.

(** Lines 748-761: the analyses of one batch of missing tickers, each
    result merged into the cache. *)
Fixpoint refill_batch (mk : market) (ds : string) (e_stocks b : list string)
  (hist : gmap string history) : M unit :=
  match b with
  | [] => ret tt
  | st :: b' =>
      r <- try_except (analyze_stock mk st (hist !! st)) (λ _, ret None) ;;
      match r with
      | Some d => if truthy_result r then cache_update ds e_stocks d else ret tt
      | None => ret tt
      end ;;;
      refill_batch mk ds e_stocks b' hist
  end.

(** Lines 746-761. *)
Fixpoint refill_batches (mk : market) (ds : string) (e_stocks : list string)
  (batches : list (list pyval)) : M unit :=
  match batches with
  | [] => ret tt
  | b :: bs =>
      tickers <- lift (ticker_strings b) ;;
      hist <- batch_download_history mk tickers ;;
      refill_batch mk ds e_stocks tickers hist ;;;
      refill_batches mk ds e_stocks bs
  end.

(** Lines 768-801: the scan of a date whose symbols are not cached. *)
Definition scan_fresh (mk : market) (ds : string) (e_stocks : list string)
  : M (list dict) :=
  recommended <- scan_batches mk (chunks batch_size e_stocks) [] ;;
  sorted_results <- lift (sort_results recommended) ;;
  cache_save mk ds e_stocks sorted_results ;;;
  ret sorted_results.

(** Lines 728-801.  The result is [None] when the re-read of line 762
    finds no entry. *)
Definition scan_earnings_stocks (mk : market) (date : Z)
  : M (option (list dict)) :=
  let ds := strftime mk date in
  e_stocks <- fetch_earnings_data mk ds ;;
  if bool_decide (e_stocks = []) then ret (Some [])
  else
    cached <- cache_get mk ds e_stocks ;;
    match cached with
    | (Some (c :: cd), md) =>
        if bool_decide (md = []) then ret (Some (c :: cd))
        else
          let missing_tickers := m_ticker <$> md in
          refill_batches mk ds e_stocks (chunks batch_size missing_tickers) ;;;
          again <- cache_get mk ds e_stocks ;;
          ret again.1
    | _ =>
        r <- scan_fresh mk ds e_stocks ;;
        ret (Some r)
    end.

End EnhancedEarningsScanner.

(** ** A small market, for examples *)

Module Sample.

(** March 1st, 2024 and four expiries, as day numbers; April 15th is 45
    days after March 1st. *)
Definition calendar_table : list (string * Z) :=
  [ ("2024-03-01", 738946); ("2024-03-15", 738960); ("2024-04-15", 738991);
    ("2024-04-19", 738995); ("2024-05-17", 739023) ].

Definition sample_strptime (s : string) : option Z :=
  snd <$> List.find (λ p, String.eqb p.1 s) calendar_table.

Definition sample_strftime (d : Z) : string :=
  default "" (fst <$> List.find (λ p, p.2 =? d) calendar_table).

Definition sample_bar : bar :=
  {| Open := Fin 10; High := Fin 12; Low := Fin 9; Close := Fin 11;
     Volume := Fin 2000000 |}.

Definition sample_chain : chain :=
  {| calls := [ {| strike := Fin 10; bid := Fin 1.4; ask := Fin 1.6;
                   impliedVolatility := Fin 0.5 |};
                {| strike := Fin 12; bid := Fin 0.4; ask := Fin 0.6;
                   impliedVolatility := Fin 0.45 |} ];
     puts := [ {| strike := Fin 10; bid := Fin 0.3; ask := Fin 0.5;
                  impliedVolatility := Fin 0.55 |};
               {| strike := Fin 12; bid := Fin 1.3; ask := Fin 1.5;
                  impliedVolatility := Fin 0.47 |} ] |}.

(** AAA and BBB report on March 1st.  The bulk download has a frame for
    AAA only; AAA lists no options; every history request for BBB fails.
    CCC has one expiry, 45 days out, a chain for it, and three months of
    flat prices, whose volatility is zero. *)
Definition sample_market : market :=
  {| today := 738946;
     strptime := sample_strptime;
     strftime := sample_strftime;
     now := λ _, 1709300000;
     options_of := λ sym _,
       if String.eqb sym "CCC" then Ok ["2024-04-15"] else Ok [];
     option_chain_of := λ sym _ _,
       if String.eqb sym "CCC" then Ok sample_chain else Raise "no chain";
     history_of := λ sym period _,
       if String.eqb sym "BBB" then Raise "connection reset"
       else if String.eqb period "3mo" then Ok (replicate 30 sample_bar)
       else Ok [sample_bar];
     market_cap_of := λ _ _, Ok (VNum (Fin 0));
     download_of := λ _ _, Ok {[ "AAA" := [sample_bar] ]};
     calendar_of := λ _ _, Ok [("AAA", "Pre Market"); ("BBB", "Post Market")];
     yang_zhang_volatility := λ h,
       if (30 <=? length h)%nat then Fin 0 else Fin 0.25;
     format_percent := λ _, "0.0%";
     interp1d_min_entries := 1 |}.

Definition empty_state : state :=
  {| log := []; files := ∅; earnings_times := ∅ |}.

(** A cached record of AAA with a vol but no expected move, and the
    result of a later analysis with an expected move but no vol. *)
Definition stored_entry : dict :=
  list_to_map
    [ ("ticker", VStr "AAA"); ("current_iv", VNum (Fin 0.32));
      ("expected_move", VStr "N/A"); ("avg_volume", VBool false) ].

Definition later_result : dict :=
  list_to_map
    [ ("ticker", VStr "AAA"); ("current_iv", VNone);
      ("expected_move", VStr "4.2%"); ("avg_volume", VBool true) ].

Definition stored_cache : cache :=
  {| c_timestamp := 1709300000; c_date := "2024-03-01"; c_tickers := ["AAA"];
     c_data := [stored_entry];
     c_missing_data :=
       [ {| m_ticker := VStr "AAA"; m_missing_fields := ["expected_move"];
            m_earnings_time := VStr "Unknown" |} ] |}.

Definition stored_files : gmap string file :=
  {[ "3e76468b88523d2a7a7f16f3e3c6fd96.pkl" := Pickled stored_cache ]}.

End Sample.

(** ** The vocabulary of the properties *)

(** The order a comparison function decides. *)
Definition le_of {A : Type} (leb : A → A → bool) : relation A :=
  λ a b, leb a b = true.

(** The prefix of a list up to and including the first element that
    satisfies [P]; [None] when there is none. *)
Fixpoint prefix_through (P : Z → bool) (l : list Z) : option (list Z) :=
  match l with
  | [] => None
  | d :: l' => if P d then Some [d] else (d ::.) <$> prefix_through P l'
  end.

(** A leading entry equal to today's date is dropped. *)
Definition drop_today (mk : market) (l : list string) : list string :=
  match l with
  | a0 :: rest => if String.eqb a0 (strftime mk (today mk)) then rest else l
  | [] => []
  end.

(** Knots with rational vols, and their order by day. *)
Definition by_dayQ (a b : Z * Q) : bool := a.1 <=? b.1.
Definition lt_day : relation (Z * Q) := λ a b, a.1 < b.1.
Definition fin_knot (k : Z * Q) : Z * pyfloat := (k.1, Fin k.2).

(** The string is empty or made of whitespace characters only: each of
    its characters is one that [str.isspace] accepts, in one, two or three
    bytes. *)
Fixpoint all_space (s : string) : bool :=
  match s with
  | EmptyString => true
  | String c1 s1 =>
      is_space1 c1 && all_space s1
      || match s1 with
         | String c2 s2 =>
             is_space2 c1 c2 && all_space s2
             || match s2 with
                | String c3 s3 => is_space3 c1 c2 c3 && all_space s3
                | EmptyString => false
                end
         | EmptyString => false
         end
  end.

(** A stored value that is not a sentinel is the same in [e']. *)
Definition kept_by (e e' : dict) : Prop :=
  ∀ k v, e !! k = Some v → DataCache.is_sentinel v = false → e' !! k = Some v.

(** The records [analyze_stock] builds. *)
Definition is_record (ticker : string) (d : dict) : Prop :=
  (∃ cp tv hv, d = EnhancedEarningsScanner.degraded_record ticker cp tv hv)
  ∨ (∃ cp tv hv mc et rec od,
       d = EnhancedEarningsScanner.full_record ticker cp tv hv mc et rec od).

(** What the sort and the cache read of a record. *)
Definition has_keys (d : dict) : Prop :=
  ∃ r et tk, d !! "recommendation" = Some r
             ∧ d !! "earnings_time" = Some (VStr et)
             ∧ d !! "ticker" = Some (VStr tk).

(** The outcome of one run of the single-symbol analysis. *)
Definition outcome_of (mk : market) (o : string * option dict) : Prop :=
  ∃ hist sa sb,
    EnhancedEarningsScanner.analyze_stock mk o.1 hist sa = (Ok o.2, sb).

(** ** ProxyManager.fetch_proxies (lines 154-184) *)

Module ProxyPool.

Import ProxyManager.

(** Lines 176-182: the loop that keeps the first proxy of every [http]
    address; [seen] is the set of addresses met so far. *)
Fixpoint unique_from (seen : gset string) (all_proxies : list proxy)
  : list proxy :=
  match all_proxies with
  | [] => []
  | p :: rest =>
      let s := http p in
      if bool_decide (s ∈ seen) then unique_from seen rest
      else p :: unique_from ({[ s ]} ∪ seen) rest
  end.

(** [results] are the lists the sources gave, in the order in which the
    pool completed them; a source that fails gives the empty list
    (every [fetch_*] catches its exceptions). *)
Definition fetch_proxies (results : list (list proxy)) (pm : t) : t :=
  let all_proxies := concat results in
  {| proxies := unique_from ∅ all_proxies;
     current_proxy := current_proxy pm;
     proxy_enabled := proxy_enabled pm |}.

End ProxyPool.

(** ** SessionManager (lines 203-222) *)

Module SessionManager.

Import ProxyManager.

(** The manager: its proxy manager, the proxy its session is bound to
    ([None] for a direct connection), and the number of sessions it has
    created, which tells a new session from the old one. *)
Record t : Type := {
  proxy_manager : ProxyManager.t;
  session : option proxy;
  created : nat
}.

(** Lines 208-213, with the draw [r] of [get_proxy]: the proxy of the new
    session and the proxy manager afterwards. *)
Definition _create_session (r : nat) (pm : ProxyManager.t)
  : option proxy * ProxyManager.t :=
  if proxy_enabled pm then
    match get_proxy r pm with
    | (Some p, pm') => (Some p, pm')
    | (None, pm') => (None, pm')
    end
  else (None, pm).

(** [SessionManager(proxy_manager)] (lines 204-206). *)
Definition init (r : nat) (pm : ProxyManager.t) : t :=
  let '(sp, pm') := _create_session r pm in
  {| proxy_manager := pm'; session := sp; created := 1 |}.

(** Lines 215-219, with the draws of [rotate_proxy] and of the
    [get_proxy] inside [_create_session]. *)
Definition rotate_session (r1 r2 : nat) (sm : t) : t :=
  if proxy_enabled (proxy_manager sm) then
    match rotate_proxy r1 (proxy_manager sm) with
    | (Some _, pm') =>
        let '(sp, pm'') := _create_session r2 pm' in
        {| proxy_manager := pm''; session := sp; created := S (created sm) |}
    | (None, pm') =>
        {| proxy_manager := pm'; session := session sm; created := created sm |}
    end
  else sm.

(** Lines 221-222. *)
Definition get_session (sm : t) : option proxy := session sm.

End SessionManager.

(** ** EarningsTkApp.apply_filters (lines 1075-1091) *)

Module EarningsTkApp.

(** [v != s] for a stored value and a string. *)
Definition differs (v : pyval) (s : string) : bool :=
  negb (DataCache.py_eq v (VStr s)).

(** The two tests of the loop body; a row that fails one is skipped. *)
Definition passes (time_val rec_val : string) (row : dict) : bool :=
  let et := default (VStr "Unknown") (row !! "earnings_time") in
  if negb (String.eqb time_val "All") && differs et time_val then false
  else
    let rv := default (VStr "Avoid") (row !! "recommendation") in
    if negb (String.eqb rec_val "All") && differs rv rec_val then false
    else true.

Fixpoint apply_filters (time_val rec_val : string) (data : list dict)
  : list dict :=
  match data with
  | [] => []
  | row :: data' =>
      if passes time_val rec_val row
      then row :: apply_filters time_val rec_val data'
      else apply_filters time_val rec_val data'
  end.

End EarningsTkApp.

(** ** More vocabulary of the properties *)

Definition is_rotation (e : event) : bool :=
  match e with RotatedSession => true | Fetched _ => false end.

(** The events of up to three tries of the request [q], newest first: a
    rotation stands between two tries. *)
Definition tries (q : request) (n : nat) : list event :=
  match n with
  | 1%nat => [Fetched q]
  | 2%nat => [Fetched q; RotatedSession; Fetched q]
  | _ => [Fetched q; RotatedSession; Fetched q; RotatedSession; Fetched q]
  end.

(** A run that touches nothing but the network: the cache directory and
    the earnings times stay, and the log grows at its front. *)
Definition network_only {A : Type} (m : M A) : Prop :=
  ∀ s, files (m s).2 = files s
       ∧ earnings_times (m s).2 = earnings_times s
       ∧ ∃ evs, log (m s).2 = evs ++ log s.

(** The stored list of missing fields is the one the stored records
    give. *)
Definition consistent (c : cache) : Prop :=
  DataCache._identify_missing_data (c_data c) = Ok (c_missing_data c).

Definition all_consistent (fs : gmap string file) : Prop :=
  ∀ name c, fs !! name = Some (Pickled c) → consistent c.

(** A record that the backfill has to look at again, and its entry in
    the list of missing data. *)
Definition needs_refill (d : dict) : bool :=
  negb (bool_decide (DataCache.missing_fields_of d = [])).

Definition missing_entry_of (d : dict) : missing_entry :=
  {| m_ticker := default VNone (d !! "ticker");
     m_missing_fields := DataCache.missing_fields_of d;
     m_earnings_time := default (VStr "Unknown") (d !! "earnings_time") |}.

(** The fifteen keys of a result record. *)
Definition record_keys : gset string :=
  list_to_set
    [ "ticker"; "current_price"; "market_cap"; "volume"; "avg_volume";
      "avg_volume_value"; "earnings_time"; "recommendation"; "expected_move";
      "atr14"; "iv30_rv30"; "term_slope"; "term_structure";
      "historical_volatility"; "current_iv" ].

(** The first component of the sort key: the record is not recommended. *)
Definition not_recommended (d : dict) : bool :=
  negb (DataCache.py_eq (default VNone (d !! "recommendation"))
          (VStr "Recommended")).

(** The timings a list of calendar rows leaves: every row overwrites the
    timing of its ticker. *)
Definition times_of (rows : list (string * string)) : gmap string string :=
  foldl (λ m (row : string * string), <[row.1 := row.2]> m) ∅ rows.

(** The distance of the strike of a row to the price [u], for a finite
    strike. *)
Definition strike_distance (u : Q) (q : quote) : Q :=
  match strike q with
  | Fin k => Qabs (k - u)
  | _ => 0
  end.

(** A run that leaves every file of the cache directory as it was,
    except maybe the file [cp]. *)
Definition touches_only {A : Type} (cp : string) (m : M A) : Prop :=
  ∀ s name, name ≠ cp → files (m s).2 !! name = files s !! name.

(** The cache file [cp] of the state holds rows that come from the rows
    of [c] by backfilling: same timestamp, as many rows, and every
    populated field of every row of [c] still there. *)
Definition backfilled_from (cp : string) (c : cache) (s : state) : Prop :=
  ∃ c', files s !! cp = Some (Pickled c')
        ∧ c_timestamp c' = c_timestamp c
        ∧ Forall2 kept_by (c_data c) (c_data c').

(** The loop variables of lines 380-383 before the first expiry. *)
Definition atm_init : OptionsAnalyzer.atm_state :=
  {| OptionsAnalyzer.atm_ivs := []; OptionsAnalyzer.stprice := None;
     OptionsAnalyzer.fi_iv := None; OptionsAnalyzer.atm_i := O |}.

(** Knots with any float for a vol, in the strict order of their days. *)
Definition before_day : relation (Z * pyfloat) := λ a b, a.1 < b.1.

(** The knot [b] is the one that follows the knot [a] in the order of
    the days: no knot has its day strictly between theirs. *)
Definition next_knot (knots : list (Z * pyfloat)) (a b : Z * pyfloat) : Prop :=
  a ∈ knots ∧ b ∈ knots ∧ a.1 < b.1
  ∧ ∀ k, k ∈ knots → k.1 ≤ a.1 ∨ b.1 ≤ k.1.



(** ** A second small market: a falling term structure *)

Module Sloped.

(** Two chains with strikes 10 and 12 around the price 11; the vol at the
    money is 0.9 in the near chain and 0.5 in the far one. *)
Definition chain_of (iv : pyfloat) : chain :=
  {| calls := [ {| strike := Fin 10; bid := Fin 1.4; ask := Fin 1.6;
                   impliedVolatility := iv |};
                {| strike := Fin 12; bid := Fin 0.4; ask := Fin 0.6;
                   impliedVolatility := Fin 0.3 |} ];
     puts := [ {| strike := Fin 10; bid := Fin 0.3; ask := Fin 0.5;
                  impliedVolatility := iv |};
               {| strike := Fin 12; bid := Fin 1.3; ask := Fin 1.5;
                  impliedVolatility := Fin 0.3 |} ] |}.

(** DDD on March 1st, 2024: expiries 14 and 45 days out, listed far
    expiry first; three months of bars of volume 2,000,000; a realized
    volatility of 0.25. *)
Definition sloped_market : market :=
  {| today := 738946;
     strptime := Sample.sample_strptime;
     strftime := Sample.sample_strftime;
     now := λ _, 1709300000;
     options_of := λ _ _, Ok ["2024-04-15"; "2024-03-15"];
     option_chain_of := λ _ e _,
       if String.eqb e "2024-03-15" then Ok (chain_of (Fin 0.9))
       else Ok (chain_of (Fin 0.5));
     history_of := λ _ period _,
       if String.eqb period "3mo" then Ok (replicate 30 Sample.sample_bar)
       else Ok [Sample.sample_bar];
     market_cap_of := λ _ _, Ok (VNum (Fin 5000000000));
     download_of := λ _ _, Ok ∅;
     calendar_of := λ _ _, Ok [("DDD", "Post Market")];
     yang_zhang_volatility := λ _, Fin 0.25;
     format_percent := λ _, "18.18%";
     interp1d_min_entries := 1 |}.

End Sloped.

(** The steps of an attempt of [compute_recommendation] on the symbol [S]
    (stripped, upper case) that starts in the state [s] and gets as far as
    the data dict (lines 361-443): the answer of each request, in the
    order of the requests, and the value of each step that can raise.
    [s2] is the state after the price is read; the three requests that
    follow are logged on top of it. *)
Definition attempt_steps (mk : market) (S : string) (s : state)
  (opts exps : list string) (oc : list (string * chain)) (s1 : state)
  (up : option pyfloat) (s2 : state) (hist1 : history)
  (st : OptionsAnalyzer.atm_state) (ds : list Z) (vs : list pyfloat)
  (h3 : history) (avgv : pyfloat) (mc : pyval) (exmo : string) : Prop :=
  options_of mk S (log s) = Ok opts ∧ opts ≠ []
  ∧ OptionsAnalyzer.filter_dates mk opts = Ok exps
  ∧ OptionsAnalyzer.fetch_chains mk S exps []
      (add_event (Fetched (ReqOptions S)) s) = (Ok oc, s1)
  ∧ OptionsAnalyzer.get_current_price mk S s1 = (Ok up, s2)
  ∧ history_of mk S "1d" (log s2) = Ok hist1
  ∧ OptionsAnalyzer.atm_loop up atm_init oc = Ok st
  ∧ OptionsAnalyzer.atm_ivs st ≠ []
  ∧ OptionsAnalyzer.days_and_vols mk (OptionsAnalyzer.atm_ivs st) = Ok (ds, vs)
  ∧ history_of mk S "3mo" (Fetched (ReqHistory S "1d") :: log s2) = Ok h3
  ∧ OptionsAnalyzer.avg_volume_30 h3 = Ok avgv
  ∧ market_cap_of mk S
      (Fetched (ReqHistory S "3mo") :: Fetched (ReqHistory S "1d") :: log s2)
    = Ok mc
  ∧ OptionsAnalyzer.expected_move mk (OptionsAnalyzer.stprice st) up = Ok exmo.

(** * Properties *)

(** ** MD5 test vectors (RFC 1321, and one message of two blocks) *)

Example md5_empty : MD5.hexdigest "" = "d41d8cd98f00b204e9800998ecf8427e".
Proof. vm_compute. reflexivity. Qed.

Example md5_abc : MD5.hexdigest "abc" = "900150983cd24fb0d6963f7d28e17f72".
Proof. vm_compute. reflexivity. Qed.

Example md5_two_blocks :
  MD5.hexdigest
    "aaaaaaaaaaaaaaaaaaaaaaaaaaaaaaaaaaaaaaaaaaaaaaaaaaaaaaaaaaaaaaaaaaaaaa"
  = "0f5c6c4e740bfcc08c3c26ccb2673d46".
Proof. vm_compute. reflexivity. Qed.

(** ** The recommendation rule *)

Lemma fgeb_Fin (x y : Q) : fgeb (Fin x) (Fin y) = true ↔ (y <= x)%Q.
Proof.
  unfold fgeb, fcmp. rewrite Qle_alt, <- (Qcompare_antisym x y).
  destruct (x ?= y)%Q; simpl; split; intros; congruence.
Qed.

Lemma fleb_Fin (x y : Q) : fleb (Fin x) (Fin y) = true ↔ (x <= y)%Q.
Proof.
  unfold fleb, fcmp. rewrite Qle_alt.
  destruct (x ?= y)%Q; simpl; split; intros; congruence.
Qed.

(** The rule of lines 821-829 on its own: [score] is [Recommended]
    exactly when the flag holds, the ratio is at least 1.25 and the slope
    is at most -0.00406; [Consider] exactly when the slope condition holds
    and exactly one of the flag and the ratio condition holds; [Avoid] in
    every other case. *)
Lemma score_decision_rule (avb : bool) (iv30_rv30 term_slope : pyfloat) :
  (score avb iv30_rv30 term_slope = Recommended
   ↔ avb = true ∧ fgeb iv30_rv30 (Fin 1.25) = true
     ∧ fleb term_slope (Fin (-0.00406)) = true)
  ∧ (score avb iv30_rv30 term_slope = Consider
     ↔ fleb term_slope (Fin (-0.00406)) = true
       ∧ xorb avb (fgeb iv30_rv30 (Fin 1.25)) = true)
  ∧ (score avb iv30_rv30 term_slope = Avoid
     ↔ ¬ (avb = true ∧ fgeb iv30_rv30 (Fin 1.25) = true
          ∧ fleb term_slope (Fin (-0.00406)) = true)
       ∧ ¬ (fleb term_slope (Fin (-0.00406)) = true
            ∧ xorb avb (fgeb iv30_rv30 (Fin 1.25)) = true))
  ∧ score true (Fin 1.30) (Fin (-0.005)) = Recommended
  ∧ score false (Fin 1.30) (Fin (-0.005)) = Consider
  ∧ score true (Fin 1.30) (Fin (-0.002)) = Avoid
  ∧ score false (Fin 0.5) (Fin 0.01) = Avoid.
Proof.
  unfold score, iv_threshold, slope_threshold.
  destruct avb, (fgeb iv30_rv30 (Fin 1.25)), (fleb term_slope (Fin (-0.00406)));
    simpl; repeat split; try discriminate; try tauto; try reflexivity;
    intros; intuition discriminate.
Qed.

(** ** ProxyManager.rotate_proxy *)

Section RotateProxy.

Import ProxyManager.

Lemma choice_elem_of {A : Type} (r : nat) (l : list A) (x : A) :
  choice r l = Some x → x ∈ l.
Proof.
  unfold choice. destruct l as [|a l]; [discriminate|].
  intros H. eapply list_elem_of_lookup_2, H.
Qed.

Lemma choice_nonempty {A : Type} (r : nat) (l : list A) :
  l ≠ [] → is_Some (choice r l).
Proof.
  unfold choice. destruct l as [|a l]; [done|]. intros _.
  apply lookup_lt_is_Some. apply Nat.mod_upper_bound. simpl. lia.
Qed.

Lemma available_nil (pm : t) :
  available pm = [] ↔ Forall (λ p, Some p = current_proxy pm) (proxies pm).
Proof.
  unfold available. induction (proxies pm) as [|p l IH]; simpl.
  - split; auto.
  - rewrite filter_cons. destruct (decide (Some p ≠ current_proxy pm)) as [Hne|Heq].
    + split; [discriminate|]. intros HF. inversion HF; subst. contradiction.
    + rewrite IH. apply dec_stable in Heq. split.
      * intros HF. constructor; auto.
      * intros HF. inversion HF; auto.
Qed.

Lemma rotate_proxy_unfold (r : nat) (pm : t) :
  rotate_proxy r pm =
  if negb (proxy_enabled pm) || (length (proxies pm) <=? 1)%nat then (None, pm)
  else match choice r (available pm) with
       | Some p => (Some p, set_current pm p)
       | None => (None, pm)
       end.
Proof. unfold rotate_proxy. destruct (available pm); reflexivity. Qed.

(** Every endpoint other than the current one can be drawn. *)
Lemma rotate_proxy_any (pm : t) (p : proxy) :
  proxy_enabled pm = true → (1 < length (proxies pm))%nat → p ∈ available pm →
  ∃ r, rotate_proxy r pm = (Some p, set_current pm p).
Proof.
  intros He Hlen Hp. apply list_elem_of_lookup in Hp as [i Hi].
  exists i. rewrite rotate_proxy_unfold, He. simpl.
  destruct (Nat.leb_spec (length (proxies pm)) 1) as [|_]; [lia|].
  pose proof (lookup_lt_Some _ _ _ Hi) as Hlt.
  unfold choice. destruct (available pm) as [|a av] eqn:Hav; [simpl in Hlt; lia|].
  rewrite Nat.mod_small by done. by rewrite Hi.
Qed.

(** C9. In every pool state and for every random draw, [rotate_proxy]
    returns no rotation, and changes nothing, when proxying is disabled,
    the pool has at most one entry, or every entry is the current
    endpoint; otherwise it returns an endpoint of the pool other than the
    current one and records it as current.  Whatever it returns is never
    the endpoint that was current, and with proxying enabled and two
    distinct endpoints in the pool it does return one. *)
Theorem rotate_proxy_spec (r : nat) (pm : t) :
  (cannot_rotate pm → rotate_proxy r pm = (None, pm))
  ∧ (¬ cannot_rotate pm →
     ∃ p, rotate_proxy r pm = (Some p, set_current pm p)
          ∧ p ∈ proxies pm ∧ Some p ≠ current_proxy pm)
  ∧ (∀ p, (rotate_proxy r pm).1 = Some p → Some p ≠ current_proxy pm)
  ∧ (proxy_enabled pm = true →
     (∃ p q, p ∈ proxies pm ∧ q ∈ proxies pm ∧ p ≠ q) →
     ∃ p, (rotate_proxy r pm).1 = Some p ∧ p ∈ proxies pm
          ∧ Some p ≠ current_proxy pm
          ∧ current_proxy (rotate_proxy r pm).2 = Some p).
Proof.
  assert (Hyes : ¬ cannot_rotate pm →
     ∃ p, rotate_proxy r pm = (Some p, set_current pm p)
          ∧ p ∈ proxies pm ∧ Some p ≠ current_proxy pm).
  { intros Hn. unfold cannot_rotate in Hn. rewrite rotate_proxy_unfold.
    destruct (proxy_enabled pm) eqn:He; [|exfalso; auto]. simpl.
    destruct (Nat.leb_spec (length (proxies pm)) 1) as [Hle|Hgt];
      [exfalso; auto|].
    destruct (choice_nonempty r (available pm)) as [p Hp].
    { intros Hav. apply Hn. right; right. by apply available_nil. }
    rewrite Hp. exists p. split; [done|].
    apply choice_elem_of in Hp.
    unfold available in Hp. apply list_elem_of_filter in Hp. tauto. }
  assert (Hno : cannot_rotate pm → rotate_proxy r pm = (None, pm)).
  { intros [Hd|[Hl|Hall]]; rewrite rotate_proxy_unfold.
    - rewrite Hd. reflexivity.
    - apply Nat.leb_le in Hl. rewrite Hl, orb_true_r. reflexivity.
    - apply available_nil in Hall. rewrite Hall.
      destruct (negb _ || _); reflexivity. }
  split; [exact Hno|]. split; [exact Hyes|]. split.
  - intros p Hp.
    destruct (decide (proxy_enabled pm = false ∨ (length (proxies pm) ≤ 1)%nat
        ∨ Forall (λ p, Some p = current_proxy pm) (proxies pm))) as [Hc|Hc].
    + rewrite (Hno Hc) in Hp. discriminate.
    + destruct (Hyes Hc) as (p' & Heq & _ & Hne). rewrite Heq in Hp.
      simpl in Hp. congruence.
  - intros He (p & q & Hp & Hq & Hpq).
    assert (Hc : ¬ cannot_rotate pm).
    { intros [Hd|[Hl|Hall]].
      - congruence.
      - destruct (proxies pm) as [|a [|b l]]; simpl in Hl; try lia.
        + inversion Hp.
        + apply list_elem_of_singleton in Hp, Hq. congruence.
      - rewrite Forall_forall in Hall.
        pose proof (Hall p Hp). pose proof (Hall q Hq). congruence. }
    destruct (Hyes Hc) as (p' & Heq & Hin & Hne). exists p'.
    rewrite Heq. simpl. auto.
Qed.

End RotateProxy.

(** ** [sorted]: a stable insertion sort *)

Section Sorted.

Context {A : Type} (leb : A → A → bool).

Lemma insert_Permutation (x : A) (l : list A) : insert leb x l ≡ₚ x :: l.
Proof.
  induction l as [|y l IH]; simpl; [done|].
  destruct (leb x y); [done|]. rewrite IH. apply Permutation_swap.
Qed.

Lemma sorted_Permutation (l : list A) : sorted leb l ≡ₚ l.
Proof.
  induction l as [|x l IH]; simpl; [done|].
  rewrite insert_Permutation. by rewrite IH.
Qed.

Lemma sorted_elem_of (l : list A) (x : A) : x ∈ sorted leb l ↔ x ∈ l.
Proof. by rewrite sorted_Permutation. Qed.

Lemma sorted_length (l : list A) : length (sorted leb l) = length l.
Proof. by rewrite sorted_Permutation. Qed.

Hypothesis leb_total : ∀ a b, leb a b = true ∨ leb b a = true.

Lemma insert_Sorted (x : A) (l : list A) :
  Sorted (le_of leb) l → Sorted (le_of leb) (insert leb x l).
Proof.
  induction 1 as [|y l Hs IH Hd]; simpl.
  - repeat constructor.
  - destruct (leb x y) eqn:Hxy.
    + constructor; [by constructor|]. by constructor.
    + constructor; [exact IH|].
      assert (Hyx : le_of leb y x) by (destruct (leb_total x y); congruence).
      destruct Hd as [|z l Hyz]; simpl; [by constructor|].
      destruct (leb x z); by constructor.
Qed.

Lemma sorted_Sorted (l : list A) : Sorted (le_of leb) (sorted leb l).
Proof.
  induction l as [|x l IH]; simpl; [constructor|]. by apply insert_Sorted.
Qed.

(** A sorted list is left as it is. *)
Lemma sorted_id (l : list A) : Sorted (le_of leb) l → sorted leb l = l.
Proof.
  induction 1 as [|x l Hs IH Hd]; simpl; [done|].
  rewrite IH. destruct Hd as [|y l Hxy]; simpl; [done|].
  unfold le_of in Hxy. by rewrite Hxy.
Qed.

Lemma sorted_idemp (l : list A) : sorted leb (sorted leb l) = sorted leb l.
Proof. apply sorted_id, sorted_Sorted. Qed.

Hypothesis leb_trans : ∀ a b c, leb a b = true → leb b c = true → leb a c = true.
Hypothesis leb_antisym : ∀ a b, leb a b = true → leb b a = true → a = b.

(** With an antisymmetric order the result depends on the elements
    only, not on their order in the input. *)
Lemma sorted_Permutation_eq (l1 l2 : list A) :
  l1 ≡ₚ l2 → sorted leb l1 = sorted leb l2.
Proof.
  intros Hp.
  assert (Transitive (le_of leb)) by (intros a b c; apply leb_trans).
  assert (AntiSymm (=) (le_of leb)) by (intros a b; apply leb_antisym).
  apply (Sorted_unique (le_of leb)); try apply sorted_Sorted.
  by rewrite !sorted_Permutation.
Qed.

End Sorted.

Lemma Zleb_total (a b : Z) : (a <=? b) = true ∨ (b <=? a) = true.
Proof. lia. Qed.

(** ** OptionsAnalyzer.filter_dates *)

Section FilterDates.

Import OptionsAnalyzer.

Lemma dates_through_prefix (cutoff : Z) (pre rest : list Z) :
  dates_through cutoff (pre ++ rest) rest (length pre)
  = match prefix_through (λ d, cutoff <=? d) rest with
    | Some p => pre ++ p
    | None => []
    end.
Proof.
  revert pre. induction rest as [|d rest IH]; intros pre; simpl; [done|].
  destruct (cutoff <=? d) eqn:Hd.
  - replace (S (length pre)) with (length (pre ++ [d]))
      by (rewrite length_app; simpl; lia).
    rewrite (cons_middle d pre rest), (app_assoc pre [d] rest).
    apply take_app_length.
  - replace (pre ++ d :: rest) with ((pre ++ [d]) ++ rest) by (by rewrite <- app_assoc).
    replace (S (length pre)) with (length (pre ++ [d])) by (rewrite length_app; simpl; lia).
    rewrite IH. destruct (prefix_through _ rest); simpl; [|done].
    by rewrite <- app_assoc.
Qed.

Lemma prefix_through_None (P : Z → bool) (l : list Z) :
  prefix_through P l = None ↔ ∀ d, d ∈ l → P d = false.
Proof.
  induction l as [|d l IH]; simpl.
  - split; [|done]. intros _ d Hd. inversion Hd.
  - destruct (P d) eqn:Hd.
    + split; [discriminate|]. intros H. specialize (H d (list_elem_of_here _ _)).
      congruence.
    + destruct (prefix_through P l) eqn:Hp; simpl.
      * split; [discriminate|]. intros H.
        assert (Hn : Some l0 = None); [|discriminate].
        apply IH. intros d' Hd'. apply H. by right.
      * split; [|done]. intros _ d' Hd'.
        apply elem_of_cons in Hd' as [->|Hd']; [done|]. by apply IH.
Qed.

Lemma prefix_through_nonempty (P : Z → bool) (l p : list Z) :
  prefix_through P l = Some p → p ≠ [].
Proof.
  destruct l as [|d l]; simpl; [discriminate|].
  destruct (P d); [intros [= <-]; done|].
  destruct (prefix_through P l); simpl; intros [= <-]; done.
Qed.

End FilterDates.

Section FilterDatesSpec.

Import OptionsAnalyzer.

Lemma Sorted_mono {A : Type} (R1 R2 : relation A) (l : list A) :
  (∀ a b, R1 a b → R2 a b) → Sorted R1 l → Sorted R2 l.
Proof.
  intros HR. induction 1 as [|x l Hs IH Hd]; constructor; [exact IH|].
  destruct Hd; constructor; auto.
Qed.

Lemma Sorted_Zleb (l : list Z) : Sorted Z.le (sorted Z.leb l).
Proof.
  eapply Sorted_mono; [|apply sorted_Sorted, Zleb_total].
  intros a b H. by apply Z.leb_le.
Qed.

(** C6. For a list of date strings, [filter_dates] sorts the dates and
    returns the prefix up to and including the first date that is at least
    45 days after today, without its first entry when that entry is
    today's date; it raises exactly when no listed date is at least 45
    days out, and then with the message "No date 45+ days out found." *)
Theorem filter_dates_spec (mk : market) (dates : list string) (ds : list Z) :
  parse_dates mk dates = Ok ds →
  Sorted Z.le (sorted Z.leb ds) ∧ sorted Z.leb ds ≡ₚ ds
  ∧ match prefix_through (λ d, today mk + 45 <=? d) (sorted Z.leb ds) with
    | Some p => filter_dates mk dates = Ok (drop_today mk (strftime mk <$> p))
    | None => filter_dates mk dates = Raise "No date 45+ days out found."
    end
  ∧ ((∃ msg, filter_dates mk dates = Raise msg)
     ↔ ∀ d, d ∈ ds → d < today mk + 45).
Proof.
  intros Hparse.
  split; [apply Sorted_Zleb|]. split; [apply sorted_Permutation|].
  assert (Hfd : filter_dates mk dates =
    match prefix_through (λ d, today mk + 45 <=? d) (sorted Z.leb ds) with
    | Some p => Ok (drop_today mk (strftime mk <$> p))
    | None => Raise "No date 45+ days out found."
    end).
  { unfold filter_dates. rewrite Hparse. simpl.
    pose proof (dates_through_prefix (today mk + 45) [] (sorted Z.leb ds)) as H.
    simpl in H. rewrite H.
    destruct (prefix_through _ _) as [p|] eqn:Hp; [|done].
    apply prefix_through_nonempty in Hp.
    destruct p as [|d p]; [done|]. simpl.
    by destruct (String.eqb _ _). }
  split.
  - rewrite Hfd. by destruct (prefix_through _ _).
  - rewrite Hfd. destruct (prefix_through _ _) as [p|] eqn:Hp.
    + split; [intros [msg Hm]; discriminate|]. intros Hall.
      assert (Hn : prefix_through (λ d, today mk + 45 <=? d) (sorted Z.leb ds)
                   = None); [|congruence].
      apply prefix_through_None. intros d Hd.
      apply sorted_elem_of in Hd. specialize (Hall d Hd). lia.
    + split; [|by eexists]. intros _ d Hd.
      apply prefix_through_None with (d := d) in Hp; [lia|].
      by apply sorted_elem_of.
Qed.

(** Four listed expiries on March 1st, 2024: the result is the sorted
    prefix through April 19th, without today's expiry. *)
Lemma filter_dates_spec_witness :
  filter_dates Sample.sample_market
    ["2024-04-19"; "2024-03-01"; "2024-03-15"; "2024-05-17"]
  = Ok ["2024-03-15"; "2024-04-19"].
Proof.
  exact (proj1 (proj2 (proj2
    (filter_dates_spec Sample.sample_market
       ["2024-04-19"; "2024-03-01"; "2024-03-15"; "2024-05-17"]
       [738995; 738946; 738960; 739023] eq_refl)))).
Defined.

End FilterDatesSpec.

(** ** OptionsAnalyzer.build_term_structure *)

Section TermStructure.

Import OptionsAnalyzer.

Lemma insert_fmap {A B : Type} (f : A → B) (leb1 : A → A → bool)
  (leb2 : B → B → bool) (x : A) (l : list A) :
  (∀ a b, leb2 (f a) (f b) = leb1 a b) →
  insert leb2 (f x) (f <$> l) = f <$> insert leb1 x l.
Proof.
  intros H. induction l as [|y l IH]; [done|].
  rewrite fmap_cons. cbn [insert]. rewrite H.
  destruct (leb1 x y); [done|]. rewrite fmap_cons. f_equal. exact IH.
Qed.

Lemma sorted_fmap {A B : Type} (f : A → B) (leb1 : A → A → bool)
  (leb2 : B → B → bool) (l : list A) :
  (∀ a b, leb2 (f a) (f b) = leb1 a b) →
  sorted leb2 (f <$> l) = f <$> sorted leb1 l.
Proof.
  intros H. induction l as [|x l IH]; [done|].
  rewrite fmap_cons. change (sorted leb2 (f x :: (f <$> l)))
    with (insert leb2 (f x) (sorted leb2 (f <$> l))).
  rewrite IH. by apply insert_fmap.
Qed.

Lemma zip_fin_knots (knots : list (Z * Q)) :
  zip (knots.*1) (Fin <$> knots.*2) = fin_knot <$> knots.
Proof. induction knots as [|[d v] l IH]; [done|]. simpl. f_equal. exact IH. Qed.

Lemma fin_knots_fst (l : list (Z * Q)) : (fin_knot <$> l).*1 = l.*1.
Proof. induction l as [|[d v] l IH]; [done|]. simpl. f_equal. exact IH. Qed.

Lemma fin_knots_snd (l : list (Z * Q)) : (fin_knot <$> l).*2 = Fin <$> l.*2.
Proof. induction l as [|[d v] l IH]; [done|]. simpl. f_equal. exact IH. Qed.

Lemma by_dayQ_total (a b : Z * Q) : by_dayQ a b = true ∨ by_dayQ b a = true.
Proof. unfold by_dayQ. lia. Qed.

Lemma by_day_total (a b : Z * pyfloat) : by_day a b = true ∨ by_day b a = true.
Proof. unfold by_day. lia. Qed.

(** Sorting knots with distinct days orders the days strictly. *)
Lemma sorted_knots_strict (knots : list (Z * Q)) :
  NoDup (knots.*1) → StronglySorted lt_day (sorted by_dayQ knots).
Proof.
  intros Hnd.
  assert (Hs : StronglySorted (le_of by_dayQ) (sorted by_dayQ knots)).
  { apply Sorted_StronglySorted; [|apply sorted_Sorted, by_dayQ_total].
    intros a b c. unfold le_of, by_dayQ. lia. }
  assert (Hnd' : NoDup ((sorted by_dayQ knots).*1)).
  { by rewrite (sorted_Permutation by_dayQ knots). }
  induction Hs as [|x l Hs IH Hall]; [constructor|].
  simpl in Hnd'. apply NoDup_cons in Hnd' as [Hx Hl].
  constructor; [by apply IH|].
  rewrite Forall_forall in Hall |- *. intros y Hy.
  specialize (Hall y Hy). unfold le_of, by_dayQ in Hall. unfold lt_day.
  assert (x.1 ≠ y.1); [|lia].
  intros Heq. apply Hx. rewrite Heq. by apply list_elem_of_fmap_2.
Qed.

Lemma strict_lookup_lt (l : list (Z * Q)) (i j : nat) (a b : Z * Q) :
  StronglySorted lt_day l → l !! i = Some a → l !! j = Some b → (i < j)%nat →
  a.1 < b.1.
Proof.
  intros Hs. revert i j. induction Hs as [|x l Hs IH Hall]; intros i j Hi Hj Hij.
  - by rewrite lookup_nil in Hi.
  - destruct j as [|j]; [lia|]. destruct i as [|i]; simpl in *.
    + injection Hi as ->. rewrite Forall_forall in Hall.
      apply Hall. by eapply list_elem_of_lookup_2.
    + eapply IH; eauto. lia.
Qed.

Lemma searchsorted_strict (l : list (Z * Q)) (j : nat) (k : Z * Q) :
  StronglySorted lt_day l → l !! j = Some k → searchsorted (l.*1) k.1 = j.
Proof.
  intros Hs. revert j. induction Hs as [|x l Hs IH Hall]; intros j Hj.
  - by rewrite lookup_nil in Hj.
  - simpl. destruct j as [|j]; simpl in Hj.
    + injection Hj as ->. by rewrite Z.ltb_irrefl.
    + rewrite Forall_forall in Hall.
      assert (Hlt : x.1 < k.1) by (apply Hall; by eapply list_elem_of_lookup_2).
      apply Z.ltb_lt in Hlt. rewrite Hlt. f_equal. by apply IH.
Qed.

Lemma py_nth_nat {A : Type} (l : list A) (i : nat) :
  py_nth l (Z.of_nat i) = l !! i.
Proof.
  unfold py_nth. destruct (Z.ltb_spec (Z.of_nat i) 0); [lia|].
  by rewrite Nat2Z.id.
Qed.

Lemma py_nth_last {A : Type} (l : list A) : py_nth l (-1) = last l.
Proof.
  unfold py_nth. simpl. destruct l as [|a l] using rev_ind; [done|].
  rewrite last_snoc, length_app. simpl.
  destruct (Z.leb_spec 0 (Z.of_nat (length l + 1) + -1)); [|lia].
  replace (Z.to_nat (Z.of_nat (length l + 1) + -1)) with (length l) by lia.
  by rewrite lookup_app_r, Nat.sub_diag.
Qed.

Lemma index_nth {A : Type} (l : list A) (i : nat) (a : A) :
  l !! i = Some a → index l (Z.of_nat i) = Ok a.
Proof. intros H. unfold index. by rewrite py_nth_nat, H. Qed.

Lemma interp_line (y_hi y_lo : Q) (x_hi x_lo x_new : Z) :
  x_lo < x_hi →
  ∃ q, fadd (fmul (fdiv (fsub (Fin y_hi) (Fin y_lo)) (of_Z (x_hi - x_lo)))
                  (of_Z (x_new - x_lo))) (Fin y_lo) = Fin q
       ∧ (x_new = x_lo → (q == y_lo)%Q)
       ∧ (x_new = x_hi → (q == y_hi)%Q).
Proof.
  intros Hlt. unfold fsub, fdiv, of_Z, fneg, fadd, fmul, qzero. simpl.
  destruct (Z.eqb_spec (x_hi - x_lo) 0) as [|Hne]; [lia|].
  eexists; split; [reflexivity|]. split.
  - intros ->. rewrite Z.sub_diag. change (inject_Z 0) with 0%Q. ring.
  - intros ->. field. intros H0.
    apply (inject_Z_injective (x_hi - x_lo) 0) in H0. lia.
Qed.

(** On knots with at least [minval] entries the construction succeeds
    and the closure works on the knots sorted by day. *)
Lemma build_term_structure_knots (minval : nat) (knots : list (Z * Q)) :
  (minval ≤ length knots)%nat →
  build_term_structure minval (knots.*1) (Fin <$> knots.*2)
  = let kq := sorted by_dayQ knots in
    tspline (kq.*1) (Fin <$> kq.*2) {| ix := kq.*1; iy := Fin <$> kq.*2 |}.
Proof.
  intros Hlen. unfold build_term_structure.
  rewrite length_fmap, !length_fmap, Nat.ltb_irrefl.
  rewrite zip_fin_knots.
  rewrite (sorted_fmap fin_knot by_dayQ by_day) by done.
  rewrite fin_knots_fst, fin_knots_snd.
  unfold interp1d.
  rewrite !length_fmap, Nat.eqb_refl. simpl negb. cbv iota.
  rewrite sorted_length.
  destruct (Nat.ltb_spec (length knots) minval) as [|_]; [lia|].
  rewrite zip_fin_knots.
  rewrite (sorted_fmap fin_knot by_dayQ by_day) by done.
  rewrite sorted_idemp by apply by_dayQ_total.
  by rewrite fin_knots_fst, fin_knots_snd.
Qed.

Lemma lookup_knot (l : list (Z * Q)) (i : nat) (k : Z * Q) :
  l !! i = Some k →
  l.*1 !! i = Some k.1 ∧ (Fin <$> l.*2) !! i = Some (Fin k.2).
Proof.
  intros H. rewrite !list_lookup_fmap, H. done.
Qed.

End TermStructure.

Section TermStructureContract.

Import OptionsAnalyzer.

Lemma sorted_days_strict (knots : list (Z * pyfloat)) :
  NoDup (knots.*1) → StronglySorted before_day (sorted by_day knots).
Proof.
  intros Hnd.
  assert (Hs : StronglySorted (le_of by_day) (sorted by_day knots)).
  { apply Sorted_StronglySorted; [|apply sorted_Sorted, by_day_total].
    intros a b c. unfold le_of, by_day. lia. }
  assert (Hnd' : NoDup ((sorted by_day knots).*1)).
  { by rewrite (sorted_Permutation by_day knots). }
  induction Hs as [|x l Hs IH Hall]; [constructor|].
  simpl in Hnd'. apply NoDup_cons in Hnd' as [Hx Hl].
  constructor; [by apply IH|].
  rewrite Forall_forall in Hall |- *. intros y Hy.
  specialize (Hall y Hy). unfold le_of, by_day in Hall. unfold before_day.
  assert (x.1 ≠ y.1); [|lia].
  intros Heq. apply Hx. rewrite Heq. by apply list_elem_of_fmap_2.
Qed.

Lemma before_day_lookup (l : list (Z * pyfloat)) (i j : nat)
  (a b : Z * pyfloat) :
  StronglySorted before_day l → l !! i = Some a → l !! j = Some b →
  (i < j)%nat → a.1 < b.1.
Proof.
  intros Hs. revert i j. induction Hs as [|x l Hs IH Hall]; intros i j Hi Hj Hij.
  - by rewrite lookup_nil in Hi.
  - destruct j as [|j]; [lia|]. destruct i as [|i]; simpl in *.
    + injection Hi as ->. rewrite Forall_forall in Hall.
      apply Hall. by eapply list_elem_of_lookup_2.
    + eapply IH; eauto. lia.
Qed.

Lemma before_day_index (l : list (Z * pyfloat)) (i j : nat)
  (a b : Z * pyfloat) :
  StronglySorted before_day l → l !! i = Some a → l !! j = Some b →
  a.1 < b.1 → (i < j)%nat.
Proof.
  intros Hs Hi Hj Hab.
  destruct (lt_eq_lt_dec i j) as [[?| ->]|Hgt]; [done| |].
  - rewrite Hi in Hj. injection Hj as ->. lia.
  - pose proof (before_day_lookup l j i b a Hs Hj Hi Hgt). lia.
Qed.

Lemma searchsorted_at (l : list (Z * pyfloat)) (j : nat) (k : Z * pyfloat) :
  StronglySorted before_day l → l !! j = Some k →
  searchsorted (l.*1) k.1 = j.
Proof.
  intros Hs. revert j. induction Hs as [|x l Hs IH Hall]; intros j Hj.
  - by rewrite lookup_nil in Hj.
  - simpl. destruct j as [|j]; simpl in Hj.
    + injection Hj as ->. by rewrite Z.ltb_irrefl.
    + rewrite Forall_forall in Hall.
      assert (Hlt : x.1 < k.1) by (apply Hall; by eapply list_elem_of_lookup_2).
      apply Z.ltb_lt in Hlt. rewrite Hlt. f_equal. by apply IH.
Qed.

(** On knots that scipy accepts the construction succeeds, and the
    closure works on the knots sorted by day. *)
Lemma build_term_structure_sorted (minval : nat) (knots : list (Z * pyfloat)) :
  (minval ≤ length knots)%nat →
  build_term_structure minval (knots.*1) (knots.*2)
  = let k := sorted by_day knots in
    tspline (k.*1) (k.*2) {| ix := k.*1; iy := k.*2 |}.
Proof.
  intros Hlen. unfold build_term_structure.
  rewrite !length_fmap, Nat.ltb_irrefl, zip_fst_snd.
  unfold interp1d.
  rewrite !length_fmap, Nat.eqb_refl. cbn [negb]. rewrite sorted_length.
  destruct (Nat.ltb_spec (length knots) minval) as [|_]; [lia|].
  rewrite zip_fst_snd, sorted_idemp by apply by_day_total. done.
Qed.

(** The first and the last knot in the order of the days. *)
Lemma sorted_days_ends (knots : list (Z * pyfloat)) :
  knots ≠ [] → NoDup (knots.*1) →
  ∃ k0 k1, head (sorted by_day knots) = Some k0
           ∧ last (sorted by_day knots) = Some k1
           ∧ k0 ∈ knots ∧ k1 ∈ knots
           ∧ (∀ k, k ∈ knots → k0.1 ≤ k.1 ≤ k1.1).
Proof.
  intros Hne Hnd.
  pose proof (sorted_days_strict knots Hnd) as Hs.
  pose proof (sorted_Permutation by_day knots) as Hperm.
  set (kq := sorted by_day knots) in *.
  assert (Hlen : (0 < length kq)%nat).
  { rewrite Hperm. destruct knots; [done|simpl; lia]. }
  destruct (lookup_lt_is_Some_2 kq 0 Hlen) as [k0 Hk0].
  destruct (lookup_lt_is_Some_2 kq (Nat.pred (length kq))) as [k1 Hk1]; [lia|].
  exists k0, k1. rewrite head_lookup, last_lookup.
  split; [done|]. split; [done|].
  split; [rewrite <- Hperm; by eapply list_elem_of_lookup_2|].
  split; [rewrite <- Hperm; by eapply list_elem_of_lookup_2|].
  intros k Hk. rewrite <- Hperm in Hk.
  apply list_elem_of_lookup in Hk as [i Hi].
  pose proof (lookup_lt_Some _ _ _ Hi) as Hlt. split.
  - destruct i as [|i]; [rewrite Hk0 in Hi; injection Hi as ->; lia|].
    pose proof (before_day_lookup kq 0 (S i) k0 k Hs Hk0 Hi). lia.
  - destruct (decide (i = Nat.pred (length kq))) as [->|Hn].
    + rewrite Hk1 in Hi. injection Hi as ->. lia.
    + pose proof (before_day_lookup kq i _ k k1 Hs Hi Hk1). lia.
Qed.

Lemma same_day_same_knot (knots : list (Z * pyfloat)) (a b : Z * pyfloat) :
  NoDup (knots.*1) → a ∈ knots → b ∈ knots → a.1 = b.1 → a = b.
Proof.
  intros Hnd Ha Hb Heq.
  apply list_elem_of_lookup in Ha as [i Hi].
  apply list_elem_of_lookup in Hb as [j Hj].
  assert (i = j) as ->.
  { eapply NoDup_lookup; [exact Hnd| |];
      rewrite list_lookup_fmap; [rewrite Hi|rewrite Hj]; simpl; [done|].
    by rewrite Heq. }
  congruence.
Qed.

(** The value at the day of the knot of position [j], interpolated on
    the segment scipy picks: the one that ends at the knot, or, for the
    first knot, the one that starts there.  The other end of the segment
    is the knot [nb]. *)
Lemma at_knot (kq : list (Z * pyfloat)) (j : nat) (d : Z) (q : Q)
  (nb : Z * pyfloat) (q' : Q) :
  StronglySorted before_day kq →
  kq !! j = Some (d, Fin q) →
  kq !! (match j with O => 1 | S i => i end)%nat = Some nb →
  nb.2 = Fin q' →
  ∃ r, call_linear {| ix := kq.*1; iy := kq.*2 |} d = Ok (Fin r) ∧ (r == q)%Q.
Proof.
  intros Hs Hj Hnb Hfin.
  pose proof (lookup_lt_Some _ _ _ Hj) as Hjlt.
  pose proof (lookup_lt_Some _ _ _ Hnb) as Hnlt.
  unfold call_linear. simpl ix. simpl iy. rewrite length_fmap.
  pose proof (searchsorted_at kq j (d, Fin q) Hs Hj) as Hss.
  simpl in Hss. rewrite Hss.
  set (hi := match j with O => 1%nat | S _ => j end).
  assert (Hhi : Z.min (Z.max (Z.of_nat j) 1) (Z.of_nat (length kq) - 1)
                = Z.of_nat hi).
  { subst hi. destruct j; lia. }
  rewrite Hhi.
  assert (Hlo : Z.of_nat hi - 1 = Z.of_nat (hi - 1)).
  { subst hi. destruct j; lia. }
  rewrite Hlo.
  assert (Hkh : ∃ kh, kq !! hi = Some kh).
  { apply lookup_lt_is_Some_2. subst hi. destruct j; lia. }
  destruct Hkh as [kh Hkh].
  destruct (lookup_lt_is_Some_2 kq (hi - 1)) as [kl Hkl];
    [subst hi; destruct j; lia|].
  assert (Hxl : kq.*1 !! (hi - 1)%nat = Some kl.1)
    by (by rewrite list_lookup_fmap, Hkl).
  assert (Hxh : kq.*1 !! hi = Some kh.1) by (by rewrite list_lookup_fmap, Hkh).
  assert (Hyl : kq.*2 !! (hi - 1)%nat = Some kl.2)
    by (by rewrite list_lookup_fmap, Hkl).
  assert (Hyh : kq.*2 !! hi = Some kh.2) by (by rewrite list_lookup_fmap, Hkh).
  rewrite (index_nth _ _ _ Hxl), (index_nth _ _ _ Hxh).
  rewrite (index_nth _ _ _ Hyl), (index_nth _ _ _ Hyh). cbn [exc_bind].
  assert (Hlt : kl.1 < kh.1).
  { apply (before_day_lookup kq (hi - 1) hi); auto.
    subst hi; destruct j; lia. }
  destruct j as [|j]; subst hi; cbv beta iota in Hkl, Hkh, Hnb, Hlt |- *.
  - change (1 - 1)%nat with 0%nat in *. rewrite Hj in Hkl. injection Hkl as <-.
    rewrite Hnb in Hkh. injection Hkh as <-. rewrite Hfin. cbn [fst snd].
    cbn [fst snd] in Hlt.
    destruct (interp_line q' q nb.1 d d Hlt) as (r & Hr & Hqlo & _).
    rewrite Hr. exists r. split; [done|]. by apply Hqlo.
  - rewrite Hj in Hkh. injection Hkh as <-.
    replace (S j - 1)%nat with j in * by lia.
    rewrite Hnb in Hkl. injection Hkl as <-. rewrite Hfin. cbn [fst snd].
    cbn [fst snd] in Hlt.
    destruct (interp_line q q' d nb.1 d Hlt) as (r & Hr & _ & Hqhi).
    rewrite Hr. exists r. split; [done|]. by apply Hqhi.
Qed.

(** The closure on sorted knots, at a day inside their range. *)
Lemma tspline_inside (kq : list (Z * pyfloat)) (k0 k1 : Z * pyfloat) (d : Z) :
  head kq = Some k0 → last kq = Some k1 → k0.1 ≤ d ≤ k1.1 →
  tspline (kq.*1) (kq.*2) {| ix := kq.*1; iy := kq.*2 |} d
  = call_linear {| ix := kq.*1; iy := kq.*2 |} d.
Proof.
  intros H0 H1 Hd. unfold tspline.
  rewrite head_lookup in H0.
  rewrite (index_nth (kq.*1) 0 k0.1) by (by rewrite list_lookup_fmap, H0).
  cbn [exc_bind]. destruct (Z.ltb_spec d k0.1); [lia|].
  unfold index at 1. rewrite py_nth_last, fmap_last, H1. cbn [exc_bind fmap option_fmap option_map].
  by destruct (Z.ltb_spec k1.1 d); [lia|].
Qed.

(** The ends of the sorted knots, whatever the days: the first has the
    smallest day and the last the largest. *)
Lemma sorted_days_ends_any (knots : list (Z * pyfloat)) :
  knots ≠ [] →
  ∃ k0 k1, head (sorted by_day knots) = Some k0
           ∧ last (sorted by_day knots) = Some k1
           ∧ k0 ∈ knots ∧ k1 ∈ knots
           ∧ (∀ k, k ∈ knots → k0.1 ≤ k.1 ≤ k1.1).
Proof.
  intros Hne.
  assert (Hs : StronglySorted (le_of by_day) (sorted by_day knots)).
  { apply Sorted_StronglySorted; [|apply sorted_Sorted, by_day_total].
    intros a b c. unfold le_of, by_day. lia. }
  pose proof (sorted_Permutation by_day knots) as Hperm.
  set (kq := sorted by_day knots) in *.
  assert (Hle : ∀ i j a b, kq !! i = Some a → kq !! j = Some b →
            (i ≤ j)%nat → a.1 ≤ b.1).
  { clear Hperm. induction Hs as [|x l Hs IH Hall]; intros i j a b Hi Hj Hij.
    - by rewrite lookup_nil in Hi.
    - destruct i as [|i], j as [|j]; simpl in *; try lia.
      + injection Hi as ->. injection Hj as ->. lia.
      + injection Hi as ->. rewrite Forall_forall in Hall.
        assert (Hb : le_of by_day a b).
        { apply Hall. by eapply list_elem_of_lookup_2. }
        unfold le_of, by_day in Hb. lia.
      + eapply IH; eauto. lia. }
  assert (Hlen : (0 < length kq)%nat).
  { rewrite Hperm. destruct knots; [done|simpl; lia]. }
  destruct (lookup_lt_is_Some_2 kq 0 Hlen) as [k0 Hk0].
  destruct (lookup_lt_is_Some_2 kq (Nat.pred (length kq))) as [k1 Hk1]; [lia|].
  exists k0, k1. rewrite head_lookup, last_lookup.
  split; [done|]. split; [done|].
  split; [rewrite <- Hperm; by eapply list_elem_of_lookup_2|].
  split; [rewrite <- Hperm; by eapply list_elem_of_lookup_2|].
  intros k Hk. rewrite <- Hperm in Hk.
  apply list_elem_of_lookup in Hk as [i Hi].
  pose proof (lookup_lt_Some _ _ _ Hi) as Hlt. split.
  - apply (Hle 0%nat i); [done..|lia].
  - apply (Hle i (Nat.pred (length kq))); [done..|lia].
Qed.

(** The clamps, whatever the days: below the smallest day the vol of the
    first sorted knot, above the largest day the vol of the last. *)
Lemma term_structure_clamps_any (minval : nat) (knots : list (Z * pyfloat)) :
  (minval ≤ length knots)%nat →
  let f := build_term_structure minval (knots.*1) (knots.*2) in
  (∀ d dte, d ∈ knots.*1 → (∀ k, k ∈ knots → d ≤ k.1) → dte < d →
     ∃ v, (d, v) ∈ knots ∧ f dte = Ok v)
  ∧ (∀ d dte, d ∈ knots.*1 → (∀ k, k ∈ knots → k.1 ≤ d) → d < dte →
       ∃ v, (d, v) ∈ knots ∧ f dte = Ok v).
Proof.
  intros Hmin f. unfold f.
  rewrite build_term_structure_sorted by exact Hmin. cbv zeta.
  set (kq := sorted by_day knots).
  assert (Hends : ∀ d, d ∈ knots.*1 →
            ∃ k0 k1 v, head kq = Some k0 ∧ last kq = Some k1
                     ∧ k0 ∈ knots ∧ k1 ∈ knots ∧ (d, v) ∈ knots
                     ∧ ∀ k', k' ∈ knots → k0.1 ≤ k'.1 ≤ k1.1).
  { intros d Hd. apply list_elem_of_fmap in Hd as ([d' v] & -> & Hin).
    destruct (sorted_days_ends_any knots) as (k0 & k1 & H);
      [intros ->; by apply elem_of_nil in Hin|].
    exists k0, k1, v. simpl. tauto. }
  split.
  - intros d dte Hd Hall Hlt.
    destruct (Hends d Hd) as (k0 & k1 & v & H0 & H1 & Hk0 & _ & Hin & Hrange).
    assert (Hd0 : k0.1 = d).
    { pose proof (Hall k0 Hk0). pose proof (Hrange _ Hin). simpl in *. lia. }
    exists k0.2. split; [by rewrite <- Hd0, <- surjective_pairing|].
    unfold tspline. rewrite head_lookup in H0.
    rewrite (index_nth (kq.*1) 0 k0.1) by (by rewrite list_lookup_fmap, H0).
    cbn [exc_bind]. destruct (Z.ltb_spec dte k0.1); [|lia].
    apply (index_nth _ 0). by rewrite list_lookup_fmap, H0.
  - intros d dte Hd Hall Hlt.
    destruct (Hends d Hd) as (k0 & k1 & v & H0 & H1 & Hk0 & Hk1 & Hin & Hrange).
    assert (Hd1 : k1.1 = d).
    { pose proof (Hall k1 Hk1). pose proof (Hrange _ Hin). simpl in *. lia. }
    exists k1.2. split; [by rewrite <- Hd1, <- surjective_pairing|].
    unfold tspline. rewrite head_lookup in H0.
    rewrite (index_nth (kq.*1) 0 k0.1) by (by rewrite list_lookup_fmap, H0).
    cbn [exc_bind]. pose proof (Hrange _ Hin). simpl in *.
    destruct (Z.ltb_spec dte k0.1); [lia|].
    unfold index at 1. rewrite py_nth_last, fmap_last, H1.
    cbn [exc_bind fmap option_fmap option_map fst].
    destruct (Z.ltb_spec k1.1 dte); [|lia].
    unfold index. by rewrite py_nth_last, fmap_last, H1.
Qed.

(** Knots with pairwise distinct days: the clamps return the vol of the
    knot of the smallest and of the largest day, and the query at the day
    of a knot with a finite vol returns that vol when the knot at the
    other end of the segment has a finite vol as well. *)
Lemma term_structure_distinct_days (minval : nat) (knots : list (Z * pyfloat)) :
  (minval ≤ length knots)%nat → NoDup (knots.*1) →
  let f := build_term_structure minval (knots.*1) (knots.*2) in
  (∀ d v dte, (d, v) ∈ knots → (∀ k, k ∈ knots → d ≤ k.1) → dte < d →
     f dte = Ok v)
  ∧ (∀ d v dte, (d, v) ∈ knots → (∀ k, k ∈ knots → k.1 ≤ d) → d < dte →
       f dte = Ok v)
  ∧ (∀ d q nb q', next_knot knots nb (d, Fin q) → nb.2 = Fin q' →
       ∃ r, f d = Ok (Fin r) ∧ (r == q)%Q)
  ∧ (∀ d q nb q', next_knot knots (d, Fin q) nb →
       (∀ k, k ∈ knots → d ≤ k.1) → nb.2 = Fin q' →
       ∃ r, f d = Ok (Fin r) ∧ (r == q)%Q)
  ∧ ((2 ≤ length knots)%nat → (∀ k, k ∈ knots → ∃ q, k.2 = Fin q) →
     ∀ d q, (d, Fin q) ∈ knots → ∃ r, f d = Ok (Fin r) ∧ (r == q)%Q).
Proof.
  intros Hmin Hnd f. unfold f.
  rewrite build_term_structure_sorted by exact Hmin. cbv zeta.
  pose proof (sorted_days_strict knots Hnd) as Hs.
  pose proof (sorted_Permutation by_day knots) as Hperm.
  set (kq := sorted by_day knots) in *.
  assert (Hends : ∀ k, k ∈ knots →
            ∃ k0 k1, head kq = Some k0 ∧ last kq = Some k1
                     ∧ k0 ∈ knots ∧ k1 ∈ knots
                     ∧ ∀ k', k' ∈ knots → k0.1 ≤ k'.1 ≤ k1.1).
  { intros k Hk. apply sorted_days_ends; [|done]. intros ->.
    by apply elem_of_nil in Hk. }
  assert (Hknot : ∀ j d q nb q',
            kq !! j = Some (d, Fin q) →
            kq !! (match j with O => 1 | S i => i end)%nat = Some nb →
            nb.2 = Fin q' →
            ∃ r, tspline (kq.*1) (kq.*2) {| ix := kq.*1; iy := kq.*2 |} d
                 = Ok (Fin r) ∧ (r == q)%Q).
  { intros j d q nb q' Hj Hnb Hfin.
    assert (Hin : (d, Fin q) ∈ knots).
    { rewrite <- Hperm. by eapply list_elem_of_lookup_2. }
    destruct (Hends _ Hin) as (k0 & k1 & H0 & H1 & _ & _ & Hrange).
    rewrite (tspline_inside kq k0 k1 d H0 H1) by apply (Hrange _ Hin).
    by eapply at_knot. }
  split; [|split; [|split; [|split]]].
  - intros d v dte Hin Hall Hlt.
    destruct (Hends _ Hin) as (k0 & k1 & H0 & H1 & Hk0 & _ & Hrange).
    assert (k0 = (d, v)) as ->.
    { apply (same_day_same_knot knots); [done..|].
      pose proof (Hall k0 Hk0). pose proof (Hrange _ Hin). simpl in *. lia. }
    unfold tspline. rewrite head_lookup in H0.
    rewrite (index_nth (kq.*1) 0 d) by (by rewrite list_lookup_fmap, H0).
    cbn [exc_bind]. destruct (Z.ltb_spec dte d); [|lia].
    apply (index_nth _ 0). by rewrite list_lookup_fmap, H0.
  - intros d v dte Hin Hall Hlt.
    destruct (Hends _ Hin) as (k0 & k1 & H0 & H1 & Hk0 & Hk1 & Hrange).
    assert (k1 = (d, v)) as ->.
    { apply (same_day_same_knot knots); [done..|].
      pose proof (Hall k1 Hk1). pose proof (Hrange _ Hin). simpl in *. lia. }
    unfold tspline. rewrite head_lookup in H0.
    rewrite (index_nth (kq.*1) 0 k0.1) by (by rewrite list_lookup_fmap, H0).
    cbn [exc_bind]. pose proof (Hrange _ Hin). simpl in *.
    destruct (Z.ltb_spec dte k0.1); [lia|].
    unfold index at 1. rewrite py_nth_last, fmap_last, H1.
    cbn [exc_bind fmap option_fmap option_map fst].
    destruct (Z.ltb_spec d dte); [|lia].
    unfold index. by rewrite py_nth_last, fmap_last, H1.
  - intros d q nb q' (Hnb & Hk & Hlt & Hgap) Hfin.
    rewrite <- Hperm in Hnb, Hk.
    apply list_elem_of_lookup in Hnb as [i Hi].
    apply list_elem_of_lookup in Hk as [j Hj].
    pose proof (before_day_index kq i j _ _ Hs Hi Hj Hlt) as Hij.
    destruct j as [|j]; [lia|].
    assert (i = j) as ->.
    { destruct (decide (i = j)) as [|Hne]; [done|].
      destruct (lookup_lt_is_Some_2 kq j) as [c Hc].
      { pose proof (lookup_lt_Some _ _ _ Hj). lia. }
      pose proof (before_day_lookup kq i j nb c Hs Hi Hc).
      pose proof (before_day_lookup kq j (S j) c _ Hs Hc Hj).
      destruct (Hgap c); [|simpl in *; lia..].
      rewrite <- Hperm. by eapply list_elem_of_lookup_2. }
    by apply (Hknot (S j) d q nb q').
  - intros d q nb q' (Hk & Hnb & Hlt & Hgap) Hall Hfin.
    rewrite <- Hperm in Hnb, Hk.
    apply list_elem_of_lookup in Hnb as [i Hi].
    apply list_elem_of_lookup in Hk as [j Hj].
    pose proof (before_day_index kq j i _ _ Hs Hj Hi Hlt) as Hji.
    assert (j = 0%nat) as ->.
    { destruct j as [|j]; [done|].
      destruct (lookup_lt_is_Some_2 kq 0) as [c Hc].
      { pose proof (lookup_lt_Some _ _ _ Hj). lia. }
      pose proof (before_day_lookup kq 0 (S j) c _ Hs Hc Hj).
      assert (d ≤ c.1); [|simpl in *; lia].
      apply Hall. rewrite <- Hperm. by eapply list_elem_of_lookup_2. }
    assert (i = 1%nat) as ->.
    { destruct (decide (i = 1%nat)) as [|Hne]; [done|].
      destruct (lookup_lt_is_Some_2 kq 1) as [c Hc].
      { pose proof (lookup_lt_Some _ _ _ Hi). lia. }
      pose proof (before_day_lookup kq 0 1 _ c Hs Hj Hc).
      pose proof (before_day_lookup kq 1 i c nb Hs Hc Hi).
      destruct (Hgap c); [|simpl in *; lia..].
      rewrite <- Hperm. by eapply list_elem_of_lookup_2. }
    by apply (Hknot 0%nat d q nb q').
  - intros Hlen Hfin d q Hin. rewrite <- Hperm in Hin.
    apply list_elem_of_lookup in Hin as [j Hj].
    assert (Hlen' : (2 ≤ length kq)%nat) by (by rewrite Hperm).
    pose proof (lookup_lt_Some _ _ _ Hj) as Hjlt.
    destruct (lookup_lt_is_Some_2 kq (match j with O => 1 | S i => i end)%nat)
      as [nb Hnb]; [destruct j; lia|].
    destruct (Hfin nb) as [q' Hq'].
    { rewrite <- Hperm. by eapply list_elem_of_lookup_2. }
    by apply (Hknot j d q nb q').
Qed.

(** C4, as amended. For knots that scipy accepts, one knot included,
    and whatever their vols, the function returned by
    [build_term_structure] returns, for every query below the smallest
    day, the vol of a knot of that day, and for every query above the
    largest day the vol of a knot of that day: it never extrapolates.
    When the days are pairwise distinct that knot is the only one of its
    day; and at the day of a knot with a finite vol the function returns
    that vol, in exact arithmetic, when the knot at the other end of the
    segment that scipy interpolates on has a finite vol as well: the knot
    before it in the order of the days, or, for the first knot, the knot
    after it.  So it does for every knot when there are two knots or more
    and all vols are finite. *)
Theorem term_structure_contract (minval : nat) (knots : list (Z * pyfloat)) :
  (minval ≤ length knots)%nat →
  let f := build_term_structure minval (knots.*1) (knots.*2) in
  (∀ d dte, d ∈ knots.*1 → (∀ k, k ∈ knots → d ≤ k.1) → dte < d →
     ∃ v, (d, v) ∈ knots ∧ f dte = Ok v)
  ∧ (∀ d dte, d ∈ knots.*1 → (∀ k, k ∈ knots → k.1 ≤ d) → d < dte →
       ∃ v, (d, v) ∈ knots ∧ f dte = Ok v)
  ∧ (NoDup (knots.*1) →
     (∀ d v dte, (d, v) ∈ knots → (∀ k, k ∈ knots → d ≤ k.1) → dte < d →
        f dte = Ok v)
     ∧ (∀ d v dte, (d, v) ∈ knots → (∀ k, k ∈ knots → k.1 ≤ d) → d < dte →
          f dte = Ok v)
     ∧ (∀ d q nb q', next_knot knots nb (d, Fin q) → nb.2 = Fin q' →
          ∃ r, f d = Ok (Fin r) ∧ (r == q)%Q)
     ∧ (∀ d q nb q', next_knot knots (d, Fin q) nb →
          (∀ k, k ∈ knots → d ≤ k.1) → nb.2 = Fin q' →
          ∃ r, f d = Ok (Fin r) ∧ (r == q)%Q)
     ∧ ((2 ≤ length knots)%nat → (∀ k, k ∈ knots → ∃ q, k.2 = Fin q) →
        ∀ d q, (d, Fin q) ∈ knots → ∃ r, f d = Ok (Fin r) ∧ (r == q)%Q)).
Proof.
  intros Hmin f.
  destruct (term_structure_clamps_any minval knots Hmin) as [Hlo Hhi].
  split; [exact Hlo|]. split; [exact Hhi|].
  intros Hnd. exact (term_structure_distinct_days minval knots Hmin Hnd).
Qed.

(** Three knots, given out of order, of which the last in the order of
    the days has no vol: below 20 days the first vol, above 80 days the
    vol of the last knot, NaN as it is, and at 20 and at 50 days the vol
    of the knot. *)
Lemma term_structure_contract_witness :
  let f := build_term_structure 1 [50; 20; 80] [Fin 0.5; Fin 0.4; NaN] in
  f 10 = Ok (Fin 0.4)
  ∧ f 100 = Ok NaN
  ∧ (∃ r, f 50 = Ok (Fin r) ∧ (r == 0.5)%Q)
  ∧ (∃ r, f 20 = Ok (Fin r) ∧ (r == 0.4)%Q).
Proof.
  intros f.
  assert (H1 : (1 ≤ length [(50, Fin 0.5); (20, Fin 0.4); (80, NaN)])%nat)
    by (simpl; lia).
  assert (H2 : NoDup ([(50, Fin 0.5); (20, Fin 0.4); (80, NaN)].*1)).
  { simpl. repeat (apply NoDup_cons; split;
      [rewrite ?elem_of_cons, elem_of_nil; lia|]). apply NoDup_nil_2. }
  assert (Hin : ∀ k : Z * pyfloat,
            k ∈ [(50, Fin 0.5); (20, Fin 0.4); (80, NaN)] →
            k = (50, Fin 0.5) ∨ k = (20, Fin 0.4) ∨ k = (80, NaN)).
  { intros k Hk. rewrite !elem_of_cons, elem_of_nil in Hk. tauto. }
  assert (H20 : (20, Fin 0.4) ∈ [(50, Fin 0.5); (20, Fin 0.4); (80, NaN)]).
  { apply elem_of_cons; right. apply elem_of_cons; by left. }
  assert (H50 : (50, Fin 0.5) ∈ [(50, Fin 0.5); (20, Fin 0.4); (80, NaN)]).
  { apply elem_of_cons; by left. }
  assert (H80 : (80, NaN) ∈ [(50, Fin 0.5); (20, Fin 0.4); (80, NaN)]).
  { do 2 (apply elem_of_cons; right). apply elem_of_cons; by left. }
  assert (Hnext : next_knot [(50, Fin 0.5); (20, Fin 0.4); (80, NaN)]
                    (20, Fin 0.4) (50, Fin 0.5)).
  { split; [exact H20|]. split; [exact H50|]. split; [simpl; lia|].
    intros k Hk. destruct (Hin k Hk) as [->|[->| ->]]; simpl; lia. }
  destruct (term_structure_contract 1
              [(50, Fin 0.5); (20, Fin 0.4); (80, NaN)] H1)
    as (_ & _ & Hdistinct).
  destruct (Hdistinct H2) as (Hlo & Hhi & Hprev & Hfirst & _).
  split; [|split; [|split]].
  - apply (Hlo 20 (Fin 0.4) 10); [exact H20| |lia].
    intros k Hk. destruct (Hin k Hk) as [->|[->| ->]]; simpl; lia.
  - apply (Hhi 80 NaN 100); [exact H80| |lia].
    intros k Hk. destruct (Hin k Hk) as [->|[->| ->]]; simpl; lia.
  - apply (Hprev 50 0.5%Q (20, Fin 0.4) 0.4%Q); [exact Hnext|reflexivity].
  - apply (Hfirst 20 0.4%Q (50, Fin 0.5) 0.5%Q); [exact Hnext| |reflexivity].
    intros k Hk. destruct (Hin k Hk) as [->|[->| ->]]; simpl; lia.
Defined.

(** C4, counterexample. With the single knot (60 days, 0.4) the query at
    day 60 is NaN, though the queries below and above it return 0.4; in
    a scipy that asks for two knots every query of a single knot is NaN.
    Two knots on the same day, (30, 0.4) and (30, 0.5), give NaN at day
    30.  With the knots (10, 0.3) and (20, no vol) the query at day 10
    is NaN.  None returns the vol of the knot. *)
Lemma term_structure_knot_is_nan :
  build_term_structure 1 [60] [Fin 0.4] 60 = Ok NaN
  ∧ build_term_structure 1 [60] [Fin 0.4] 59 = Ok (Fin 0.4)
  ∧ build_term_structure 1 [60] [Fin 0.4] 61 = Ok (Fin 0.4)
  ∧ build_term_structure 2 [60] [Fin 0.4] 60 = Ok NaN
  ∧ build_term_structure 1 [30; 30] [Fin 0.4; Fin 0.5] 30 = Ok NaN
  ∧ build_term_structure 1 [10; 20] [Fin 0.3; NaN] 10 = Ok NaN.
Proof. repeat split; vm_compute; reflexivity. Qed.

End TermStructureContract.

(** ** The monad of effects *)

Lemma bind_Ok {A B : Type} (m : M A) (k : A → M B) (s s' : state) (b : B) :
  bind m k s = (Ok b, s') → ∃ a s1, m s = (Ok a, s1) ∧ k a s1 = (Ok b, s').
Proof. unfold bind. destruct (m s) as [[a|e] s1]; [eauto|discriminate]. Qed.

Lemma lift_Ok {A : Type} (x : exc A) (s s' : state) (a : A) :
  lift x s = (Ok a, s') → x = Ok a ∧ s' = s.
Proof. unfold lift. intros [= -> ->]. done. Qed.

(** One step of inversion of a run that returned a value. *)
Ltac step_body H :=
  match type of H with
  | (if ?b then _ else _) _ = _ => destruct b
  | bind _ _ _ = (Ok _, _) =>
      let a := fresh "a" in
      let s1 := fresh "s" in
      let Ha := fresh "Ha" in
      apply bind_Ok in H as (a & s1 & Ha & H)
  | (let '(_, _) := ?p in _) _ = _ => destruct p
  | ret _ _ = _ => unfold ret in H; injection H as H ?
  end.

(** ** OptionsAnalyzer.compute_recommendation: numerical edge cases *)

Section EdgeCases.

Import OptionsAnalyzer.

Lemma index_in_range {A : Type} (l : list A) (i : Z) :
  - Z.of_nat (length l) ≤ i < Z.of_nat (length l) → ∃ a, index l i = Ok a.
Proof.
  intros Hi. unfold index, py_nth.
  destruct (Z.ltb_spec i 0).
  - destruct (Z.leb_spec 0 (Z.of_nat (length l) + i)); [|lia].
    destruct (lookup_lt_is_Some_2 l (Z.to_nat (Z.of_nat (length l) + i)))
      as [a Ha]; [lia|].
    rewrite Ha. eauto.
  - destruct (lookup_lt_is_Some_2 l (Z.to_nat i)) as [a Ha]; [lia|].
    rewrite Ha. eauto.
Qed.

Lemma call_linear_total (f : interp) (x_new : Z) :
  ix f ≠ [] → length (iy f) = length (ix f) →
  ∃ v, call_linear f x_new = Ok v.
Proof.
  intros Hne Hlen. unfold call_linear.
  assert (Hn : 1 ≤ Z.of_nat (length (ix f))).
  { destruct (ix f); [done|]. simpl. lia. }
  set (hi := Z.min (Z.max (Z.of_nat (searchsorted (ix f) x_new)) 1)
                   (Z.of_nat (length (ix f)) - 1)).
  assert (Hhi : 0 ≤ hi < Z.of_nat (length (ix f))) by (subst hi; lia).
  destruct (index_in_range (ix f) (hi - 1)) as [x_lo ->]; [lia|].
  destruct (index_in_range (ix f) hi) as [x_hi ->]; [lia|].
  destruct (index_in_range (iy f) (hi - 1)) as [y_lo ->]; [lia|].
  destruct (index_in_range (iy f) hi) as [y_hi ->]; [lia|].
  simpl. eauto.
Qed.

(** The function that [build_term_structure] returns never raises when
    there is a day and a vol for every day. *)
Lemma build_term_structure_total (minval : nat) (ds : list Z)
  (vs : list pyfloat) (dte : Z) :
  ds ≠ [] → length ds = length vs →
  ∃ v, build_term_structure minval ds vs dte = Ok v.
Proof.
  intros Hne Hlen. unfold build_term_structure.
  rewrite Hlen, Nat.ltb_irrefl.
  set (k := sorted by_day (zip ds vs)).
  assert (Hk : length k = length ds).
  { subst k. rewrite sorted_length, length_zip. lia. }
  assert (Hpos : (0 < length ds)%nat) by (destruct ds; [done|simpl; lia]).
  destruct (interp1d minval (k.*1) (k.*2)) as [f|e] eqn:Hf; [|eauto].
  unfold interp1d in Hf.
  destruct (negb _); [discriminate|].
  destruct (_ <? _)%nat; [discriminate|]. injection Hf as <-.
  unfold tspline.
  destruct (index_in_range (k.*1) 0) as [d0 ->];
    [rewrite length_fmap; lia|]. simpl.
  destruct (dte <? d0).
  { apply index_in_range. rewrite length_fmap. lia. }
  destruct (index_in_range (k.*1) (-1)) as [d1 ->];
    [rewrite length_fmap; lia|]. simpl.
  destruct (d1 <? dte).
  { apply index_in_range. rewrite length_fmap. lia. }
  apply call_linear_total; simpl.
  - intros Hnil. apply (f_equal length) in Hnil.
    rewrite length_fmap, sorted_length, length_zip, !length_fmap in Hnil.
    simpl in Hnil. lia.
  - by rewrite !length_fmap.
Qed.

Lemma days_and_vols_length (mk : market) (ivs : list (string * pyfloat))
  (ds : list Z) (vs : list pyfloat) :
  days_and_vols mk ivs = Ok (ds, vs) → length ds = length vs.
Proof.
  revert ds vs. induction ivs as [|[exp iv] ivs IH]; intros ds vs; simpl.
  - intros [= <- <-]. done.
  - destruct (strptime mk exp); [|discriminate].
    destruct (days_and_vols mk ivs) as [[ds' vs']|]; [|discriminate].
    simpl. intros [= <- <-]. simpl. f_equal. by apply IH.
Qed.

Lemma iv_rv_ratio_zero (iv30 hv : pyfloat) :
  feqb hv (Fin 0) = true → iv_rv_ratio iv30 hv = Fin 9999.
Proof. intros Hhv. unfold iv_rv_ratio. by rewrite Hhv. Qed.

Lemma iv_rv_ratio_nonzero (iv30 hv : pyfloat) :
  feqb hv (Fin 0) = false → iv_rv_ratio iv30 hv = fdiv iv30 hv.
Proof. intros Hhv. unfold iv_rv_ratio. by rewrite Hhv. Qed.

Lemma term_metrics_total (minval : nat) (ds : list Z) (vs : list pyfloat) :
  ds ≠ [] → length ds = length vs →
  ∃ iv30 slope,
    term_metrics (build_term_structure minval ds vs) ds = Ok (iv30, slope)
    ∧ (list_min ds = Some 45 → slope = Fin 0).
Proof.
  intros Hne Hlen. unfold term_metrics.
  destruct (build_term_structure_total minval ds vs 30 Hne Hlen) as [iv30 ->].
  simpl. destruct ds as [|d ds']; [done|]. simpl list_min. cbv beta iota.
  set (d0 := foldl Z.min d ds').
  destruct (Z.eqb_spec d0 45) as [->|Hd0].
  - eauto.
  - destruct (build_term_structure_total minval (d :: ds') vs 45 Hne Hlen)
      as [s45 ->].
    destruct (build_term_structure_total minval (d :: ds') vs d0 Hne Hlen)
      as [sd0 ->].
    simpl. do 2 eexists. split; [done|]. intros [= H]. done.
Qed.

Lemma foldl_min_spec (d : Z) (ds : list Z) :
  foldl Z.min d ds ∈ d :: ds ∧ ∀ x, x ∈ d :: ds → foldl Z.min d ds ≤ x.
Proof.
  revert d. induction ds as [|e ds IH]; intros d; simpl.
  - split; [apply elem_of_cons; by left|].
    intros x Hx. apply list_elem_of_singleton in Hx as ->. lia.
  - destruct (IH (Z.min d e)) as [Hin Hle]. split.
    + apply elem_of_cons in Hin as [Heq|Hin].
      * rewrite Heq. destruct (Z.min_spec d e) as [[_ ->]|[_ ->]].
        -- apply elem_of_cons; by left.
        -- apply elem_of_cons; right. apply elem_of_cons; by left.
      * apply elem_of_cons; right. apply elem_of_cons; by right.
    + intros x Hx.
      assert (Hm : foldl Z.min (Z.min d e) ds ≤ Z.min d e).
      { apply Hle. apply elem_of_cons; by left. }
      apply elem_of_cons in Hx as [->|Hx]; [lia|].
      apply elem_of_cons in Hx as [->|Hx]; [lia|].
      apply Hle. apply elem_of_cons; by right.
Qed.

(** [min(ds)] is the least entry of [ds]. *)
Lemma list_min_spec (ds : list Z) (m : Z) :
  list_min ds = Some m ↔ m ∈ ds ∧ ∀ x, x ∈ ds → m ≤ x.
Proof.
  destruct ds as [|d ds]; simpl.
  - split; [discriminate|]. intros [H _]. by apply elem_of_nil in H.
  - destruct (foldl_min_spec d ds) as [Hin Hle]. split.
    + intros [= <-]. done.
    + intros [Hm Hmle]. f_equal.
      specialize (Hle m Hm). specialize (Hmle _ Hin). lia.
Qed.

(** The days are those of the keys of [atm_ivs], counted from today, and
    the vols are its values, in its order. *)
Lemma days_and_vols_spec (mk : market) (ivs : list (string * pyfloat))
  (ds : list Z) (vs : list pyfloat) :
  days_and_vols mk ivs = Ok (ds, vs) →
  Forall2 (λ e dd, strptime mk e = Some (today mk + dd)) (ivs.*1) ds
  ∧ vs = ivs.*2.
Proof.
  revert ds vs. induction ivs as [|[exp iv] ivs IH]; intros ds vs; simpl.
  - intros [= <- <-]. split; [constructor|done].
  - destruct (strptime mk exp) as [z|] eqn:Hz; [|discriminate].
    destruct (days_and_vols mk ivs) as [[ds' vs']|]; [|discriminate].
    simpl. intros [= <- <-]. destruct (IH ds' vs' eq_refl) as [H1 H2].
    split; [|by rewrite H2]. constructor; [|done].
    rewrite Hz. f_equal. lia.
Qed.

Lemma dict_set_keys {V : Type} (k : string) (v : V) (d : list (string * V))
  (x : string) :
  x ∈ (dict_set k v d).*1 → x = k ∨ x ∈ d.*1.
Proof.
  induction d as [|[k' v'] d IH]; simpl.
  - intros H. apply list_elem_of_singleton in H. by left.
  - destruct (String.eqb k k'); simpl; intros H.
    + apply elem_of_cons in H as [->|H]; [by left|].
      right. apply elem_of_cons; by right.
    + apply elem_of_cons in H as [->|H].
      * right. apply elem_of_cons; by left.
      * destruct (IH H) as [->|Hd]; [by left|].
        right. apply elem_of_cons; by right.
Qed.

(** A chain is fetched for listed expiries only. *)
Lemma fetch_chains_keys (mk : market) (S : string) (exps : list string)
  (oc oc' : list (string * chain)) (s s' : state) (e : string) :
  fetch_chains mk S exps oc s = (Ok oc', s') →
  e ∈ oc'.*1 → e ∈ exps ∨ e ∈ oc.*1.
Proof.
  revert oc s. induction exps as [|x exps IH]; intros oc s; simpl.
  - unfold ret. intros [= <- <-]. by right.
  - intros H He. apply bind_Ok in H as (c & s1 & _ & H).
    destruct (IH _ _ H He) as [Hin|Hin].
    + left. apply elem_of_cons; by right.
    + apply dict_set_keys in Hin as [->|Hin]; [|by right].
      left. apply elem_of_cons; by left.
Qed.

Lemma atm_step_keys (up : option pyfloat) (st st' : atm_state)
  (ec : string * chain) (e : string) :
  atm_step up st ec = Ok st' →
  e ∈ (atm_ivs st').*1 → e = ec.1 ∨ e ∈ (atm_ivs st).*1.
Proof.
  destruct ec as [x ch]. unfold atm_step.
  destruct (_ || _); [intros [= <-]; by right|].
  destruct (atm_row up (calls ch)) as [c|]; [|discriminate].
  destruct (atm_row up (puts ch)) as [p|]; [|discriminate].
  simpl. destruct (atm_i st =? 0)%nat; intros [= <-]; simpl;
    apply dict_set_keys.
Qed.

(** An ATM vol is recorded for fetched chains only. *)
Lemma atm_loop_keys (up : option pyfloat) (st st' : atm_state)
  (oc : list (string * chain)) (e : string) :
  atm_loop up st oc = Ok st' →
  e ∈ (atm_ivs st').*1 → e ∈ oc.*1 ∨ e ∈ (atm_ivs st).*1.
Proof.
  revert st. induction oc as [|ec oc IH]; intros st; simpl.
  - intros [= <-]. by right.
  - destruct (atm_step up st ec) as [st1|] eqn:Hstep; [|discriminate].
    simpl. intros H He. destruct (IH _ H He) as [Hin|Hin].
    + left. apply elem_of_cons; by right.
    + destruct (atm_step_keys _ _ _ _ _ Hstep Hin) as [->|Hin'];
        [|by right].
      left. apply elem_of_cons; by left.
Qed.

(** The data dict of lines 445-458, from the values of the steps. *)
Lemma attempt_body_steps (mk : market) (symbol : string) (s : state)
  (opts exps : list string) (oc : list (string * chain)) (s1 : state)
  (up : option pyfloat) (s2 : state) (hist1 : history) (st : atm_state)
  (ds : list Z) (vs : list pyfloat) (h3 : history) (avgv : pyfloat)
  (mc : pyval) (exmo : string) :
  upper (strip symbol) ≠ "" →
  attempt_steps mk (upper (strip symbol)) s opts exps oc s1 up s2 hist1 st
    ds vs h3 avgv mc exmo →
  ∃ iv30 slope s',
    term_metrics (build_term_structure (interp1d_min_entries mk) ds vs) ds
    = Ok (iv30, slope)
    ∧ attempt_body mk symbol s
      = (Ok (OdData {|
           od_avg_volume := fgeb avgv (Fin 1500000);
           od_avg_volume_value := avgv;
           od_iv30_rv30 := iv_rv_ratio iv30 (yang_zhang_volatility mk h3);
           od_term_slope := slope;
           od_term_structure := iv30;
           od_expected_move := exmo;
           od_underlying_price := up;
           od_historical_volatility := yang_zhang_volatility mk h3;
           od_current_iv := fi_iv st;
           od_atr14 := atr14 h3;
           od_market_cap := mc;
           od_volume := match last hist1 with
                        | Some b => Volume b
                        | None => Fin 0
                        end |}), s').
Proof.
  intros HS (Hopts & Hne & Hexps & Hoc & Hup & Hh1 & Hst & Hivs & Hdv & Hh3
             & Havg & Hmc & Hex).
  assert (Hlen : length ds = length vs) by (by eapply days_and_vols_length).
  assert (Hds : ds ≠ []).
  { intros ->. destruct (atm_ivs st) as [|[e iv] ivs]; [done|].
    simpl in Hdv. destruct (strptime mk e); [|discriminate].
    destruct (days_and_vols mk ivs) as [[? ?]|]; discriminate. }
  destruct (term_metrics_total (interp1d_min_entries mk) ds vs Hds Hlen)
    as (iv30 & slope & Htm & _).
  exists iv30, slope. eexists. split; [exact Htm|].
  unfold attempt_body. rewrite bool_decide_eq_false_2 by done.
  unfold bind at 1, fetch at 1. rewrite Hopts.
  rewrite bool_decide_eq_false_2 by done.
  unfold bind at 1, lift at 1. rewrite Hexps.
  unfold bind at 1. rewrite Hoc.
  unfold bind at 1. rewrite Hup.
  unfold bind at 1, fetch at 1. rewrite Hh1.
  unfold bind at 1, lift at 1. fold atm_init. rewrite Hst.
  rewrite bool_decide_eq_false_2 by done.
  unfold bind at 1, lift at 1. rewrite Hdv.
  unfold bind at 1, lift at 1. rewrite Htm.
  unfold bind at 1, fetch at 1. simpl log. rewrite Hh3.
  unfold bind at 1, lift at 1. rewrite Havg.
  unfold bind at 1, fetch at 1. simpl log. rewrite Hmc.
  unfold bind at 1, lift at 1. rewrite Hex.
  unfold ret. reflexivity.
Qed.

Lemma fetch_Ok {A : Type} (r : request) (answer : list event → exc A)
  (s s' : state) (a : A) :
  fetch r answer s = (Ok a, s') → answer (log s) = Ok a ∧ s' = add_event (Fetched r) s.
Proof. unfold fetch. intros [= -> <-]. done. Qed.

(** Every attempt that returns the data dict went through the steps. *)
Lemma attempt_body_inv (mk : market) (symbol : string) (s s' : state)
  (d : rec_data) :
  attempt_body mk symbol s = (Ok (OdData d), s') →
  upper (strip symbol) ≠ ""
  ∧ ∃ opts exps oc s1 up s2 hist1 st ds vs h3 avgv mc exmo,
      attempt_steps mk (upper (strip symbol)) s opts exps oc s1 up s2 hist1
        st ds vs h3 avgv mc exmo
      ∧ od_historical_volatility d = yang_zhang_volatility mk h3
      ∧ od_iv30_rv30 d
        = iv_rv_ratio (od_term_structure d) (od_historical_volatility d)
      ∧ term_metrics (build_term_structure (interp1d_min_entries mk) ds vs) ds
        = Ok (od_term_structure d, od_term_slope d).
Proof.
  unfold attempt_body. intros H.
  destruct (bool_decide_reflect (upper (strip symbol) = "")) as [|HS];
    [discriminate|].
  split; [done|].
  apply bind_Ok in H as (opts & sa & Hopts & H).
  apply fetch_Ok in Hopts as [Hopts ->].
  destruct (bool_decide_reflect (opts = [])) as [|Hne]; [discriminate|].
  apply bind_Ok in H as (exps & sb & Hexps & H).
  apply lift_Ok in Hexps as [Hexps ->].
  apply bind_Ok in H as (oc & s1 & Hoc & H).
  apply bind_Ok in H as (up & s2 & Hup & H).
  apply bind_Ok in H as (hist1 & sc & Hh1 & H).
  apply fetch_Ok in Hh1 as [Hh1 ->].
  apply bind_Ok in H as (st & sd & Hst & H).
  apply lift_Ok in Hst as [Hst ->].
  destruct (bool_decide_reflect (atm_ivs st = [])) as [|Hivs]; [discriminate|].
  apply bind_Ok in H as ([ds vs] & se & Hdv & H).
  apply lift_Ok in Hdv as [Hdv ->].
  apply bind_Ok in H as ([iv30 slope] & sf & Htm & H).
  apply lift_Ok in Htm as [Htm ->].
  apply bind_Ok in H as (h3 & sg & Hh3 & H).
  apply fetch_Ok in Hh3 as [Hh3 ->].
  apply bind_Ok in H as (avgv & sh & Havg & H).
  apply lift_Ok in Havg as [Havg ->].
  apply bind_Ok in H as (mc & si & Hmc & H).
  apply fetch_Ok in Hmc as [Hmc ->].
  apply bind_Ok in H as (exmo & sj & Hex & H).
  apply lift_Ok in Hex as [Hex ->].
  unfold ret in H. injection H as <- <-.
  exists opts, exps, oc, s1, up, s2, hist1, st, ds, vs, h3, avgv, mc, exmo.
  simpl. split; [|done].
  repeat split; done.
Qed.

(** The data that [compute_recommendation] returns is the data of the
    attempt that returned. *)
Lemma compute_loop_attempt (mk : market) (symbol : string)
  (attempts : list nat) (s s' : state) (d : rec_data) :
  compute_loop mk symbol attempts s = (Ok (Some (OdData d)), s') →
  ∃ s0, attempt_body mk symbol s0 = (Ok (OdData d), s').
Proof.
  revert s. induction attempts as [|attempt rest IH]; intros s; simpl.
  - discriminate.
  - unfold try_except, bind at 1.
    destruct (attempt_body mk symbol s) as [[r|e] s1] eqn:Hb.
    + unfold ret. intros [= -> ->]. eauto.
    + destruct (attempt <? 2)%nat.
      * unfold bind, rotate_session. apply IH.
      * discriminate.
Qed.

(** C5. In [compute_recommendation], a realized volatility equal to zero
    gives the ratio 9999, a value and no division error, and an earliest
    expiry exactly 45 days out gives the slope 0.  First, forwards: when
    the steps of the first attempt go through (the symbol has options,
    the chains, the price and the histories are fetched, an ATM vol is
    found), the call returns the data dict, whose realized volatility is
    that of the three-month history; if it is zero the ratio is 9999, else
    the ratio is IV30 divided by it; and if the least of the days [ds] is
    45 the slope is 0.  Second, what [ds] is: the expiries with an ATM vol
    are among those [filter_dates] kept, [ds] holds their distances from
    today in days, and its least entry is 45 exactly when 45 is in it and
    no entry is smaller.  Third, backwards: every data dict that
    [compute_recommendation] returns, from whichever attempt, comes from
    an attempt whose steps went through, and has the same three
    properties. *)
Theorem zero_volatility_and_45_day_expiry :
  (∀ mk symbol s opts exps oc s1 up s2 hist1 st ds vs h3 avgv mc exmo,
     upper (strip symbol) ≠ "" →
     attempt_steps mk (upper (strip symbol)) s opts exps oc s1 up s2 hist1
       st ds vs h3 avgv mc exmo →
     ∃ d s',
       compute_recommendation mk symbol s = (Ok (Some (OdData d)), s')
       ∧ od_historical_volatility d = yang_zhang_volatility mk h3
       ∧ (feqb (yang_zhang_volatility mk h3) (Fin 0) = true →
          od_iv30_rv30 d = Fin 9999)
       ∧ (feqb (yang_zhang_volatility mk h3) (Fin 0) = false →
          od_iv30_rv30 d
          = fdiv (od_term_structure d) (yang_zhang_volatility mk h3))
       ∧ (list_min ds = Some 45 → od_term_slope d = Fin 0))
  ∧ (∀ mk S s opts exps oc s1 up s2 hist1 st ds vs h3 avgv mc exmo,
       attempt_steps mk S s opts exps oc s1 up s2 hist1 st ds vs h3 avgv mc
         exmo →
       (∀ e, e ∈ (atm_ivs st).*1 → e ∈ exps)
       ∧ Forall2 (λ e dd, strptime mk e = Some (today mk + dd))
           ((atm_ivs st).*1) ds
       ∧ (list_min ds = Some 45 ↔ 45 ∈ ds ∧ ∀ dd, dd ∈ ds → 45 ≤ dd))
  ∧ (∀ mk symbol s s' d,
       compute_recommendation mk symbol s = (Ok (Some (OdData d)), s') →
       ∃ s0 opts exps oc s1 up s2 hist1 st ds vs h3 avgv mc exmo,
         attempt_steps mk (upper (strip symbol)) s0 opts exps oc s1 up s2
           hist1 st ds vs h3 avgv mc exmo
         ∧ od_historical_volatility d = yang_zhang_volatility mk h3
         ∧ (feqb (yang_zhang_volatility mk h3) (Fin 0) = true →
            od_iv30_rv30 d = Fin 9999)
         ∧ (feqb (yang_zhang_volatility mk h3) (Fin 0) = false →
            od_iv30_rv30 d
            = fdiv (od_term_structure d) (yang_zhang_volatility mk h3))
         ∧ (list_min ds = Some 45 → od_term_slope d = Fin 0)).
Proof.
  split; [|split].
  - intros mk symbol s opts exps oc s1 up s2 hist1 st ds vs h3 avgv mc exmo
      HS Hsteps.
    destruct (attempt_body_steps _ _ _ _ _ _ _ _ _ _ _ _ _ _ _ _ _ HS Hsteps)
      as (iv30 & slope & s' & Htm & Hbody).
    eexists _, s'. split.
    { unfold compute_recommendation, compute_loop, try_except, bind at 1.
      rewrite Hbody. unfold ret. reflexivity. }
    simpl. split; [done|].
    split; [apply iv_rv_ratio_zero|]. split; [apply iv_rv_ratio_nonzero|].
    intros Hmin.
    destruct Hsteps as (_ & _ & _ & _ & _ & _ & _ & Hivs & Hdv & _).
    assert (Hlen : length ds = length vs) by (by eapply days_and_vols_length).
    assert (Hds : ds ≠ []) by (intros ->; discriminate).
    destruct (term_metrics_total (interp1d_min_entries mk) ds vs Hds Hlen)
      as (iv30' & slope' & Htm' & Hslope).
    rewrite Htm in Htm'. injection Htm' as _ ->. by apply Hslope.
  - intros mk S s opts exps oc s1 up s2 hist1 st ds vs h3 avgv mc exmo
      (_ & _ & _ & Hoc & _ & _ & Hst & _ & Hdv & _).
    split; [|split].
    + intros e He.
      destruct (atm_loop_keys _ _ _ _ _ Hst He) as [Hin|Hin];
        [|by apply elem_of_nil in Hin].
      destruct (fetch_chains_keys _ _ _ _ _ _ _ _ Hoc Hin) as [|Hnil];
        [done|by apply elem_of_nil in Hnil].
    + by apply days_and_vols_spec in Hdv as [Hd _].
    + apply list_min_spec.
  - intros mk symbol s s' d Hrun.
    apply compute_loop_attempt in Hrun as (s0 & Hbody).
    apply attempt_body_inv in Hbody
      as (HS & opts & exps & oc & s1 & up & s2 & hist1 & st & ds & vs & h3
          & avgv & mc & exmo & Hsteps & Hhv & Hratio & Htm).
    exists s0, opts, exps, oc, s1, up, s2, hist1, st, ds, vs, h3, avgv, mc,
      exmo.
    split; [done|]. split; [done|]. rewrite Hratio, Hhv.
    split; [apply iv_rv_ratio_zero|]. split; [apply iv_rv_ratio_nonzero|].
    intros Hmin.
    destruct Hsteps as (_ & _ & _ & _ & _ & _ & _ & Hivs & Hdv & _).
    assert (Hlen : length ds = length vs) by (by eapply days_and_vols_length).
    assert (Hds : ds ≠ []) by (intros ->; discriminate).
    destruct (term_metrics_total (interp1d_min_entries mk) ds vs Hds Hlen)
      as (iv30' & slope' & Htm' & Hslope).
    rewrite Htm in Htm'. injection Htm' as _ ->. by apply Hslope.
Qed.

Lemma zero_volatility_and_45_day_expiry_witness :
  ∃ d s',
    compute_recommendation Sample.sample_market " ccc " Sample.empty_state
    = (Ok (Some (OdData d)), s')
    ∧ od_historical_volatility d = Fin 0
    ∧ od_iv30_rv30 d = Fin 9999
    ∧ od_term_slope d = Fin 0.
Proof.
  edestruct (proj1 zero_volatility_and_45_day_expiry Sample.sample_market
               " ccc " Sample.empty_state)
    as (d & s' & Hrun & Hhv & Hzero & _ & Hslope).
  - vm_compute. discriminate.
  - unfold attempt_steps.
    repeat lazymatch goal with |- _ ∧ _ => split end;
      try (vm_compute; reflexivity); vm_compute; discriminate.
  - exists d, s'. split; [exact Hrun|].
    split; [rewrite Hhv; vm_compute; reflexivity|].
    split; [apply Hzero; vm_compute; reflexivity|].
    apply Hslope. vm_compute. reflexivity.
Defined.

(** A run that returns data: CCC has flat prices and one expiry, 45 days
    out; the ratio is 9999 and the slope is 0. *)
Example compute_recommendation_flat_prices :
  ∃ d, (compute_recommendation Sample.sample_market " ccc "
          Sample.empty_state).1 = Ok (Some (OdData d))
       ∧ od_historical_volatility d = Fin 0
       ∧ od_iv30_rv30 d = Fin 9999
       ∧ od_term_slope d = Fin 0.
Proof.
  eexists. split; [vm_compute; reflexivity|]. repeat split; reflexivity.
Qed.

End EdgeCases.

(** ** OptionsAnalyzer.compute_recommendation: the empty symbol *)

Section EmptySymbol.

Import OptionsAnalyzer.

Lemma is_space1_only (c1 c2 c3 : ascii) :
  is_space1 c1 = true → is_space2 c1 c2 = false ∧ is_space3 c1 c2 c3 = false.
Proof.
  unfold is_space1, is_space2, is_space3. cbv zeta.
  generalize (nat_of_ascii c1), (nat_of_ascii c2), (nat_of_ascii c3).
  intros n1 n2 n3 H.
  assert (Hn : (n1 ≤ 32)%nat).
  { apply orb_true_iff in H as [H|H]; [apply orb_true_iff in H as [H|H]|].
    - apply andb_true_iff in H as [_ H]. apply Nat.leb_le in H. lia.
    - apply andb_true_iff in H as [_ H]. apply Nat.leb_le in H. lia.
    - apply Nat.eqb_eq in H. lia. }
  destruct (Nat.eqb_spec n1 194); [lia|].
  destruct (Nat.eqb_spec n1 225); [lia|].
  destruct (Nat.eqb_spec n1 226); [lia|].
  destruct (Nat.eqb_spec n1 227); [lia|]. done.
Qed.

Lemma is_space2_only (c1 c2 c3 : ascii) :
  is_space2 c1 c2 = true → is_space3 c1 c2 c3 = false.
Proof.
  unfold is_space2, is_space3. cbv zeta.
  generalize (nat_of_ascii c1), (nat_of_ascii c2), (nat_of_ascii c3).
  intros n1 n2 n3 H. apply andb_true_iff in H as [H _].
  apply Nat.eqb_eq in H. subst n1. done.
Qed.

Lemma lstrip_all_space_bounded (n : nat) (s : string) :
  (String.length s ≤ n)%nat → all_space s = true → lstrip s = "".
Proof.
  revert s. induction n as [|n IH]; intros s Hlen.
  { destruct s; [done|simpl in Hlen; lia]. }
  destruct s as [|c1 s1]; [done|]. simpl in Hlen.
  cbn [all_space lstrip].
  destruct (is_space1 c1) eqn:H1.
  { intros Hs. apply IH; [lia|].
    destruct s1 as [|c2 s2]; [done|].
    destruct (is_space1_only c1 c2 c2 H1) as [H2 _]. rewrite H2 in Hs.
    destruct s2 as [|c3 s3].
    - by rewrite !orb_false_r in Hs.
    - destruct (is_space1_only c1 c2 c3 H1) as [_ H3]. rewrite H3 in Hs.
      by rewrite !orb_false_r in Hs. }
  cbn [andb orb]. destruct s1 as [|c2 s2]; [done|]. simpl in Hlen.
  destruct (is_space2 c1 c2) eqn:H2.
  { intros Hs. apply IH; [lia|].
    destruct s2 as [|c3 s3]; [done|].
    rewrite (is_space2_only c1 c2 c3 H2) in Hs.
    by rewrite !orb_false_r in Hs. }
  cbn [andb orb]. destruct s2 as [|c3 s3]; [done|]. simpl in Hlen.
  destruct (is_space3 c1 c2 c3); [|done].
  cbn [andb]. intros Hs. apply IH; [lia|done].
Qed.

Lemma lstrip_all_space (s : string) : all_space s = true → lstrip s = "".
Proof. by apply (lstrip_all_space_bounded (String.length s)). Qed.

Lemma strip_all_space (s : string) : all_space s = true → strip s = "".
Proof.
  intros H. unfold strip. rewrite (lstrip_all_space s H). reflexivity.
Qed.

(** C10. For a symbol that is empty or made of whitespace only,
    [compute_recommendation] returns the error value "No symbol provided."
    in its first attempt: the state is the one it started in, so nothing
    was fetched and the session was not rotated.  Whitespace is every
    character that [str.strip] removes, the ones outside ASCII
    included. *)
Theorem compute_recommendation_no_symbol (mk : market) (symbol : string)
  (s : state) :
  all_space symbol = true →
  compute_recommendation mk symbol s
  = (Ok (Some (OdError "No symbol provided.")), s).
Proof.
  intros Hsp. unfold compute_recommendation. simpl compute_loop.
  unfold try_except, bind at 1. unfold attempt_body.
  rewrite (strip_all_space symbol Hsp). reflexivity.
Qed.

(** A space, a tab, U+00A0 (no-break space), U+3000 (ideographic space)
    and U+2028 (line separator). *)
Lemma compute_recommendation_no_symbol_witness :
  let byte (n : nat) := ascii_of_nat n in
  let symbol :=
    String " " (String (byte 9%nat)
      (String (byte 194%nat) (String (byte 160%nat)
        (String (byte 227%nat) (String (byte 128%nat) (String (byte 128%nat)
          (String (byte 226%nat) (String (byte 128%nat) (String (byte 168%nat)
            ""))))))))) in
  compute_recommendation Sample.sample_market symbol Sample.empty_state
  = (Ok (Some (OdError "No symbol provided.")), Sample.empty_state).
Proof.
  intros byte symbol.
  exact (compute_recommendation_no_symbol Sample.sample_market symbol
           Sample.empty_state eq_refl).
Defined.

End EmptySymbol.

(** ** DataCache._get_cache_key *)

Section CacheKey.

Import DataCache.

Lemma String_leb_trans (a b c : string) :
  String.leb a b = true → String.leb b c = true → String.leb a c = true.
Proof.
  intros Hab Hbc. apply Is_true_true.
  apply Is_true_true in Hab, Hbc.
  change (String.le a c). by transitivity b.
Qed.

(** C7, as amended. For every date and every two symbol lists that are
    permutations of each other, the cache key is the same: it is the MD5
    digest of the date, an underscore, and the symbols sorted and joined
    by underscores.  The sorted list is in ascending order and keeps every
    occurrence of a symbol. *)
Theorem cache_key_permutation (date : string) (l1 l2 : list string) :
  l1 ≡ₚ l2 →
  _get_cache_key date l1 = _get_cache_key date l2
  ∧ _get_cache_key date l1
    = MD5.hexdigest (date +:+ "_" +:+ join "_" (sorted String.leb l1))
  ∧ Sorted (λ a b, String.leb a b = true) (sorted String.leb l1)
  ∧ sorted String.leb l1 ≡ₚ l1.
Proof.
  intros Hp. unfold _get_cache_key.
  rewrite (sorted_Permutation_eq String.leb String.leb_total String_leb_trans
             String.leb_antisym l1 l2 Hp).
  split; [done|]. split; [done|]. split.
  - rewrite <- (sorted_Permutation_eq String.leb String.leb_total
                  String_leb_trans String.leb_antisym l1 l2 Hp).
    apply sorted_Sorted, String.leb_total.
  - rewrite <- (sorted_Permutation_eq String.leb String.leb_total
                  String_leb_trans String.leb_antisym l1 l2 Hp).
    apply sorted_Permutation.
Qed.

Lemma cache_key_permutation_witness :
  _get_cache_key "2024-03-01" ["BBB"; "AAA"]
  = _get_cache_key "2024-03-01" ["AAA"; "BBB"].
Proof.
  exact (proj1 (cache_key_permutation "2024-03-01" ["BBB"; "AAA"]
                  ["AAA"; "BBB"] (perm_swap "AAA" "BBB" []))).
Defined.

(** C7, counterexample. The lists ["AAA"; "AAA"] and ["AAA"] hold the
    same set of symbols, and their keys for 2024-03-01 differ: the first
    is the digest of "2024-03-01_AAA_AAA", the second of
    "2024-03-01_AAA". *)
Lemma cache_key_counts_repeats :
  (∀ x : string, x ∈ ["AAA"; "AAA"] ↔ x ∈ ["AAA"])
  ∧ _get_cache_key "2024-03-01" ["AAA"; "AAA"]
    = "e403bcb00d5269cbe96f0343b8408baa"
  ∧ _get_cache_key "2024-03-01" ["AAA"]
    = "3e76468b88523d2a7a7f16f3e3c6fd96"
  ∧ _get_cache_key "2024-03-01" ["AAA"; "AAA"]
    ≠ _get_cache_key "2024-03-01" ["AAA"].
Proof.
  split; [intros x; rewrite !elem_of_cons; tauto|].
  split; [vm_compute; reflexivity|].
  split; [vm_compute; reflexivity|].
  vm_compute. discriminate.
Qed.

End CacheKey.

(** ** DataCache.get_data on a file it cannot read *)

Section UnreadableFile.

Import DataCache.

Lemma get_data_unreadable (now : Z) (fs : gmap string file) (date : string)
  (tickers : list string) :
  fs !! _get_cache_path (_get_cache_key date tickers) = Some Unreadable →
  get_data now fs date tickers = ((None, []), fs).
Proof. intros H. unfold get_data. by rewrite H. Qed.

Lemma clear_expired_unreadable (now : Z) (fs : gmap string file) (name : string) :
  is_pkl name = true → fs !! name = Some Unreadable →
  clear_expired now fs !! name = None.
Proof.
  intros Hp Hf. unfold clear_expired.
  apply map_lookup_filter_None. right. intros f Hf'.
  rewrite Hf in Hf'. injection Hf' as <-. unfold swept. simpl.
  rewrite Hp. done.
Qed.

(** C8, the code at a failing input. With an unreadable file under the
    key of (2024-03-01, AAA and BBB), [get_data] answers with a miss and
    leaves the directory as it was: the file is still there.  The sweep
    [clear_expired] does remove such a file. *)
Theorem get_data_keeps_unreadable_file :
  get_data 1709300000
    {[ "346eeb8479069095ab6b60c445353098.pkl" := Unreadable ]}
    "2024-03-01" ["AAA"; "BBB"]
  = ((None, []), {[ "346eeb8479069095ab6b60c445353098.pkl" := Unreadable ]})
  ∧ _get_cache_path (_get_cache_key "2024-03-01" ["AAA"; "BBB"])
    = "346eeb8479069095ab6b60c445353098.pkl"
  ∧ (get_data 1709300000
       {[ "346eeb8479069095ab6b60c445353098.pkl" := Unreadable ]}
       "2024-03-01" ["AAA"; "BBB"]).2
      !! "346eeb8479069095ab6b60c445353098.pkl" = Some Unreadable
  ∧ clear_expired 1709300000
      {[ "346eeb8479069095ab6b60c445353098.pkl" := Unreadable ]}
      !! "346eeb8479069095ab6b60c445353098.pkl" = None.
Proof.
  assert (Hpath : _get_cache_path (_get_cache_key "2024-03-01" ["AAA"; "BBB"])
                  = "346eeb8479069095ab6b60c445353098.pkl")
    by (vm_compute; reflexivity).
  assert (Hget : get_data 1709300000
    {[ "346eeb8479069095ab6b60c445353098.pkl" := Unreadable ]}
    "2024-03-01" ["AAA"; "BBB"]
    = ((None, []), {[ "346eeb8479069095ab6b60c445353098.pkl" := Unreadable ]})).
  { apply get_data_unreadable. rewrite Hpath. apply lookup_singleton_eq. }
  split; [exact Hget|]. split; [exact Hpath|]. split.
  - rewrite Hget. apply lookup_singleton_eq.
  - apply clear_expired_unreadable; [reflexivity|apply lookup_singleton_eq].
Qed.

End UnreadableFile.

(** ** DataCache.update_missing_data *)

Section Backfill.

Import DataCache.

Lemma kept_by_refl (e : dict) : kept_by e e.
Proof. by intros k v H _. Qed.

Lemma backfill_field_kept (entry : dict) (kv : string * pyval) :
  kept_by entry (backfill_field entry kv).
Proof.
  intros k v Hk Hv. unfold backfill_field.
  destruct (entry !! kv.1) as [old|] eqn:Hold; [|done].
  destruct (is_sentinel old) eqn:Hs; [|done].
  destruct (decide (kv.1 = k)) as [Heq|Hne].
  - rewrite Heq in Hold. congruence.
  - by rewrite lookup_insert_ne.
Qed.

Lemma foldl_backfill_kept (items : list (string * pyval)) (entry : dict) :
  kept_by entry (foldl backfill_field entry items).
Proof.
  revert entry. induction items as [|kv items IH]; intros entry; simpl.
  - apply kept_by_refl.
  - intros k v Hk Hv. apply IH; [|done]. by apply backfill_field_kept.
Qed.

Lemma backfill_entry_kept (new_data entry e' : dict) :
  backfill_entry new_data entry = Ok e' → kept_by entry e'.
Proof.
  unfold backfill_entry.
  destruct (entry !! "ticker"); [|discriminate].
  destruct (new_data !! "ticker"); [|discriminate].
  destruct (py_eq _ _); intros [= <-].
  - apply foldl_backfill_kept.
  - apply kept_by_refl.
Qed.

Lemma backfill_all_kept (new_data : dict) (data data' : list dict) :
  backfill_all new_data data = Ok data' → Forall2 kept_by data data'.
Proof.
  revert data'. induction data as [|e data IH]; intros data'; simpl.
  - intros [= <-]. constructor.
  - destruct (backfill_entry new_data e) as [e'|] eqn:He; [|discriminate].
    destruct (backfill_all new_data data) as [rest|]; [|discriminate].
    simpl. intros [= <-]. constructor; [by eapply backfill_entry_kept|].
    by apply IH.
Qed.

Lemma is_sentinel_iff (v : pyval) :
  is_sentinel v = true
  ↔ v = VStr "N/A" ∨ v = VNone ∨ v = VBool false
    ∨ ∃ x, v = VNum x ∧ feqb x (Fin 0) = true.
Proof.
  unfold is_sentinel. destruct v as [|b|x|s]; simpl.
  - split; auto.
  - destruct b; simpl; split.
    + discriminate.
    + intros [H|[H|[H|(x & H & _)]]]; discriminate.
    + auto.
    + done.
  - unfold py_eq. simpl. split.
    + intros H. right; right; right. eauto.
    + intros [H|[H|[H|(y & [= <-] & H)]]]; try discriminate. exact H.
  - rewrite !orb_false_r. split.
    + intros H%String.eqb_eq. left. by rewrite H.
    + intros [[= ->]|[H|[H|(x & H & _)]]]; try discriminate. reflexivity.
Qed.

(** C3. For every stored cache entry and every incoming update,
    [update_missing_data] leaves a readable entry in place, with as many
    records as before, and each record keeps every field whose stored
    value is not a missing-sentinel: 'N/A', None or 0.  The test is that
    of line 657; Python's [False] is the int 0 and counts as such, as it
    does in the degraded record, where it is the placeholder of
    [avg_volume]. *)
Theorem backfill_keeps_populated_fields (fs : gmap string file)
  (date : string) (tickers : list string) (new_data : dict) (c : cache) :
  fs !! _get_cache_path (_get_cache_key date tickers) = Some (Pickled c) →
  (∃ c', update_missing_data fs date tickers new_data
           !! _get_cache_path (_get_cache_key date tickers) = Some (Pickled c')
         ∧ Forall2 kept_by (c_data c) (c_data c'))
  ∧ (∀ v, is_sentinel v = true
          ↔ v = VStr "N/A" ∨ v = VNone ∨ v = VBool false
            ∨ ∃ x, v = VNum x ∧ feqb x (Fin 0) = true).
Proof.
  intros Hfs. split; [|apply is_sentinel_iff].
  unfold update_missing_data. rewrite Hfs.
  destruct (backfill_all new_data (c_data c)) as [data'|e] eqn:Hb; simpl.
  - destruct (_identify_missing_data data') as [md|e]; simpl.
    + eexists. rewrite lookup_insert_eq. split; [done|]. simpl.
      by apply (backfill_all_kept new_data).
    + exists c. split; [done|]. apply Forall2_same_length_lookup.
      split; [done|]. intros i x y Hx Hy. rewrite Hx in Hy.
      injection Hy as <-. apply kept_by_refl.
  - exists c. split; [done|]. apply Forall2_same_length_lookup.
    split; [done|]. intros i x y Hx Hy. rewrite Hx in Hy.
    injection Hy as <-. apply kept_by_refl.
Qed.

(** The stored vol 0.32 of AAA survives an update whose vol is None. *)
Lemma backfill_keeps_populated_fields_witness :
  read_field
    (update_missing_data Sample.stored_files "2024-03-01" ["AAA"]
       Sample.later_result)
    "3e76468b88523d2a7a7f16f3e3c6fd96.pkl" 0 "current_iv"
  = Some (VNum (Fin 0.32)).
Proof.
  assert (Hfs : Sample.stored_files
                  !! _get_cache_path (_get_cache_key "2024-03-01" ["AAA"])
                = Some (Pickled Sample.stored_cache))
    by (vm_compute; reflexivity).
  destruct (proj1 (backfill_keeps_populated_fields Sample.stored_files
                     "2024-03-01" ["AAA"] Sample.later_result
                     Sample.stored_cache Hfs)) as (c' & Hc' & HF).
  assert (Hp : _get_cache_path (_get_cache_key "2024-03-01" ["AAA"])
               = "3e76468b88523d2a7a7f16f3e3c6fd96.pkl")
    by (vm_compute; reflexivity).
  rewrite Hp in Hc'. unfold read_field. rewrite Hc'.
  destruct (Forall2_lookup_l _ _ _ 0%nat Sample.stored_entry HF eq_refl)
    as (e' & -> & Hkept).
  apply Hkept; reflexivity.
Defined.

(** [False] is Python's 0: the placeholder [avg_volume = False] of AAA is
    refilled by the update. *)
Lemma backfill_refills_false_flag :
  read_field Sample.stored_files
    "3e76468b88523d2a7a7f16f3e3c6fd96.pkl" 0 "avg_volume"
  = Some (VBool false)
  ∧ read_field
      (update_missing_data Sample.stored_files "2024-03-01" ["AAA"]
         Sample.later_result)
      "3e76468b88523d2a7a7f16f3e3c6fd96.pkl" 0 "avg_volume"
    = Some (VBool true).
Proof. split; vm_compute; reflexivity. Qed.

End Backfill.

(** ** EnhancedEarningsScanner: failed analyses *)

Section FailedAnalysis.

Import OptionsAnalyzer EarningsCalendarFetcher EnhancedEarningsScanner.

(** [compute_recommendation] never raises: the last attempt turns an
    exception into an error value. *)
Lemma compute_loop_returns (mk : market) (symbol : string) (attempts : list nat)
  (s : state) :
  ∃ r s', compute_loop mk symbol attempts s = (Ok r, s').
Proof.
  revert s. induction attempts as [|attempt rest IH]; intros s; simpl.
  - unfold ret. eauto.
  - unfold try_except, bind at 1.
    destruct (attempt_body mk symbol s) as [[r|e] s1].
    + unfold ret. eauto.
    + destruct (attempt <? 2)%nat.
      * unfold bind, rotate_session. apply IH.
      * unfold ret. eauto.
Qed.

Lemma degraded_record_fields (ticker : string) (cp tv hv : pyfloat) :
  degraded_record ticker cp tv hv !! "ticker" = Some (VStr ticker)
  ∧ degraded_record ticker cp tv hv !! "recommendation" = Some (VStr "Avoid")
  ∧ degraded_record ticker cp tv hv !! "earnings_time" = Some (VStr "Unknown")
  ∧ degraded_record ticker cp tv hv !! "current_price" = Some (VNum cp)
  ∧ degraded_record ticker cp tv hv !! "volume" = Some (VNum tv)
  ∧ degraded_record ticker cp tv hv !! "historical_volatility" = Some (VNum hv).
Proof. repeat split; vm_compute; reflexivity. Qed.

Lemma full_record_fields (ticker : string) (cp tv hv : pyfloat) (mc : pyval)
  (et : string) (rec : recommendation) (od : rec_data) :
  full_record ticker cp tv hv mc et rec od !! "ticker" = Some (VStr ticker)
  ∧ full_record ticker cp tv hv mc et rec od !! "recommendation"
    = Some (VStr (rec_string rec))
  ∧ full_record ticker cp tv hv mc et rec od !! "earnings_time" = Some (VStr et).
Proof. repeat split; vm_compute; reflexivity. Qed.

Lemma is_record_has_keys (ticker : string) (d : dict) :
  is_record ticker d → has_keys d ∧ d !! "ticker" = Some (VStr ticker).
Proof.
  intros [(cp & tv & hv & ->)|(cp & tv & hv & mc & et & rec & od & ->)].
  - destruct (degraded_record_fields ticker cp tv hv) as (H1 & H2 & H3 & _).
    split; [|done]. red. eauto 10.
  - destruct (full_record_fields ticker cp tv hv mc et rec od) as (H1 & H2 & H3).
    split; [|done]. red. eauto 10.
Qed.

Lemma has_keys_truthy (d : dict) : has_keys d → truthy_result (Some d) = true.
Proof.
  intros (r & et & tk & Hr & _). simpl.
  destruct (Nat.eqb_spec (size d) 0) as [H0|]; [|done].
  apply map_size_empty_inv in H0. rewrite H0 in Hr. by rewrite lookup_empty in Hr.
Qed.

(** [analyze_stock] never raises; it returns [None] or a record of the
    ticker. *)
Lemma analyze_stock_returns (mk : market) (ticker : string)
  (history_data : option history) (s : state) :
  ∃ r s', analyze_stock mk ticker history_data s = (Ok r, s')
          ∧ (r = None ∨ ∃ d, r = Some d ∧ is_record ticker d).
Proof.
  unfold analyze_stock, try_except, bind at 1, analyze_body, bind at 1.
  destruct (history_fields mk ticker history_data s) as [[[[cp hv] tv]|e] s1];
    [|unfold ret; eauto].
  unfold bind at 1.
  destruct (compute_loop_returns mk ticker [0; 1; 2]%nat s1) as (r & s2 & Hr).
  unfold compute_recommendation. rewrite Hr.
  destruct r as [[msg|od]|].
  - unfold ret. do 2 eexists. split; [done|]. right. eexists. split; [done|].
    left. eauto.
  - unfold bind at 1, fetch.
    destruct (market_cap_of mk ticker (log s2)) as [mc|e]; [|unfold ret; eauto].
    unfold bind, get_earnings_time, ret. do 2 eexists. split; [done|].
    right. eexists. split; [done|]. right. eauto 10.
  - unfold ret. do 2 eexists. split; [done|]. right. eexists. split; [done|].
    left. eauto.
Qed.




Lemma outcome_record (mk : market) (o : string * option dict) (d : dict) :
  outcome_of mk o → o.2 = Some d → is_record o.1 d.
Proof.
  intros (hist & sa & sb & Hrun) Hd.
  destruct (analyze_stock_returns mk o.1 hist sa) as (r & s' & Hr & Hcase).
  rewrite Hrun in Hr. injection Hr as <- _.
  destruct Hcase as [Hn|(d' & Hd' & Hrec)]; congruence.
Qed.

Lemma analyze_batch_spec (mk : market) (b : list string)
  (hist : gmap string history) (recommended : list dict) (s : state) :
  ∃ outs s',
    analyze_batch mk b hist recommended s
    = (Ok (recommended ++ omap id (outs.*2)), s')
    ∧ outs.*1 = b ∧ Forall (outcome_of mk) outs.
Proof.
  revert recommended s. induction b as [|st b IH]; intros recommended s.
  - exists [], s. simpl. unfold ret. by rewrite app_nil_r.
  - simpl. unfold bind at 1, try_except.
    destruct (analyze_stock_returns mk st (hist !! st) s)
      as (r & s1 & Hr & Hcase).
    rewrite Hr.
    destruct Hcase as [->|(d & -> & Hrec)].
    + destruct (IH recommended s1) as (outs & s2 & Hrun & Hfst & Hall).
      exists ((st, None) :: outs), s2.
      split; [rewrite Hrun; reflexivity|].
      split; [simpl; f_equal; exact Hfst|].
      constructor; [|done]. red. simpl. eauto.
    + rewrite (has_keys_truthy d) by (by eapply is_record_has_keys).
      destruct (IH (recommended ++ [d]) s1) as (outs & s2 & Hrun & Hfst & Hall).
      exists ((st, Some d) :: outs), s2.
      split; [rewrite Hrun, <- app_assoc; reflexivity|].
      split; [simpl; f_equal; exact Hfst|].
      constructor; [|done]. red. simpl. eauto.
Qed.

Lemma batch_download_returns (mk : market) (b : list string) (s : state) :
  ∃ hist s', batch_download_history mk b s = (Ok hist, s').
Proof.
  unfold batch_download_history, try_except, bind, fetch.
  destruct (download_of mk b (log s)); unfold ret; eauto.
Qed.

Lemma scan_batches_spec (mk : market) (batches : list (list string))
  (recommended : list dict) (s : state) :
  ∃ outs s',
    scan_batches mk batches recommended s
    = (Ok (recommended ++ omap id (outs.*2)), s')
    ∧ outs.*1 = concat batches ∧ Forall (outcome_of mk) outs.
Proof.
  revert recommended s. induction batches as [|b bs IH]; intros recommended s.
  - exists [], s. simpl. unfold ret. by rewrite app_nil_r.
  - simpl. unfold bind at 1.
    destruct (batch_download_returns mk b s) as (hist & s1 & ->).
    unfold bind at 1.
    destruct (analyze_batch_spec mk b hist recommended s1)
      as (outs1 & s2 & -> & Hfst1 & Hall1).
    destruct (IH (recommended ++ omap id (outs1.*2)) s2)
      as (outs2 & s3 & -> & Hfst2 & Hall2).
    exists (outs1 ++ outs2), s3.
    rewrite !fmap_app, omap_app, app_assoc, Hfst1, Hfst2.
    split; [done|]. split; [done|]. by apply Forall_app.
Qed.

(** The slices of a list, put together again, are the list. *)
Lemma concat_chunks_fuel {A : Type} (fuel n : nat) (l : list A) :
  (0 < n)%nat → (length l ≤ fuel)%nat → concat (chunks_fuel fuel n l) = l.
Proof.
  intros Hn. revert l. induction fuel as [|fuel IH]; intros l Hlen.
  - destruct l; [done|simpl in Hlen; lia].
  - destruct l as [|a l]; [done|].
    change (chunks_fuel (S fuel) n (a :: l))
      with (take n (a :: l) :: chunks_fuel fuel n (drop n (a :: l))).
    simpl concat. rewrite IH; [apply take_drop|].
    rewrite length_drop. simpl in *. lia.
Qed.

Lemma concat_chunks {A : Type} (n : nat) (l : list A) :
  (0 < n)%nat → concat (chunks n l) = l.
Proof. intros Hn. by apply concat_chunks_fuel. Qed.

Lemma keys_of_records (l : list dict) :
  Forall has_keys l → ∃ ks, keys_of l = Ok ks ∧ ks.*2 = l.
Proof.
  induction 1 as [|d l (r & et & tk & Hr & He & Ht) Hl (ks & Hks & Hsnd)]; simpl.
  - by exists [].
  - unfold key_of. rewrite Hr, He, Ht. simpl. rewrite Hks. simpl.
    eexists. split; [done|]. simpl. f_equal. exact Hsnd.
Qed.


Lemma identify_returns (l : list dict) :
  Forall has_keys l → ∃ md, DataCache._identify_missing_data l = Ok md.
Proof.
  induction 1 as [|d l (r & et & tk & Hr & He & Ht) Hl [md Hmd]]; simpl.
  - eauto.
  - destruct (bool_decide _); [eauto|]. rewrite Ht, Hmd. simpl. eauto.
Qed.











End FailedAnalysis.

(** ** The recommendation of a record *)

Section StoredRecommendation.

Import OptionsAnalyzer EarningsCalendarFetcher EnhancedEarningsScanner.

(** The options computation gave data: the record is the full one, with
    the recommendation that [score] computes from the data. *)
Lemma analyze_stock_full (mk : market) (ticker : string)
  (history_data : option history) (s0 s1 s2 : state) (cp hv tv : pyfloat)
  (d : rec_data) (mc : pyval) :
  history_fields mk ticker history_data s0 = (Ok (cp, hv, tv), s1) →
  compute_recommendation mk ticker s1 = (Ok (Some (OdData d)), s2) →
  market_cap_of mk ticker (log s2) = Ok mc →
  analyze_stock mk ticker history_data s0
  = (Ok (Some (full_record ticker cp tv hv mc
                 (default "Unknown" (earnings_times s2 !! ticker))
                 (score (od_avg_volume d) (od_iv30_rv30 d) (od_term_slope d))
                 d)),
     add_event (Fetched (ReqInfo ticker)) s2).
Proof.
  intros Hh Hc Hmc.
  unfold analyze_stock, try_except, bind at 1, analyze_body, bind at 1.
  rewrite Hh. unfold bind at 1. rewrite Hc.
  unfold bind at 1, fetch. rewrite Hmc.
  unfold bind, get_earnings_time, ret. reflexivity.
Qed.

Lemma rec_string_inj (r1 r2 : recommendation) :
  rec_string r1 = rec_string r2 → r1 = r2.
Proof. destruct r1, r2; simpl; congruence. Qed.

(** C1. The recommendation that [analyze_stock] stores in the record of
    an error-free options result is the one the rule of lines 821-829 gives
    for the [avg_volume] flag, the IV30/RV30 ratio and the term slope of
    that result: whenever the price-history step and the options
    computation succeed with data and the market cap is read, the analysis
    returns a record whose field [recommendation] is [Recommended] exactly
    when the flag holds, the ratio is at least 1.25 and the slope is at most
    -0.00406; [Consider] exactly when the slope condition holds and exactly
    one of the flag and the ratio condition holds; [Avoid] in every other
    case.  The rule is total on flags, ratios and slopes, and the four
    sample points of the specification evaluate as stated. *)
Theorem recommendation_decision_rule :
  (∀ mk ticker history_data s0 s1 s2 cp hv tv d mc,
     history_fields mk ticker history_data s0 = (Ok (cp, hv, tv), s1) →
     compute_recommendation mk ticker s1 = (Ok (Some (OdData d)), s2) →
     market_cap_of mk ticker (log s2) = Ok mc →
     let avb := od_avg_volume d in
     let ivcheck := fgeb (od_iv30_rv30 d) (Fin 1.25) in
     let slopecheck := fleb (od_term_slope d) (Fin (-0.00406)) in
     ∃ rec s3,
       analyze_stock mk ticker history_data s0 = (Ok (Some rec), s3)
       ∧ rec !! "recommendation"
         = Some (VStr (rec_string
                         (score avb (od_iv30_rv30 d) (od_term_slope d))))
       ∧ (rec !! "recommendation" = Some (VStr "Recommended")
          ↔ avb = true ∧ ivcheck = true ∧ slopecheck = true)
       ∧ (rec !! "recommendation" = Some (VStr "Consider")
          ↔ slopecheck = true ∧ xorb avb ivcheck = true)
       ∧ (rec !! "recommendation" = Some (VStr "Avoid")
          ↔ ¬ (avb = true ∧ ivcheck = true ∧ slopecheck = true)
            ∧ ¬ (slopecheck = true ∧ xorb avb ivcheck = true))
       ∧ rec !! "avg_volume" = Some (VBool avb)
       ∧ rec !! "iv30_rv30" = Some (VNum (od_iv30_rv30 d))
       ∧ rec !! "term_slope" = Some (VNum (od_term_slope d)))
  ∧ (∀ avb iv30_rv30 term_slope,
       (score avb iv30_rv30 term_slope = Recommended
        ↔ avb = true ∧ fgeb iv30_rv30 (Fin 1.25) = true
          ∧ fleb term_slope (Fin (-0.00406)) = true)
       ∧ (score avb iv30_rv30 term_slope = Consider
          ↔ fleb term_slope (Fin (-0.00406)) = true
            ∧ xorb avb (fgeb iv30_rv30 (Fin 1.25)) = true)
       ∧ (score avb iv30_rv30 term_slope = Avoid
          ↔ ¬ (avb = true ∧ fgeb iv30_rv30 (Fin 1.25) = true
               ∧ fleb term_slope (Fin (-0.00406)) = true)
            ∧ ¬ (fleb term_slope (Fin (-0.00406)) = true
                 ∧ xorb avb (fgeb iv30_rv30 (Fin 1.25)) = true)))
  ∧ score true (Fin 1.30) (Fin (-0.005)) = Recommended
  ∧ score false (Fin 1.30) (Fin (-0.005)) = Consider
  ∧ score true (Fin 1.30) (Fin (-0.002)) = Avoid
  ∧ score false (Fin 0.5) (Fin 0.01) = Avoid.
Proof.
  split; [|split; [|by vm_compute]].
  - intros mk ticker history_data s0 s1 s2 cp hv tv d mc Hh Hc Hmc
      avb ivcheck slopecheck.
    eexists _, _. split; [by eapply analyze_stock_full|].
    set (rec := score avb (od_iv30_rv30 d) (od_term_slope d)).
    destruct (score_decision_rule avb (od_iv30_rv30 d) (od_term_slope d))
      as (HR & HC & HA & _).
    fold rec ivcheck slopecheck in HR, HC, HA.
    assert (Hfield : ∀ r, full_record ticker cp tv hv mc
                 (default "Unknown" (earnings_times s2 !! ticker)) rec d
                 !! "recommendation" = Some (VStr (rec_string r)) ↔ rec = r).
    { intros r.
      destruct (full_record_fields ticker cp tv hv mc
                  (default "Unknown" (earnings_times s2 !! ticker)) rec d)
        as (_ & -> & _).
      split; [|by intros ->]. intros [= H]. by apply rec_string_inj. }
    split; [by apply Hfield|].
    split; [rewrite <- HR; exact (Hfield Recommended)|].
    split; [rewrite <- HC; exact (Hfield Consider)|].
    split; [rewrite <- HA; exact (Hfield Avoid)|].
    repeat split; vm_compute; reflexivity.
  - intros avb iv30_rv30 term_slope.
    destruct (score_decision_rule avb iv30_rv30 term_slope)
      as (HR & HC & HA & _).
    done.
Qed.

Lemma recommendation_decision_rule_witness :
  ∃ rec s3,
    analyze_stock Sloped.sloped_market "DDD" None Sample.empty_state
    = (Ok (Some rec), s3)
    ∧ rec !! "recommendation" = Some (VStr "Recommended")
    ∧ rec !! "avg_volume" = Some (VBool true)
    ∧ rec !! "iv30_rv30" = Some (VNum (Fin (17200000000 # 6200000000)))
    ∧ rec !! "term_slope"
      = Some (VNum (Fin (-24601600000000000 # 1906624000000000000))).
Proof.
  edestruct (proj1 recommendation_decision_rule Sloped.sloped_market "DDD"
               None Sample.empty_state)
    as (rec & s3 & Hrun & _ & HR & _ & _ & Hv & Hi & Hs);
    [vm_compute; reflexivity..|].
  exists rec, s3. split; [exact Hrun|]. split; [|by split].
  apply HR. vm_compute. done.
Defined.

End StoredRecommendation.

(** * Further properties of the code *)

(** ** The proxy pool and the session *)

Lemma unique_from_fresh seen l p :
  p ∈ ProxyPool.unique_from seen l → ProxyManager.http p ∉ seen.
Proof.
  revert seen; induction l as [|q l IH]; intros seen; simpl.
  - rewrite elem_of_nil; tauto.
  - case_bool_decide as Hq.
    + apply IH.
    + rewrite elem_of_cons; intros [->|Hp]; [exact Hq|].
      apply IH in Hp. set_solver.
Qed.

Lemma unique_from_NoDup seen l :
  NoDup (ProxyManager.http <$> ProxyPool.unique_from seen l).
Proof.
  revert seen; induction l as [|q l IH]; intros seen; simpl.
  - constructor.
  - case_bool_decide as Hq; [apply IH|].
    rewrite fmap_cons. apply NoDup_cons; split; [|apply IH].
    rewrite list_elem_of_fmap. intros (p & Hp & Hin).
    apply unique_from_fresh in Hin. set_solver.
Qed.

Lemma unique_from_sublist seen l :
  ProxyPool.unique_from seen l `sublist_of` l.
Proof.
  revert seen; induction l as [|q l IH]; intros seen; simpl.
  - constructor.
  - case_bool_decide; [apply sublist_cons, IH | apply sublist_skip, IH].
Qed.

Lemma unique_from_first seen l1 p l2 :
  ProxyManager.http p ∉ seen →
  ProxyManager.http p ∉ ProxyManager.http <$> l1 →
  p ∈ ProxyPool.unique_from seen (l1 ++ p :: l2).
Proof.
  revert seen; induction l1 as [|q l1 IH]; intros seen Hs Hl; simpl.
  - rewrite bool_decide_false by exact Hs. apply elem_of_cons; auto.
  - rewrite fmap_cons, not_elem_of_cons in Hl. destruct Hl as [Hq Hl].
    case_bool_decide.
    + apply IH; assumption.
    + apply elem_of_cons; right. apply IH; [|assumption].
      rewrite elem_of_union, elem_of_singleton. intros [Heq|Hin]; tauto.
Qed.

(** X1. [ProxyManager.fetch_proxies] leaves a pool without two proxies of
    the same [http] address; the pool is a sub-sequence of what the
    sources returned, in their order; it holds the first proxy of every
    address, so no address is lost; and neither the current proxy nor the
    enabled flag changes. *)
Theorem fetch_proxies_unique results pm :
  let pool := ProxyManager.proxies (ProxyPool.fetch_proxies results pm) in
  NoDup (ProxyManager.http <$> pool)
  ∧ pool `sublist_of` concat results
  ∧ (∀ l1 p l2, concat results = l1 ++ p :: l2 →
       ProxyManager.http p ∉ ProxyManager.http <$> l1 → p ∈ pool)
  ∧ (∀ p, p ∈ concat results →
       ∃ q, q ∈ pool ∧ ProxyManager.http q = ProxyManager.http p)
  ∧ ProxyManager.current_proxy (ProxyPool.fetch_proxies results pm)
    = ProxyManager.current_proxy pm
  ∧ ProxyManager.proxy_enabled (ProxyPool.fetch_proxies results pm)
    = ProxyManager.proxy_enabled pm.
Proof.
  simpl. split; [apply unique_from_NoDup|].
  split; [apply unique_from_sublist|].
  assert (Hfirst : ∀ l1 p l2, concat results = l1 ++ p :: l2 →
            ProxyManager.http p ∉ ProxyManager.http <$> l1 →
            p ∈ ProxyPool.unique_from ∅ (concat results)).
  { intros l1 p l2 -> Hl. apply unique_from_first; [|exact Hl].
    apply not_elem_of_empty. }
  split; [exact Hfirst|]. split; [|split; reflexivity].
  generalize dependent (concat results). intros l Hfirst p Hp.
  assert (Hex : ∃ l1 q l2, l = l1 ++ q :: l2
            ∧ ProxyManager.http q = ProxyManager.http p
            ∧ ProxyManager.http p ∉ ProxyManager.http <$> l1).
  { clear Hfirst. induction l as [|a l IH]; [by apply elem_of_nil in Hp|].
    destruct (decide (ProxyManager.http a = ProxyManager.http p)) as [Ha|Ha].
    - exists [], a, l. rewrite fmap_nil, elem_of_nil. tauto.
    - apply elem_of_cons in Hp as [->|Hp]; [done|].
      destruct (IH Hp) as (l1 & q & l2 & -> & Hq & Hl).
      exists (a :: l1), q, l2. split; [reflexivity|]. split; [exact Hq|].
      rewrite fmap_cons, not_elem_of_cons. split; [congruence|exact Hl]. }
  destruct Hex as (l1 & q & l2 & Hl & Hq & Hn).
  exists q. split; [|exact Hq]. apply (Hfirst l1 q l2 Hl). by rewrite Hq.
Qed.

Lemma get_proxy_cases r pm :
  (ProxyManager.proxy_enabled pm = false ∨ ProxyManager.proxies pm = [] →
   ProxyManager.get_proxy r pm = (None, pm))
  ∧ (ProxyManager.proxy_enabled pm = true → ProxyManager.proxies pm ≠ [] →
     ∃ p, p ∈ ProxyManager.proxies pm
          ∧ ProxyManager.get_proxy r pm = (Some p, ProxyManager.set_current pm p)).
Proof.
  unfold ProxyManager.get_proxy. split.
  - intros [->| ->]; [reflexivity|].
    rewrite bool_decide_true by reflexivity. by rewrite orb_true_r.
  - intros -> Hne. rewrite bool_decide_false by exact Hne. simpl.
    destruct (choice_nonempty r (ProxyManager.proxies pm) Hne) as [p Hp].
    rewrite Hp. exists p. split; [|reflexivity].
    by apply choice_elem_of in Hp.
Qed.

(** X2. [ProxyManager.get_proxy] after [fetch_proxies]: with proxying
    disabled, or when every source came back empty, it returns [None] and
    changes nothing; otherwise it returns one of the proxies the sources
    returned and records it as the current one, leaving the pool as
    [fetch_proxies] built it. *)
Theorem get_proxy_after_fetch r results pm :
  let pm1 := ProxyPool.fetch_proxies results pm in
  (ProxyManager.proxy_enabled pm = false ∨ concat results = [] →
   ProxyManager.get_proxy r pm1 = (None, pm1))
  ∧ (ProxyManager.proxy_enabled pm = true → concat results ≠ [] →
     ∃ p, p ∈ concat results
          ∧ ProxyManager.get_proxy r pm1
            = (Some p, ProxyManager.set_current pm1 p)).
Proof.
  intros pm1. destruct (get_proxy_cases r pm1) as [Hnone Hsome]. split.
  - intros [Hd|He]; apply Hnone; [left; exact Hd|right].
    unfold pm1; simpl. by rewrite He.
  - intros Hen Hne. destruct Hsome as (p & Hp & Hg); [exact Hen| |].
    + unfold pm1; simpl. destruct (concat results) as [|q l]; [done|].
      simpl. rewrite bool_decide_false by apply not_elem_of_empty. done.
    + exists p. split; [|exact Hg].
      eapply elem_of_sublist; [exact Hp|]. apply unique_from_sublist.
Qed.

Lemma rotate_proxy_keeps_pool r pm :
  ProxyManager.proxies (ProxyManager.rotate_proxy r pm).2
  = ProxyManager.proxies pm
  ∧ ProxyManager.proxy_enabled (ProxyManager.rotate_proxy r pm).2
    = ProxyManager.proxy_enabled pm.
Proof.
  unfold ProxyManager.rotate_proxy.
  destruct (negb _ || _); [done|].
  destruct (ProxyManager.available pm) as [|a av]; [done|].
  destruct (ProxyManager.choice r (a :: av)); done.
Qed.

Lemma rotate_proxy_None r pm :
  (ProxyManager.rotate_proxy r pm).1 = None →
  ProxyManager.rotate_proxy r pm = (None, pm).
Proof.
  unfold ProxyManager.rotate_proxy.
  destruct (negb _ || _); [done|].
  destruct (ProxyManager.available pm) as [|a av]; [done|].
  destruct (ProxyManager.choice r (a :: av)); done.
Qed.

Lemma rotate_proxy_Some r pm p pm' :
  ProxyManager.rotate_proxy r pm = (Some p, pm') →
  ProxyManager.proxy_enabled pm = true
  ∧ (1 < length (ProxyManager.proxies pm))%nat
  ∧ p ∈ ProxyManager.proxies pm ∧ Some p ≠ ProxyManager.current_proxy pm
  ∧ pm' = ProxyManager.set_current pm p.
Proof.
  unfold ProxyManager.rotate_proxy.
  destruct (ProxyManager.proxy_enabled pm) eqn:Hen; cbn [negb orb]; [|done].
  destruct (Nat.leb_spec (length (ProxyManager.proxies pm)) 1); [done|].
  destruct (ProxyManager.available pm) as [|a av] eqn:Hav; [done|].
  destruct (ProxyManager.choice r (a :: av)) as [q|] eqn:Hq; [|done].
  intros [= -> <-]. apply choice_elem_of in Hq. rewrite <- Hav in Hq.
  unfold ProxyManager.available in Hq.
  apply list_elem_of_filter in Hq as [Hne Hin]. auto.
Qed.

(** X3. [SessionManager.rotate_session]: the proxy pool never changes.
    When [rotate_proxy] gives no proxy the manager is left exactly as it
    was, with the session it had.  Otherwise one new session is created,
    bound to a proxy of the pool, and that proxy is the one the proxy
    manager now calls current. *)
Theorem rotate_session_spec r1 r2 sm :
  let pm := SessionManager.proxy_manager sm in
  let sm' := SessionManager.rotate_session r1 r2 sm in
  ProxyManager.proxies (SessionManager.proxy_manager sm')
  = ProxyManager.proxies pm
  ∧ ((ProxyManager.rotate_proxy r1 pm).1 = None → sm' = sm)
  ∧ (∀ q, (ProxyManager.rotate_proxy r1 pm).1 = Some q →
       SessionManager.created sm' = S (SessionManager.created sm)
       ∧ ∃ p, p ∈ ProxyManager.proxies pm
              ∧ SessionManager.session sm' = Some p
              ∧ ProxyManager.current_proxy (SessionManager.proxy_manager sm')
                = Some p).
Proof.
  intros pm sm'. unfold sm', SessionManager.rotate_session. fold pm.
  destruct (ProxyManager.proxy_enabled pm) eqn:Hen.
  - destruct (ProxyManager.rotate_proxy r1 pm) as [[q|] pm1] eqn:Hrot.
    + apply rotate_proxy_Some in Hrot as (_ & Hlen & Hq & _ & ->).
      unfold SessionManager._create_session. simpl. rewrite Hen.
      assert (Hne : ProxyManager.proxies (ProxyManager.set_current pm q) ≠ []).
      { simpl. intros He. rewrite He in Hlen. simpl in Hlen. lia. }
      destruct (get_proxy_cases r2 (ProxyManager.set_current pm q))
        as [_ Hsome].
      destruct (Hsome Hen Hne) as (p & Hp & ->). simpl.
      split; [reflexivity|]. split; [done|].
      intros _ _. split; [reflexivity|]. exists p. auto.
    + pose proof (rotate_proxy_None r1 pm) as Hn. rewrite Hrot in Hn.
      specialize (Hn eq_refl). injection Hn as ->. simpl.
      split; [reflexivity|]. split; [|done]. intros _. by destruct sm.
  - split; [reflexivity|]. split; [done|].
    intros q Hq. unfold ProxyManager.rotate_proxy in Hq.
    fold pm in Hq. rewrite Hen in Hq. done.
Qed.

(** X4. The proxy that [rotate_proxy] picks inside
    [SessionManager.rotate_session] is thrown away: [_create_session]
    draws again, from the whole pool.  So whenever a rotation takes place
    and the manager's current proxy is in the pool, some draw binds the
    new session to the very proxy that was current before the
    rotation. *)
Theorem rotate_session_may_keep_proxy r1 sm c q :
  ProxyManager.current_proxy (SessionManager.proxy_manager sm) = Some c →
  c ∈ ProxyManager.proxies (SessionManager.proxy_manager sm) →
  (ProxyManager.rotate_proxy r1 (SessionManager.proxy_manager sm)).1 = Some q →
  ∃ r2,
    SessionManager.session (SessionManager.rotate_session r1 r2 sm) = Some c
    ∧ SessionManager.created (SessionManager.rotate_session r1 r2 sm)
      = S (SessionManager.created sm).
Proof.
  intros Hc Hin Hrot. set (pm := SessionManager.proxy_manager sm) in *.
  destruct (ProxyManager.rotate_proxy r1 pm) as [o pm1] eqn:Hr.
  simpl in Hrot; subst o.
  pose proof Hr as Hr'.
  apply rotate_proxy_Some in Hr' as (Hen & Hlen & Hq & _ & ->).
  apply list_elem_of_lookup in Hin as [i Hi].
  pose proof (lookup_lt_Some _ _ _ Hi) as Hlt.
  exists i. unfold SessionManager.rotate_session. fold pm.
  rewrite Hen, Hr. unfold SessionManager._create_session. simpl.
  rewrite Hen. unfold ProxyManager.get_proxy. simpl. rewrite Hen. simpl.
  destruct (ProxyManager.proxies pm) as [|a l] eqn:Hl; [simpl in Hlt; lia|].
  rewrite bool_decide_false by done.
  unfold ProxyManager.choice. rewrite Nat.mod_small by exact Hlt.
  rewrite Hi. simpl. done.
Qed.

Lemma rotate_session_may_keep_proxy_witness :
  let a := {| ProxyManager.http := "http://a"; ProxyManager.https := "http://a" |} in
  let b := {| ProxyManager.http := "http://b"; ProxyManager.https := "http://b" |} in
  let sm := {| SessionManager.proxy_manager :=
                 {| ProxyManager.proxies := [a; b];
                    ProxyManager.current_proxy := Some a;
                    ProxyManager.proxy_enabled := true |};
               SessionManager.session := Some a;
               SessionManager.created := 1 |} in
  ∃ r2,
    SessionManager.session (SessionManager.rotate_session 0 r2 sm) = Some a
    ∧ SessionManager.created (SessionManager.rotate_session 0 r2 sm) = 2%nat.
Proof.
  intros a b sm.
  apply (rotate_session_may_keep_proxy 0 sm a b).
  - reflexivity.
  - apply elem_of_cons; left; reflexivity.
  - vm_compute. reflexivity.
Defined.

(** ** What a computation does to the world *)

Section NetworkOnly.

Import OptionsAnalyzer.

Lemma network_only_ret {A : Type} (a : A) : network_only (ret a).
Proof. intros s. simpl. repeat split. by exists []. Qed.

Lemma network_only_raise {A : Type} (e : string) : network_only (@raise A e).
Proof. intros s. simpl. repeat split. by exists []. Qed.

Lemma network_only_lift {A : Type} (x : exc A) : network_only (lift x).
Proof. intros s. simpl. repeat split. by exists []. Qed.

Lemma network_only_fetch {A : Type} (q : request) (f : list event → exc A) :
  network_only (fetch q f).
Proof. intros s. simpl. repeat split. by exists [Fetched q]. Qed.

Lemma network_only_rotate : network_only rotate_session.
Proof. intros s. simpl. repeat split. by exists [RotatedSession]. Qed.

Lemma network_only_bind {A B : Type} (m : M A) (k : A → M B) :
  network_only m → (∀ a, network_only (k a)) → network_only (bind m k).
Proof.
  intros Hm Hk s. unfold bind. specialize (Hm s).
  destruct (m s) as [[a|e] s1]; simpl in *; [|exact Hm].
  destruct Hm as (Hf & He & evs & Hl).
  destruct (Hk a s1) as (Hf' & He' & evs' & Hl').
  split; [congruence|]. split; [congruence|].
  exists (evs' ++ evs). rewrite Hl', Hl. apply app_assoc.
Qed.

Lemma network_only_try {A : Type} (m : M A) (h : string → M A) :
  network_only m → (∀ e, network_only (h e)) → network_only (try_except m h).
Proof.
  intros Hm Hh s. unfold try_except. specialize (Hm s).
  destruct (m s) as [[a|e] s1]; simpl in *; [exact Hm|].
  destruct Hm as (Hf & He & evs & Hl).
  destruct (Hh e s1) as (Hf' & He' & evs' & Hl').
  split; [congruence|]. split; [congruence|].
  exists (evs' ++ evs). rewrite Hl', Hl. apply app_assoc.
Qed.

Lemma network_only_if {A : Type} (b : bool) (m1 m2 : M A) :
  network_only m1 → network_only m2 → network_only (if b then m1 else m2).
Proof. by destruct b. Qed.

Ltac network_only :=
  repeat lazymatch goal with
    | |- network_only (ret _) => apply network_only_ret
    | |- network_only (raise _) => apply network_only_raise
    | |- network_only (lift _) => apply network_only_lift
    | |- network_only (fetch _ _) => apply network_only_fetch
    | |- network_only rotate_session => apply network_only_rotate
    | |- network_only (bind _ _) => apply network_only_bind; [|intros ?]
    | |- network_only (try_except _ _) => apply network_only_try; [|intros ?]
    | |- network_only (if _ then _ else _) => apply network_only_if
    | |- network_only (let '(_, _) := ?p in _) => destruct p
    | H : ?P |- ?P => exact H
    | H : ∀ x, network_only (?f x) |- network_only (?f _) => apply H
    end.

Lemma network_only_price_loop mk sym attempts :
  network_only (price_loop mk sym attempts).
Proof. induction attempts as [|a rest IH]; simpl; network_only. Qed.

Lemma network_only_fetch_chains mk s exps oc :
  network_only (fetch_chains mk s exps oc).
Proof.
  revert oc; induction exps as [|e exps IH]; intros oc; simpl; network_only.
Qed.

Lemma network_only_attempt_body mk symbol :
  network_only (attempt_body mk symbol).
Proof.
  unfold attempt_body.
  network_only; first [apply network_only_fetch_chains
                      |apply network_only_price_loop].
Qed.

Lemma network_only_compute_loop mk symbol attempts :
  network_only (compute_loop mk symbol attempts).
Proof.
  induction attempts as [|a rest IH]; simpl; network_only.
  apply network_only_attempt_body.
Qed.

(** X5. [OptionsAnalyzer.get_current_price] asks for the one-day history
    at most three times, with one session rotation between two requests
    and nothing else.  It never returns [None]: it returns the last close
    of the history its last request received, or, after the third
    failure, raises an error that starts with "Cannot get price: ".  The
    cache directory and the earnings times are not touched. *)
Theorem get_current_price_outcome mk sym s :
  let q := ReqHistory sym "1d" in
  let r := (get_current_price mk sym s).1 in
  let s' := (get_current_price mk sym s).2 in
  files s' = files s ∧ earnings_times s' = earnings_times s
  ∧ ∃ n, (1 ≤ n ≤ 3)%nat ∧ log s' = tries q n ++ log s
      ∧ match r with
        | Ok (Some p) =>
            ∃ td b, history_of mk sym "1d" (tail (tries q n) ++ log s) = Ok td
                    ∧ last td = Some b ∧ p = Close b
        | Ok None => False
        | Raise msg => n = 3%nat ∧ ∃ e, msg = "Cannot get price: " +:+ e
        end.
Proof.
  intros q r s'.
  destruct (network_only_price_loop mk sym [0; 1; 2]%nat s) as (Hf & He & _).
  split; [exact Hf|]. split; [exact He|]. clear Hf He.
  unfold r, s', get_current_price, price_loop, try_except, bind, fetch,
    lift, ret, raise, rotate_session, last_close. simpl. fold q.
  set (ask l := match history_of mk sym "1d" l with
                | Ok td => match last td with
                           | Some b => Ok (Close b)
                           | None => Raise "No price data for 1d."
                           end
                | Raise e => Raise e
                end).
  assert (Hask : ∀ l p, ask l = Ok p →
            ∃ td b, history_of mk sym "1d" l = Ok td
                    ∧ last td = Some b ∧ p = Close b).
  { unfold ask. intros l p. destruct (history_of mk sym "1d" l) as [td|e];
      [|done]. destruct (last td) as [b|] eqn:Hb; [|done].
    intros [= <-]. eauto. }
  assert (Hrun : ∀ l,
            match history_of mk sym "1d" l with
            | Ok td => match last td with
                       | Some b => ask l = Ok (Close b)
                       | None => ask l = Raise "No price data for 1d."
                       end
            | Raise e => ask l = Raise e
            end).
  { intros l. unfold ask. destruct (history_of mk sym "1d" l) as [td|e];
      [|done]. by destruct (last td). }
  pose proof (Hrun (log s)) as H1.
  destruct (history_of mk sym "1d" (log s)) as [td1|e1].
  { destruct (last td1) as [b1|].
    - exists 1%nat. simpl. split; [lia|]. split; [done|].
      apply Hask. exact H1.
    - clear H1. pose proof (Hrun (RotatedSession :: Fetched q :: log s)) as H2.
      destruct (history_of mk sym "1d" _) as [td2|e2].
      + destruct (last td2) as [b2|].
        * exists 2%nat. simpl. split; [lia|]. split; [done|]. by apply Hask.
        * clear H2.
          pose proof (Hrun (RotatedSession :: Fetched q :: RotatedSession
                              :: Fetched q :: log s)) as H3.
          destruct (history_of mk sym "1d" _) as [td3|e3].
          -- destruct (last td3) as [b3|]; exists 3%nat; simpl;
               (split; [lia|]); (split; [done|]); [by apply Hask | eauto].
          -- exists 3%nat; simpl. split; [lia|]. split; [done|]. eauto.
      + clear H2.
        pose proof (Hrun (RotatedSession :: Fetched q :: RotatedSession
                            :: Fetched q :: log s)) as H3.
        destruct (history_of mk sym "1d" _) as [td3|e3].
        * destruct (last td3) as [b3|]; exists 3%nat; simpl;
            (split; [lia|]); (split; [done|]); [by apply Hask | eauto].
        * exists 3%nat; simpl. split; [lia|]. split; [done|]. eauto. }
  clear H1. pose proof (Hrun (RotatedSession :: Fetched q :: log s)) as H2.
  destruct (history_of mk sym "1d" _) as [td2|e2].
  - destruct (last td2) as [b2|].
    + exists 2%nat. simpl. split; [lia|]. split; [done|]. by apply Hask.
    + clear H2.
      pose proof (Hrun (RotatedSession :: Fetched q :: RotatedSession
                          :: Fetched q :: log s)) as H3.
      destruct (history_of mk sym "1d" _) as [td3|e3].
      * destruct (last td3) as [b3|]; exists 3%nat; simpl;
          (split; [lia|]); (split; [done|]); [by apply Hask | eauto].
      * exists 3%nat; simpl. split; [lia|]. split; [done|]. eauto.
  - clear H2.
    pose proof (Hrun (RotatedSession :: Fetched q :: RotatedSession
                        :: Fetched q :: log s)) as H3.
    destruct (history_of mk sym "1d" _) as [td3|e3].
    + destruct (last td3) as [b3|]; exists 3%nat; simpl;
        (split; [lia|]); (split; [done|]); [by apply Hask | eauto].
    + exists 3%nat; simpl. split; [lia|]. split; [done|]. eauto.
Qed.

(** X6. [OptionsAnalyzer.compute_recommendation] never raises and never
    returns [None]: for every symbol and every market it returns an error
    dict or a data dict.  It only talks to the network: the cache
    directory and the earnings times are as before, and the log of
    requests and rotations only grows. *)
Theorem compute_recommendation_contract mk symbol s :
  (∃ r, (compute_recommendation mk symbol s).1 = Ok (Some r))
  ∧ files (compute_recommendation mk symbol s).2 = files s
  ∧ earnings_times (compute_recommendation mk symbol s).2 = earnings_times s
  ∧ ∃ evs, log (compute_recommendation mk symbol s).2 = evs ++ log s.
Proof.
  split; [|apply network_only_compute_loop].
  unfold compute_recommendation, compute_loop, try_except, bind at 1.
  destruct (attempt_body mk symbol s) as [[r|e] s1]; [simpl; eauto|].
  cbn [Nat.ltb Nat.leb]. unfold bind at 1, rotate_session at 1, bind at 1.
  destruct (attempt_body mk symbol _) as [[r|e2] s2]; [simpl; eauto|].
  unfold bind at 1, rotate_session at 1, bind at 1.
  destruct (attempt_body mk symbol _) as [[r|e3] s3]; simpl; eauto.
Qed.

(** X7. Which failures [compute_recommendation] retries, for a symbol
    that is not blank.  A ticker that lists no option expiries is reported
    at once as "No options for S.", after a single request and without a
    rotation.  When every request for the expiries raises [e], the
    request is made three times, with a rotation between two requests,
    and the error is returned as the value "Err: e". *)
Theorem compute_recommendation_retries mk symbol s :
  let S := upper (strip symbol) in
  (S ≠ "" → options_of mk S (log s) = Ok [] →
   compute_recommendation mk symbol s
   = (Ok (Some (OdError ("No options for " +:+ S +:+ "."))),
      add_event (Fetched (ReqOptions S)) s))
  ∧ (∀ e, S ≠ "" → (∀ l, options_of mk S l = Raise e) →
     (compute_recommendation mk symbol s).1
     = Ok (Some (OdError ("Err: " +:+ e)))
     ∧ log (compute_recommendation mk symbol s).2
       = tries (ReqOptions S) 3 ++ log s).
Proof.
  intros S. split.
  - intros HS Ho.
    unfold compute_recommendation, compute_loop, try_except, bind at 1,
      attempt_body. fold S. rewrite bool_decide_false by exact HS.
    unfold bind at 1, fetch at 1. rewrite Ho. reflexivity.
  - intros e HS Ho.
    assert (Hbody : ∀ s0, attempt_body mk symbol s0
              = (Raise e, add_event (Fetched (ReqOptions S)) s0)).
    { intros s0. unfold attempt_body. fold S.
      rewrite bool_decide_false by exact HS.
      unfold bind at 1, fetch at 1. by rewrite Ho. }
    unfold compute_recommendation, compute_loop, try_except, bind,
      rotate_session. repeat (rewrite Hbody; simpl). done.
Qed.

Lemma compute_recommendation_retries_witness :
  compute_recommendation Sample.sample_market " aaa " Sample.empty_state
  = (Ok (Some (OdError "No options for AAA.")),
     add_event (Fetched (ReqOptions "AAA")) Sample.empty_state).
Proof.
  apply (proj1 (compute_recommendation_retries Sample.sample_market " aaa "
                  Sample.empty_state)).
  - vm_compute. discriminate.
  - reflexivity.
Defined.

(** The analysis of one symbol and a batch of analyses talk to the
    network only. *)
Lemma network_only_get_earnings_time ticker :
  network_only (EarningsCalendarFetcher.get_earnings_time ticker).
Proof. intros s. simpl. repeat split. by exists []. Qed.

Lemma network_only_history_fields mk ticker history_data :
  network_only (EnhancedEarningsScanner.history_fields mk ticker history_data).
Proof.
  unfold EnhancedEarningsScanner.history_fields.
  destruct history_data as [[|b hd]|]; network_only.
Qed.

Lemma network_only_analyze_stock mk ticker history_data :
  network_only (EnhancedEarningsScanner.analyze_stock mk ticker history_data).
Proof.
  unfold EnhancedEarningsScanner.analyze_stock,
    EnhancedEarningsScanner.analyze_body.
  network_only.
  - apply network_only_history_fields.
  - apply network_only_compute_loop.
  - destruct a as [[msg|d]|]; network_only.
    apply network_only_get_earnings_time.
Qed.

Lemma network_only_batch_download mk tickers :
  network_only (EnhancedEarningsScanner.batch_download_history mk tickers).
Proof. unfold EnhancedEarningsScanner.batch_download_history. network_only. Qed.

Lemma network_only_analyze_batch mk b hist recommended :
  network_only (EnhancedEarningsScanner.analyze_batch mk b hist recommended).
Proof.
  revert recommended; induction b as [|st b IH]; intros recommended; simpl;
    network_only.
  apply network_only_analyze_stock.
Qed.

Lemma network_only_scan_batches mk batches recommended :
  network_only (EnhancedEarningsScanner.scan_batches mk batches recommended).
Proof.
  revert recommended; induction batches as [|b bs IH]; intros recommended;
    simpl; network_only.
  - apply network_only_batch_download.
  - apply network_only_analyze_batch.
Qed.

End NetworkOnly.

(** ** OptionsAnalyzer.build_term_structure: the interpolation *)

Section TermStructureInterpolation.

Import OptionsAnalyzer.

(** X8. The function returned by [build_term_structure] never raises,
    whatever the lists of days and vols, as long as scipy asks for at
    least one knot.  When there are fewer vols than days, or fewer days
    than scipy asks for (no day at all, in particular), it is the
    constant NaN. *)
Theorem build_term_structure_never_raises (minval : nat) (days : list Z)
  (ivs : list pyfloat) :
  ((1 ≤ minval)%nat →
   ∀ dte, ∃ v, build_term_structure minval days ivs dte = Ok v)
  ∧ ((length ivs < length days)%nat ∨ (length days < minval)%nat →
     ∀ dte, build_term_structure minval days ivs dte = Ok NaN).
Proof.
  assert (Hnan : (length ivs < length days)%nat ∨ (length days < minval)%nat →
            ∀ dte, build_term_structure minval days ivs dte = Ok NaN).
  { intros Hc dte. unfold build_term_structure.
    destruct (Nat.ltb_spec (length ivs) (length days)) as [|Hge]; [done|].
    destruct Hc as [|Hc]; [lia|].
    unfold interp1d. rewrite !length_fmap, Nat.eqb_refl.
    rewrite sorted_length, length_zip. cbn [negb].
    destruct (Nat.ltb_spec (length days `min` length ivs) minval); [done|lia]. }
  split; [|exact Hnan].
  intros Hmin dte.
  destruct (Nat.ltb_spec (length ivs) (length days)) as [Hlt|Hge].
  { rewrite Hnan by auto. eauto. }
  destruct days as [|d days].
  { rewrite Hnan by (right; simpl; lia). eauto. }
  assert (Heq : build_term_structure minval (d :: days) ivs
                = build_term_structure minval (d :: days)
                    (take (length (d :: days)) ivs)).
  { unfold build_term_structure. rewrite length_take.
    destruct (Nat.ltb_spec (length ivs) (length (d :: days))); [lia|].
    destruct (Nat.ltb_spec (length (d :: days) `min` length ivs)
                (length (d :: days))); [lia|].
    by rewrite (zip_with_take_r pair (d :: days) ivs). }
  rewrite Heq. apply build_term_structure_total; [done|].
  rewrite length_take. lia.
Qed.

Lemma interp_between (y_hi y_lo : Q) (x_hi x_lo x_new : Z) :
  x_lo < x_hi →
  ∃ q, fadd (fmul (fdiv (fsub (Fin y_hi) (Fin y_lo)) (of_Z (x_hi - x_lo)))
                  (of_Z (x_new - x_lo))) (Fin y_lo) = Fin q
       ∧ (q * inject_Z (x_hi - x_lo)
          == y_lo * inject_Z (x_hi - x_new) + y_hi * inject_Z (x_new - x_lo))%Q.
Proof.
  intros Hlt. unfold fsub, fdiv, of_Z, fneg, fadd, fmul, qzero. simpl.
  destruct (Z.eqb_spec (x_hi - x_lo) 0) as [|Hne]; [lia|].
  eexists; split; [reflexivity|].
  replace (x_hi - x_new) with ((x_hi - x_lo) - (x_new - x_lo)) by lia.
  generalize dependent (x_hi - x_lo). intros h Hne.
  generalize (x_new - x_lo). intros t.
  unfold Z.sub. rewrite inject_Z_plus, inject_Z_opp.
  field. intros H0. apply (inject_Z_injective h 0) in H0. lia.
Qed.

Lemma searchsorted_between (l : list (Z * Q)) (i : nat) (a b : Z * Q) (v : Z) :
  StronglySorted lt_day l → l !! i = Some a → l !! S i = Some b →
  a.1 < v ≤ b.1 → searchsorted (l.*1) v = S i.
Proof.
  intros Hs. revert i. induction Hs as [|x l Hs IH Hall]; intros i Ha Hb Hv.
  - by rewrite lookup_nil in Ha.
  - simpl. destruct i as [|i]; simpl in Ha, Hb.
    + injection Ha as ->. destruct (Z.ltb_spec a.1 v); [|lia]. f_equal.
      destruct l as [|y l]; [done|]. simpl in Hb. injection Hb as ->.
      simpl. destruct (Z.ltb_spec b.1 v); [lia|done].
    + rewrite Forall_forall in Hall.
      assert (Hlt : x.1 < a.1) by (apply Hall; by eapply list_elem_of_lookup_2).
      destruct (Z.ltb_spec x.1 v); [|lia]. f_equal. by apply IH.
Qed.

(** X9. Between two neighbouring knots the function returned by
    [OptionsAnalyzer.build_term_structure] is the straight line through
    them.  For knots with finite vols and pairwise distinct days, two
    knots [a] and [b] with no knot strictly between them, and a query day
    [dte] with [a.1 < dte <= b.1], the result [q] is finite and, in exact
    arithmetic,
    [q * (b.1 - a.1) = a.2 * (b.1 - dte) + b.2 * (dte - a.1)]. *)
Theorem term_structure_interpolates (minval : nat) (knots : list (Z * Q))
  (a b : Z * Q) (dte : Z) :
  (minval ≤ 2)%nat → NoDup (knots.*1) → a ∈ knots → b ∈ knots →
  (∀ k, k ∈ knots → k.1 ≤ a.1 ∨ b.1 ≤ k.1) →
  a.1 < dte ≤ b.1 →
  ∃ q, build_term_structure minval (knots.*1) (Fin <$> knots.*2) dte
       = Ok (Fin q)
       ∧ (q * inject_Z (b.1 - a.1)
          == a.2 * inject_Z (b.1 - dte) + b.2 * inject_Z (dte - a.1))%Q.
Proof.
  intros Hmin Hnd Ha Hb Hgap Hdte.
  assert (Hab : a ≠ b) by (intros ->; lia).
  assert (Hlen : (2 ≤ length knots)%nat).
  { destruct knots as [|x [|y l]]; simpl; try lia.
    - by apply elem_of_nil in Ha.
    - apply list_elem_of_singleton in Ha, Hb. congruence. }
  rewrite build_term_structure_knots by lia. cbv zeta.
  pose proof (sorted_knots_strict knots Hnd) as Hs.
  pose proof (sorted_Permutation by_dayQ knots) as Hperm.
  set (kq := sorted by_dayQ knots) in *.
  rewrite <- Hperm in Ha, Hb.
  apply list_elem_of_lookup in Ha as [i Hi].
  apply list_elem_of_lookup in Hb as [j Hj].
  assert (Hij : j = S i).
  { destruct (lt_eq_lt_dec j (S i)) as [[Hlt|Heq]|Hgt]; [|done|].
    - destruct (decide (j = i)) as [->|Hne]; [congruence|].
      pose proof (strict_lookup_lt kq j i b a Hs Hj Hi). lia.
    - destruct (lookup_lt_is_Some_2 kq (S i)) as [c Hc].
      { pose proof (lookup_lt_Some _ _ _ Hj). lia. }
      pose proof (strict_lookup_lt kq i (S i) a c Hs Hi Hc).
      pose proof (strict_lookup_lt kq (S i) j c b Hs Hc Hj).
      destruct (Hgap c); [|lia|lia].
      rewrite <- Hperm. by eapply list_elem_of_lookup_2. }
  subst j.
  pose proof (lookup_lt_Some _ _ _ Hj) as Hjlt.
  assert (Hk0 : ∃ k0, kq !! 0%nat = Some k0 ∧ k0.1 ≤ a.1).
  { destruct i as [|i]; [exists a; split; [done|lia]|].
    destruct (lookup_lt_is_Some_2 kq 0) as [k0 Hk0]; [lia|].
    exists k0. split; [done|].
    pose proof (strict_lookup_lt kq 0 (S i) k0 a Hs Hk0 Hi). lia. }
  destruct Hk0 as (k0 & Hk0 & Hk0le).
  assert (Hk1 : ∃ k1, last kq = Some k1 ∧ b.1 ≤ k1.1).
  { destruct (last kq) as [k1|] eqn:Hl.
    - exists k1. split; [done|]. rewrite last_lookup in Hl.
      destruct (decide (S i = Nat.pred (length kq))) as [He|Hne].
      + rewrite <- He, Hj in Hl. injection Hl as ->. lia.
      + pose proof (strict_lookup_lt kq (S i) _ b k1 Hs Hj Hl). lia.
    - apply last_None in Hl. rewrite Hl in Hjlt. simpl in Hjlt. lia. }
  destruct Hk1 as (k1 & Hk1 & Hk1ge).
  unfold tspline.
  rewrite (index_nth _ 0 k0.1) by (by apply lookup_knot in Hk0 as [? ?]).
  cbn [exc_bind]. destruct (Z.ltb_spec dte k0.1); [lia|].
  assert (Hd1 : index (kq.*1) (-1) = Ok k1.1).
  { unfold index. rewrite py_nth_last, fmap_last, Hk1. done. }
  rewrite Hd1. cbn [exc_bind]. destruct (Z.ltb_spec k1.1 dte); [lia|].
  unfold call_linear. simpl ix. simpl iy. rewrite length_fmap.
  rewrite (searchsorted_between kq i a b dte Hs Hi Hj Hdte).
  replace (Z.min (Z.max (Z.of_nat (S i)) 1) (Z.of_nat (length kq) - 1))
    with (Z.of_nat (S i)) by lia.
  replace (Z.of_nat (S i) - 1) with (Z.of_nat i) by lia.
  destruct (lookup_knot _ _ _ Hi) as [Hxl Hyl].
  destruct (lookup_knot _ _ _ Hj) as [Hxh Hyh].
  rewrite (index_nth _ _ _ Hxl), (index_nth _ _ _ Hxh).
  rewrite (index_nth _ _ _ Hyl), (index_nth _ _ _ Hyh). cbn [exc_bind].
  destruct (interp_between b.2 a.2 b.1 a.1 dte) as (q & -> & Hq); [lia|].
  by exists q.
Qed.

Lemma term_structure_interpolates_witness :
  ∃ q, build_term_structure 1 [60; 30] [Fin 0.3; Fin 0.4] 45 = Ok (Fin q)
       ∧ (q * 30 == 0.4 * 15 + 0.3 * 15)%Q.
Proof.
  apply (term_structure_interpolates 1 [(60, 0.3%Q); (30, 0.4%Q)]
           (30, 0.4%Q) (60, 0.3%Q) 45).
  - lia.
  - simpl. repeat (apply NoDup_cons; split;
            [rewrite ?elem_of_cons, elem_of_nil; lia|]).
    apply NoDup_nil_2.
  - apply elem_of_cons; right. apply elem_of_cons; left. reflexivity.
  - apply elem_of_cons; left. reflexivity.
  - intros k Hk. apply elem_of_cons in Hk as [->|Hk]; [right; simpl; lia|].
    apply list_elem_of_singleton in Hk as ->. left; simpl; lia.
  - simpl; lia.
Defined.


End TermStructureInterpolation.

(** ** DataCache: saving, looking up, backfilling and sweeping *)

Section CacheProperties.

Import DataCache.

Lemma rev_app_append (s1 s2 acc : string) :
  String.rev_app (s1 +:+ s2) acc = String.rev_app s2 (String.rev_app s1 acc).
Proof.
  revert acc; induction s1 as [|c s1 IH]; intros acc; simpl; [done|apply IH].
Qed.

Lemma is_pkl_cache_path (key : string) : is_pkl (_get_cache_path key) = true.
Proof.
  unfold is_pkl, _get_cache_path, String.rev. rewrite rev_app_append. done.
Qed.

Lemma cache_key_perm (date : string) (l1 l2 : list string) :
  l1 ≡ₚ l2 → _get_cache_key date l1 = _get_cache_key date l2.
Proof.
  intros Hp. unfold _get_cache_key.
  by rewrite (sorted_Permutation_eq String.leb String.leb_total
                String_leb_trans String.leb_antisym l1 l2 Hp).
Qed.

(** X10. What [DataCache.save_data] stores, [get_data] returns: after a
    save at time [now0], a lookup for the same date and the same tickers
    in any order, made less than seven days later, returns the saved
    records together with the list of their missing fields, and leaves
    the directory as it is. *)
Theorem save_then_get (now0 now1 : Z) (fs fs' : gmap string file)
  (date : string) (tickers tickers' : list string) (data : list dict) :
  save_data now0 fs date tickers data = Ok fs' →
  tickers' ≡ₚ tickers →
  age_days now1 now0 < cache_expiry_days →
  ∃ md, _identify_missing_data data = Ok md
        ∧ get_data now1 fs' date tickers' = ((Some data, md), fs').
Proof.
  intros Hsave Hp Hage. unfold save_data in Hsave.
  destruct (_identify_missing_data data) as [md|e]; [|done].
  simpl in Hsave. injection Hsave as <-. exists md. split; [done|].
  unfold get_data. rewrite (cache_key_perm date tickers' tickers Hp).
  rewrite lookup_insert_eq. simpl.
  destruct (Z.leb_spec cache_expiry_days (age_days now1 now0)); [lia|done].
Qed.

Lemma save_then_get_witness :
  let data := [Sample.stored_entry; Sample.later_result] in
  let fs' : gmap string file :=
    {[ "346eeb8479069095ab6b60c445353098.pkl" :=
       Pickled {| c_timestamp := 1709300000; c_date := "2024-03-01";
                  c_tickers := ["AAA"; "BBB"]; c_data := data;
                  c_missing_data :=
                    [ {| m_ticker := VStr "AAA";
                         m_missing_fields := ["expected_move"];
                         m_earnings_time := VStr "Unknown" |};
                      {| m_ticker := VStr "AAA";
                         m_missing_fields := ["current_iv"];
                         m_earnings_time := VStr "Unknown" |} ] |} ]} in
  ∃ md, _identify_missing_data data = Ok md
        ∧ get_data 1709800000 fs' "2024-03-01" ["BBB"; "AAA"]
          = ((Some data, md), fs').
Proof.
  intros data fs'.
  apply (save_then_get 1709300000 1709800000 ∅ fs' "2024-03-01"
           ["AAA"; "BBB"] ["BBB"; "AAA"] data).
  - vm_compute. reflexivity.
  - apply perm_swap.
  - vm_compute. reflexivity.
Defined.

Lemma identify_filter (data : list dict) :
  (∀ d, d ∈ data → needs_refill d = true → is_Some (d !! "ticker")) →
  _identify_missing_data data
  = Ok (missing_entry_of <$> filter (λ d, needs_refill d = true) data).
Proof.
  induction data as [|d data IH]; intros Ht; [done|].
  assert (IH' : _identify_missing_data data
    = Ok (missing_entry_of <$> filter (λ d, needs_refill d = true) data)).
  { apply IH. intros d' Hd'. apply Ht. by apply elem_of_cons; right. }
  cbn [_identify_missing_data]. rewrite filter_cons.
  destruct (decide (needs_refill d = true)) as [Hn|Hn].
  - destruct (Ht d) as [t Hd]; [apply elem_of_cons; by left|done|].
    unfold needs_refill in Hn. apply negb_true_iff in Hn.
    rewrite Hn, Hd, IH'. simpl. unfold missing_entry_of at 2. by rewrite Hd.
  - unfold needs_refill in Hn. apply not_true_is_false, negb_false_iff in Hn.
    by rewrite Hn.
Qed.

(** X11. [DataCache._identify_missing_data] lists exactly the records
    that miss a field (an expected move of "N/A", no current vol, a term
    structure of 0 or "N/A"), in their order, each with its ticker, its
    missing fields and its earnings time ("Unknown" when absent).  So the
    list is empty exactly when no record misses a field.  It raises, a
    [KeyError], exactly when a record that misses a field has no
    ticker. *)
Theorem identify_missing_data_spec (data : list dict) :
  ((∀ d, d ∈ data → needs_refill d = true → is_Some (d !! "ticker")) →
   _identify_missing_data data
   = Ok (missing_entry_of <$> filter (λ d, needs_refill d = true) data))
  ∧ (_identify_missing_data data = Ok []
     ↔ ∀ d, d ∈ data → missing_fields_of d = [])
  ∧ ((∃ d, d ∈ data ∧ needs_refill d = true ∧ d !! "ticker" = None)
     ↔ _identify_missing_data data = Raise "KeyError: 'ticker'").
Proof.
  split; [apply identify_filter|]. split.
  - induction data as [|d data IH]; simpl.
    + split; [|done]. intros _ d Hd. by apply elem_of_nil in Hd.
    + case_bool_decide as Hmf.
      * rewrite IH. split.
        -- intros Hall d' Hd'. apply elem_of_cons in Hd' as [->|Hd']; auto.
        -- intros Hall d' Hd'. apply Hall. apply elem_of_cons; by right.
      * split.
        -- destruct (d !! "ticker"); [|done].
           by destruct (_identify_missing_data data).
        -- intros Hall. exfalso. apply Hmf, Hall. apply elem_of_cons; by left.
  - induction data as [|d data IH]; simpl.
    + split; [|done]. intros (d & Hd & _). by apply elem_of_nil in Hd.
    + unfold needs_refill in *. case_bool_decide as Hmf.
      * rewrite <- IH. split.
        -- intros (d' & Hd' & Hn & Ht). exists d'.
           apply elem_of_cons in Hd' as [->|Hd']; [|done].
           rewrite bool_decide_true in Hn by done. done.
        -- intros (d' & Hd' & Hn & Ht). exists d'. split; [|done].
           apply elem_of_cons; by right.
      * destruct (d !! "ticker") as [t|] eqn:Ht.
        -- split.
           ++ intros (d' & Hd' & Hn & Ht').
              apply elem_of_cons in Hd' as [->|Hd']; [congruence|].
              assert (Hr : _identify_missing_data data
                           = Raise "KeyError: 'ticker'").
              { apply IH. eauto. }
              by rewrite Hr.
           ++ destruct (_identify_missing_data data) as [md|e] eqn:Hi;
                [done|]. simpl. intros [= ->].
              destruct (proj2 IH eq_refl) as (d' & Hd' & Hn & Ht').
              exists d'. split; [apply elem_of_cons; by right|done].
        -- split; [done|]. intros _. exists d.
           split; [apply elem_of_cons; by left|].
           split; [by rewrite bool_decide_false|done].
Qed.

(** X12. A lookup with [DataCache.get_data] touches no file but the one
    of its key, and that one it can only delete: every other file is as
    before.  After a miss the list of missing data is empty.  A hit is
    the stored data of a readable file younger than seven days.  Looking
    up again at the same time gives the same answer and changes nothing
    more. *)
Theorem get_data_frame (now : Z) (fs : gmap string file) (date : string)
  (tickers : list string) :
  let cp := _get_cache_path (_get_cache_key date tickers) in
  let r := get_data now fs date tickers in
  (∀ name, name ≠ cp → r.2 !! name = fs !! name)
  ∧ (r.2 !! cp = fs !! cp ∨ r.2 !! cp = None)
  ∧ (r.1.1 = None → r.1.2 = [])
  ∧ (∀ data, r.1.1 = Some data →
       ∃ c, fs !! cp = Some (Pickled c) ∧ c_data c = data
            ∧ c_missing_data c = r.1.2
            ∧ age_days now (c_timestamp c) < cache_expiry_days
            ∧ r.2 = fs)
  ∧ get_data now r.2 date tickers = r.
Proof.
  intros cp r. unfold r, get_data. fold cp.
  destruct (fs !! cp) as [[|c]|] eqn:Hcp; simpl.
  - rewrite Hcp. repeat split; auto. done.
  - destruct (Z.leb_spec cache_expiry_days (age_days now (c_timestamp c)))
      as [Hold|Hnew]; simpl.
    + rewrite lookup_delete_eq. repeat split; auto.
      * intros name Hne. by apply lookup_delete_ne.
      * done.
    + rewrite Hcp. simpl.
      destruct (Z.leb_spec cache_expiry_days (age_days now (c_timestamp c)));
        [lia|].
      repeat split; auto; [done|]. intros data [= <-]. exists c. auto.
  - rewrite Hcp. repeat split; auto. done.
Qed.

Lemma backfill_field_other (e : dict) (kv : string * pyval) (k : string) :
  kv.1 ≠ k → backfill_field e kv !! k = e !! k.
Proof.
  intros Hne. unfold backfill_field.
  destruct (e !! kv.1) as [old|]; [|done].
  destruct (is_sentinel old); [|done]. by apply lookup_insert_ne.
Qed.

Lemma foldl_backfill_other (l : list (string * pyval)) (e : dict) (k : string) :
  k ∉ l.*1 → foldl backfill_field e l !! k = e !! k.
Proof.
  revert e; induction l as [|kv l IH]; intros e Hk; [done|].
  rewrite fmap_cons, not_elem_of_cons in Hk. destruct Hk as [Hne Hk].
  simpl. rewrite IH by done. apply backfill_field_other. congruence.
Qed.

Lemma foldl_backfill_at (l : list (string * pyval)) (e : dict) (k : string)
  (old v : pyval) :
  NoDup (l.*1) → (k, v) ∈ l → e !! k = Some old →
  foldl backfill_field e l !! k = Some (if is_sentinel old then v else old).
Proof.
  revert e; induction l as [|kv l IH]; intros e Hnd Hin He.
  - by apply elem_of_nil in Hin.
  - rewrite fmap_cons in Hnd. apply NoDup_cons in Hnd as [Hk Hnd].
    simpl. apply elem_of_cons in Hin as [<-|Hin].
    + rewrite foldl_backfill_other by exact Hk.
      unfold backfill_field. simpl. rewrite He.
      destruct (is_sentinel old); [apply lookup_insert_eq|done].
    + apply IH; [done|done|].
      rewrite backfill_field_other; [done|].
      intros Heq. apply Hk. rewrite Heq.
      apply (list_elem_of_fmap_2 fst l (k, v)). exact Hin.
Qed.

(** The fields of an entry after the loop of lines 656-658. *)
Lemma backfill_lookup (new_data e : dict) (k : string) :
  foldl backfill_field e (map_to_list new_data) !! k
  = match e !! k, new_data !! k with
    | Some old, Some v => Some (if is_sentinel old then v else old)
    | o, _ => o
    end.
Proof.
  destruct (new_data !! k) as [v|] eqn:Hn.
  - destruct (e !! k) as [old|] eqn:He.
    + apply foldl_backfill_at; [apply NoDup_fst_map_to_list| |done].
      by apply elem_of_map_to_list.
    + clear Hn. revert e He.
      induction (map_to_list new_data) as [|kv l IH]; intros e He; [done|].
      simpl. apply IH. unfold backfill_field.
      destruct (decide (kv.1 = k)) as [->|Hne].
      * by rewrite He.
      * destruct (e !! kv.1) as [o|]; [|done].
        destruct (is_sentinel o); [|done]. by rewrite lookup_insert_ne.
  - rewrite foldl_backfill_other.
    + by destruct (e !! k).
    + rewrite list_elem_of_fmap. intros ([k' v] & -> & Hin).
      apply elem_of_map_to_list in Hin. simpl in Hin, Hn. congruence.
Qed.

Lemma backfill_all_lookup (new_data : dict) (data data' : list dict) :
  backfill_all new_data data = Ok data' →
  length data' = length data
  ∧ ∀ i e, data !! i = Some e →
      ∃ e', data' !! i = Some e' ∧ backfill_entry new_data e = Ok e'.
Proof.
  revert data'; induction data as [|e0 data IH]; intros data'; simpl.
  - intros [= <-]. split; [done|]. intros i e. by rewrite lookup_nil.
  - destruct (backfill_entry new_data e0) as [e0'|] eqn:He0; [|done].
    simpl. destruct (backfill_all new_data data) as [rest|]; [|done].
    simpl. intros [= <-]. destruct (IH rest eq_refl) as [Hlen Hall].
    split; [simpl; lia|]. intros [|i] e; simpl.
    + intros [= <-]. eauto.
    + apply Hall.
Qed.

Lemma backfill_entry_ok (new_data e : dict) (t' : pyval) :
  new_data !! "ticker" = Some t' → is_Some (e !! "ticker") →
  ∃ e' t, backfill_entry new_data e = Ok e' ∧ e !! "ticker" = Some t
    ∧ is_Some (e' !! "ticker")
    ∧ (py_eq t t' = false → e' = e)
    ∧ (py_eq t t' = true → ∀ k,
         e' !! k = match e !! k, new_data !! k with
                   | Some old, Some v =>
                       Some (if is_sentinel old then v else old)
                   | o, _ => o
                   end).
Proof.
  intros Hn [t Ht]. unfold backfill_entry. rewrite Ht, Hn.
  destruct (py_eq t t') eqn:Heq.
  - eexists _, t. split; [done|]. split; [done|].
    split; [|split; [congruence|intros _ k; apply backfill_lookup]].
    rewrite backfill_lookup, Ht, Hn. eauto.
  - exists e, t. repeat split; eauto. congruence.
Qed.

Lemma backfill_all_ok (new_data : dict) (data : list dict) (t' : pyval) :
  new_data !! "ticker" = Some t' →
  (∀ e, e ∈ data → is_Some (e !! "ticker")) →
  ∃ data', backfill_all new_data data = Ok data'
    ∧ ∀ e', e' ∈ data' → is_Some (e' !! "ticker").
Proof.
  intros Hn. induction data as [|e data IH]; intros Hall; simpl.
  - exists []. split; [done|]. intros e' He'. by apply elem_of_nil in He'.
  - destruct (backfill_entry_ok new_data e t' Hn) as (e' & t & -> & _ & Ht & _).
    { apply Hall, elem_of_cons. by left. }
    destruct IH as (data' & -> & Hall').
    { intros e0 He0. apply Hall, elem_of_cons. by right. }
    simpl. eexists; split; [done|].
    intros e0 He0. apply elem_of_cons in He0 as [->|He0]; auto.
Qed.

Lemma backfill_all_raises (new_data : dict) (data : list dict) :
  (∃ e, e ∈ data ∧ e !! "ticker" = None) →
  ∃ msg, backfill_all new_data data = Raise msg.
Proof.
  induction data as [|e0 data IH]; intros (e & He & Ht).
  - by apply elem_of_nil in He.
  - simpl. destruct (backfill_entry new_data e0) as [e0'|msg] eqn:H0;
      [|simpl; eauto].
    apply elem_of_cons in He as [->|He].
    + unfold backfill_entry in H0. by rewrite Ht in H0.
    + destruct IH as [msg ->]; [eauto|]. simpl. eauto.
Qed.

(** X13. What [DataCache.update_missing_data] writes, when the stored
    records and [new_data] all have a ticker.  The file of the key is
    rewritten with the same timestamp, date and tickers and as many
    records; its list of missing data is recomputed from the new
    records.  A record of another ticker is unchanged.  In a record of
    the ticker of [new_data], a field holding "N/A", [None] or 0 takes
    the value [new_data] has for it; a field that [new_data] does not
    have, or that holds anything else, is unchanged; no field is
    added. *)
Theorem update_missing_data_fills (fs : gmap string file) (date : string)
  (tickers : list string) (new_data : dict) (c : cache) (t' : pyval) :
  let cp := _get_cache_path (_get_cache_key date tickers) in
  fs !! cp = Some (Pickled c) →
  new_data !! "ticker" = Some t' →
  (∀ e, e ∈ c_data c → is_Some (e !! "ticker")) →
  ∃ c', update_missing_data fs date tickers new_data = <[cp := Pickled c']> fs
    ∧ c_timestamp c' = c_timestamp c ∧ c_date c' = c_date c
    ∧ c_tickers c' = c_tickers c
    ∧ _identify_missing_data (c_data c') = Ok (c_missing_data c')
    ∧ length (c_data c') = length (c_data c)
    ∧ ∀ i e, c_data c !! i = Some e →
        ∃ e' t, c_data c' !! i = Some e' ∧ e !! "ticker" = Some t
          ∧ (py_eq t t' = false → e' = e)
          ∧ (py_eq t t' = true → ∀ k,
               e' !! k = match e !! k, new_data !! k with
                         | Some old, Some v =>
                             Some (if is_sentinel old then v else old)
                         | o, _ => o
                         end).
Proof.
  intros cp Hcp Hn Hall. unfold update_missing_data. fold cp. rewrite Hcp.
  destruct (backfill_all_ok new_data (c_data c) t' Hn Hall)
    as (data' & Hb & Hall').
  rewrite Hb. cbn [exc_bind].
  rewrite (identify_filter data') by (intros d Hd _; by apply Hall').
  cbn [exc_bind]. eexists. split; [reflexivity|]. simpl.
  repeat split.
  - apply identify_filter. intros d Hd _. by apply Hall'.
  - by destruct (backfill_all_lookup _ _ _ Hb).
  - intros i e Hi.
    destruct (backfill_all_lookup _ _ _ Hb) as [_ Hlook].
    destruct (Hlook i e Hi) as (e' & Hi' & He').
    destruct (backfill_entry_ok new_data e t' Hn) as (e2 & t & He2 & Ht & _ & Hrest).
    { apply Hall. by eapply list_elem_of_lookup_2. }
    rewrite He2 in He'. injection He' as ->.
    exists e', t. auto.
Qed.

Lemma update_missing_data_fills_witness :
  let cp := "3e76468b88523d2a7a7f16f3e3c6fd96.pkl" in
  ∃ c', update_missing_data Sample.stored_files "2024-03-01" ["AAA"]
          Sample.later_result
        = <[cp := Pickled c']> Sample.stored_files
    ∧ c_timestamp c' = 1709300000 ∧ c_date c' = "2024-03-01"
    ∧ c_tickers c' = ["AAA"]
    ∧ _identify_missing_data (c_data c') = Ok (c_missing_data c')
    ∧ length (c_data c') = 1%nat
    ∧ ∀ i e, [Sample.stored_entry] !! i = Some e →
        ∃ e' t, c_data c' !! i = Some e' ∧ e !! "ticker" = Some t
          ∧ (py_eq t (VStr "AAA") = false → e' = e)
          ∧ (py_eq t (VStr "AAA") = true → ∀ k,
               e' !! k = match e !! k, Sample.later_result !! k with
                         | Some old, Some v =>
                             Some (if is_sentinel old then v else old)
                         | o, _ => o
                         end).
Proof.
  intros cp.
  apply (update_missing_data_fills Sample.stored_files "2024-03-01" ["AAA"]
           Sample.later_result Sample.stored_cache (VStr "AAA")).
  - vm_compute. reflexivity.
  - vm_compute. reflexivity.
  - intros e He. apply list_elem_of_singleton in He as ->.
    exists (VStr "AAA"). vm_compute. reflexivity.
Defined.

(** X14. [DataCache.update_missing_data] never creates or removes a
    file and touches none but the one of its key.  When that file is
    absent or cannot be read, or when one of its records has no ticker,
    nothing is written at all: the [KeyError] that interrupts the loop
    is swallowed and the file on disk keeps its old contents. *)
Theorem update_missing_data_frame (fs : gmap string file) (date : string)
  (tickers : list string) (new_data : dict) :
  let cp := _get_cache_path (_get_cache_key date tickers) in
  let fs' := update_missing_data fs date tickers new_data in
  dom fs' = dom fs
  ∧ (∀ name, name ≠ cp → fs' !! name = fs !! name)
  ∧ (fs !! cp = None ∨ fs !! cp = Some Unreadable → fs' = fs)
  ∧ (∀ c e, fs !! cp = Some (Pickled c) → e ∈ c_data c →
       e !! "ticker" = None → fs' = fs).
Proof.
  intros cp fs'. unfold fs', update_missing_data. fold cp.
  destruct (fs !! cp) as [[|c]|] eqn:Hcp; [by auto| |by auto].
  destruct (backfill_all new_data (c_data c)) as [data'|msg] eqn:Hb;
    cbn [exc_bind]; [|by auto].
  destruct (_identify_missing_data data') as [md|msg]; cbn [exc_bind];
    [|by auto].
  split; [|split; [|split]].
  - rewrite dom_insert_L. apply elem_of_dom_2 in Hcp.
    apply subseteq_union_1_L. by apply singleton_subseteq_l.
  - intros name Hne. by apply lookup_insert_ne.
  - intros [?|?]; done.
  - intros c0 e [= <-] He Ht.
    destruct (backfill_all_raises new_data (c_data c)) as [msg Hr];
      [eauto|]. congruence.
Qed.

(** X15. An invariant of the cache directory: in every readable cache
    file the stored list of missing data is the one
    [_identify_missing_data] computes from the stored records.
    [save_data], [update_missing_data], [get_data] and [clear_expired]
    all preserve it, so a stored empty list does mean that no stored
    record misses a field. *)
Theorem cache_files_consistent (fs : gmap string file) :
  all_consistent fs →
  (∀ now date tickers data fs',
     save_data now fs date tickers data = Ok fs' → all_consistent fs')
  ∧ (∀ date tickers new_data,
       all_consistent (update_missing_data fs date tickers new_data))
  ∧ (∀ now date tickers, all_consistent (get_data now fs date tickers).2)
  ∧ (∀ now, all_consistent (clear_expired now fs)).
Proof.
  intros Hfs. split; [|split; [|split]].
  - intros now date tickers data fs' Hsave. unfold save_data in Hsave.
    destruct (_identify_missing_data data) as [md|] eqn:Hmd; [|done].
    simpl in Hsave. injection Hsave as <-. intros name c Hc.
    apply lookup_insert_Some in Hc as [[_ [= <-]]|[_ Hc]]; [done|].
    by eapply Hfs.
  - intros date tickers new_data. unfold update_missing_data.
    destruct (fs !! _) as [[|c]|]; [done| |done].
    destruct (backfill_all new_data (c_data c)) as [data'|]; [|done].
    cbn [exc_bind].
    destruct (_identify_missing_data data') as [md|] eqn:Hmd; [|done].
    cbn [exc_bind]. intros name c0 Hc.
    apply lookup_insert_Some in Hc as [[_ [= <-]]|[_ Hc]]; [done|].
    by eapply Hfs.
  - intros now date tickers. unfold get_data.
    destruct (fs !! _) as [[|c]|]; [done| |done].
    destruct (_ <=? _); [|done]. intros name c0 Hc. simpl in Hc.
    apply lookup_delete_Some in Hc as [_ Hc]. by eapply Hfs.
  - intros now name c Hc. unfold clear_expired in Hc.
    apply map_lookup_filter_Some in Hc as [Hc _]. by eapply Hfs.
Qed.

Lemma cache_files_consistent_witness :
  (∀ now date tickers data fs',
     save_data now Sample.stored_files date tickers data = Ok fs' →
     all_consistent fs')
  ∧ (∀ date tickers new_data,
       all_consistent
         (update_missing_data Sample.stored_files date tickers new_data))
  ∧ (∀ now date tickers,
       all_consistent (get_data now Sample.stored_files date tickers).2)
  ∧ (∀ now, all_consistent (clear_expired now Sample.stored_files)).
Proof.
  apply (cache_files_consistent Sample.stored_files).
  intros name c Hc. unfold Sample.stored_files in Hc.
  apply lookup_singleton_Some in Hc as [_ [= <-]].
  vm_compute. reflexivity.
Defined.

(** X16. The sweep [DataCache.clear_expired] only removes files, and
    only files whose name ends in [.pkl]: any other file stays, and a
    file that stays is unchanged.  Afterwards every [.pkl] file is
    readable and younger than seven days, and every such file of before
    is still there.  Sweeping twice is sweeping once, and a lookup after
    the sweep answers what it would have answered before it. *)
Theorem clear_expired_spec (now : Z) (fs : gmap string file) :
  let fs' := clear_expired now fs in
  (∀ name f, fs' !! name = Some f → fs !! name = Some f)
  ∧ (∀ name, is_pkl name = false → fs' !! name = fs !! name)
  ∧ (∀ name f, is_pkl name = true → fs' !! name = Some f →
       ∃ c, f = Pickled c ∧ age_days now (c_timestamp c) < cache_expiry_days)
  ∧ (∀ name c, fs !! name = Some (Pickled c) →
       age_days now (c_timestamp c) < cache_expiry_days →
       fs' !! name = Some (Pickled c))
  ∧ clear_expired now fs' = fs'
  ∧ (∀ date tickers,
       (get_data now fs' date tickers).1 = (get_data now fs date tickers).1).
Proof.
  intros fs'. unfold fs', clear_expired.
  assert (Hkeep : ∀ name c, fs !! name = Some (Pickled c) →
            age_days now (c_timestamp c) < cache_expiry_days →
            filter (λ nf : string * file, swept now nf.1 nf.2 = false) fs
              !! name = Some (Pickled c)).
  { intros name c Hc Hage. apply map_lookup_filter_Some. split; [done|].
    unfold swept. simpl.
    destruct (Z.leb_spec cache_expiry_days (age_days now (c_timestamp c)));
      [lia|]. apply andb_false_r. }
  split; [|split; [|split; [|split; [|split]]]].
  - intros name f Hf. by apply map_lookup_filter_Some in Hf as [? _].
  - intros name Hp. destruct (fs !! name) as [f|] eqn:Hf.
    + apply map_lookup_filter_Some. split; [done|].
      unfold swept. simpl. by rewrite Hp.
    + apply map_lookup_filter_None. by left.
  - intros name f Hp Hf. apply map_lookup_filter_Some in Hf as [Hf Hs].
    unfold swept in Hs. simpl in Hs. rewrite Hp in Hs. simpl in Hs.
    destruct f as [|c]; [done|]. exists c. split; [done|].
    by apply Z.leb_gt in Hs.
  - exact Hkeep.
  - apply map_filter_id. intros name f Hf.
    by apply map_lookup_filter_Some in Hf as [_ Hs].
  - intros date tickers. unfold get_data.
    set (cp := _get_cache_path (_get_cache_key date tickers)).
    destruct (fs !! cp) as [[|c]|] eqn:Hcp.
    + rewrite (proj2 (map_lookup_filter_None _ fs cp)); [done|].
      right. intros f Hf. rewrite Hcp in Hf. injection Hf as <-.
      unfold swept. simpl. unfold cp. by rewrite is_pkl_cache_path.
    + destruct (Z.leb_spec cache_expiry_days (age_days now (c_timestamp c)))
        as [Hold|Hnew].
      * rewrite (proj2 (map_lookup_filter_None _ fs cp)); [done|].
        right. intros f Hf. rewrite Hcp in Hf. injection Hf as <-.
        unfold swept. simpl. unfold cp. rewrite is_pkl_cache_path. simpl.
        intros Hs. apply Z.leb_gt in Hs. lia.
      * rewrite (Hkeep cp c Hcp Hnew).
        by destruct (Z.leb_spec cache_expiry_days
                       (age_days now (c_timestamp c))); [lia|].
    + rewrite (proj2 (map_lookup_filter_None _ fs cp)); [done|]. by left.
Qed.

End CacheProperties.

(** ** The earnings calendar and the scan *)

Section ScanProperties.

Import OptionsAnalyzer EarningsCalendarFetcher EnhancedEarningsScanner.

Lemma times_of_snoc rows tk t :
  times_of (rows ++ [(tk, t)]) = <[tk := t]> (times_of rows).
Proof. unfold times_of. by rewrite foldl_app. Qed.

Lemma times_of_lookup rows tk :
  (tk ∉ rows.*1 → times_of rows !! tk = None)
  ∧ (∀ l1 t l2, rows = l1 ++ (tk, t) :: l2 → tk ∉ l2.*1 →
       times_of rows !! tk = Some t).
Proof.
  induction rows as [|[k v] rows IH] using rev_ind.
  - split; [done|]. intros l1 t l2 H. by destruct l1.
  - rewrite times_of_snoc. destruct IH as [IHn IHs]. split.
    + rewrite fmap_app, elem_of_app. simpl. intros Hn.
      rewrite lookup_insert_ne; [apply IHn; tauto|].
      intros ->. apply Hn. right. apply list_elem_of_singleton. done.
    + intros l1 t l2 Heq Hl2.
      destruct l2 as [|x l2 _] using rev_ind.
      * simpl in Heq. apply app_inj_tail in Heq as [_ Heq].
        injection Heq as -> ->. apply lookup_insert_eq.
      * rewrite app_comm_cons, app_assoc in Heq.
        apply app_inj_tail in Heq as [Heq <-]. subst rows.
        rewrite fmap_app, elem_of_app in Hl2. simpl in Hl2.
        rewrite lookup_insert_ne.
        -- eapply IHs; [done|tauto].
        -- intros ->. apply Hl2. right. by apply list_elem_of_singleton.
Qed.

(** X17. [EarningsCalendarFetcher.fetch_earnings_data] never raises.
    It asks for the calendar at most three times, with one session
    rotation between two requests, and leaves the cache directory alone.
    When a request succeeds it returns the tickers of the rows, in their
    order, and the earnings times are replaced by those of the rows:
    [get_earnings_time] then gives a ticker the timing of its last row,
    and "Unknown" to any ticker that is in no row.  After three failures
    it returns the empty list and the earnings times of the previous
    fetch stay as they were. *)
Theorem fetch_earnings_data_outcome mk date s :
  let q := ReqCalendar date in
  let r := fetch_earnings_data mk date s in
  files r.2 = files s
  ∧ ∃ tickers n, r.1 = Ok tickers ∧ (1 ≤ n ≤ 3)%nat
      ∧ log r.2 = tries q n ++ log s
      ∧ ((∃ rows, calendar_of mk date (tail (tries q n) ++ log s) = Ok rows
            ∧ tickers = rows.*1
            ∧ earnings_times r.2 = times_of rows
            ∧ ∀ tk,
                (tk ∉ tickers → get_earnings_time tk r.2 = (Ok "Unknown", r.2))
                ∧ (∀ l1 t l2, rows = l1 ++ (tk, t) :: l2 → tk ∉ l2.*1 →
                     get_earnings_time tk r.2 = (Ok t, r.2)))
         ∨ (n = 3%nat ∧ tickers = []
            ∧ earnings_times r.2 = earnings_times s
            ∧ ∃ e, calendar_of mk date (tail (tries q n) ++ log s) = Raise e)).
Proof.
  intros q r.
  assert (Hget : ∀ rows s', earnings_times s' = times_of rows →
            ∀ tk,
              (tk ∉ rows.*1 → get_earnings_time tk s' = (Ok "Unknown", s'))
              ∧ (∀ l1 t l2, rows = l1 ++ (tk, t) :: l2 → tk ∉ l2.*1 →
                   get_earnings_time tk s' = (Ok t, s'))).
  { intros rows s' Hs' tk. unfold get_earnings_time. rewrite Hs'.
    destruct (times_of_lookup rows tk) as [Hn Hs]. split.
    - intros Htk. by rewrite Hn.
    - intros l1 t l2 Hrows Hl2. by rewrite (Hs l1 t l2 Hrows Hl2). }
  unfold r, fetch_earnings_data, fetch_loop, try_except, bind,
    fetch, record_times, ret, rotate_session. simpl. fold q.
  destruct (calendar_of mk date (log s)) as [rows1|e1] eqn:H1; simpl.
  { split; [done|]. exists (rows1.*1), 1%nat. simpl.
    split; [done|]. split; [lia|]. split; [done|]. left.
    exists rows1. repeat split; try done; by apply Hget. }
  destruct (calendar_of mk date (RotatedSession :: Fetched q :: log s))
    as [rows2|e2] eqn:H2; simpl.
  { split; [done|]. exists (rows2.*1), 2%nat. simpl.
    split; [done|]. split; [lia|]. split; [done|]. left.
    exists rows2. repeat split; try done; by apply Hget. }
  destruct (calendar_of mk date (RotatedSession :: Fetched q
              :: RotatedSession :: Fetched q :: log s))
    as [rows3|e3] eqn:H3; simpl.
  { split; [done|]. exists (rows3.*1), 3%nat. simpl.
    split; [done|]. split; [lia|]. split; [done|]. left.
    exists rows3. repeat split; try done; by apply Hget. }
  split; [done|]. exists [], 3%nat. simpl.
  split; [done|]. split; [lia|]. split; [done|]. right. eauto 10.
Qed.

Lemma is_record_dom (ticker : string) (d : dict) :
  is_record ticker d → dom d = record_keys.
Proof.
  intros [(cp & tv & hv & ->)|(cp & tv & hv & mc & et & rec & od & ->)];
    unfold degraded_record, full_record; by rewrite dom_list_to_map_L.
Qed.

Lemma is_record_recommendation (ticker : string) (d : dict) :
  is_record ticker d →
  ∃ rec, d !! "recommendation" = Some (VStr (rec_string rec)).
Proof.
  intros [(cp & tv & hv & ->)|(cp & tv & hv & mc & et & rec & od & ->)].
  - exists Avoid. by destruct (degraded_record_fields ticker cp tv hv) as (_ & ? & _).
  - exists rec. by destruct (full_record_fields ticker cp tv hv mc et rec od)
      as (_ & ? & _).
Qed.

(** X18. [EnhancedEarningsScanner.analyze_stock] never raises and only
    talks to the network: the cache directory and the earnings times are
    as before.  It returns [None] or a record of exactly the fifteen
    fields of a result row, whose ticker is the symbol analysed and whose
    recommendation is "Recommended", "Consider" or "Avoid"; such a
    record is never empty, so the scan keeps it. *)
Theorem analyze_stock_record (mk : market) (ticker : string)
  (history_data : option history) (s : state) :
  let run := analyze_stock mk ticker history_data s in
  (∃ r, run.1 = Ok r
        ∧ ∀ d, r = Some d →
            dom d = record_keys
            ∧ d !! "ticker" = Some (VStr ticker)
            ∧ (∃ rec, d !! "recommendation" = Some (VStr (rec_string rec)))
            ∧ truthy_result r = true)
  ∧ files run.2 = files s
  ∧ earnings_times run.2 = earnings_times s
  ∧ ∃ evs, log run.2 = evs ++ log s.
Proof.
  intros run. split; [|apply network_only_analyze_stock].
  unfold run.
  destruct (analyze_stock_returns mk ticker history_data s)
    as (r & s' & -> & Hcase).
  exists r. split; [done|]. intros d ->.
  destruct Hcase as [?|(d' & [= <-] & Hrec)]; [done|].
  destruct (is_record_has_keys ticker d Hrec) as [Hk Ht].
  split; [by eapply is_record_dom|]. split; [done|].
  split; [by eapply is_record_recommendation|]. by apply has_keys_truthy.
Qed.

(** X19. Which result rows the cache lists as incomplete.  The row that
    [analyze_stock] builds when the options computation gave no data
    always misses all three tracked fields, so
    [_identify_missing_data] lists it and the next scan analyses its
    ticker again.  A row built from options data misses the expected
    move when it is "N/A", the current vol when there is none, and the
    term structure when the 30-day vol is zero. *)
Theorem record_missing_fields (ticker : string) (cp tv hv : pyfloat)
  (mc : pyval) (et : string) (rec : recommendation) (od : rec_data) :
  DataCache.missing_fields_of (degraded_record ticker cp tv hv)
  = ["expected_move"; "current_iv"; "term_structure"]
  ∧ needs_refill (degraded_record ticker cp tv hv) = true
  ∧ DataCache.missing_fields_of (full_record ticker cp tv hv mc et rec od)
    = (if String.eqb (od_expected_move od) "N/A" then ["expected_move"] else [])
      ++ (if od_current_iv od is None then ["current_iv"] else [])
      ++ (if feqb (od_term_structure od) (Fin 0)
          then ["term_structure"] else []).
Proof.
  split; [vm_compute; reflexivity|]. split; [vm_compute; reflexivity|].
  unfold DataCache.missing_fields_of, DataCache.dict_get.
  replace (full_record ticker cp tv hv mc et rec od !! "expected_move")
    with (Some (VStr (od_expected_move od))) by (vm_compute; reflexivity).
  replace (full_record ticker cp tv hv mc et rec od !! "current_iv")
    with (Some (opt_num (od_current_iv od))) by (vm_compute; reflexivity).
  replace (full_record ticker cp tv hv mc et rec od !! "term_structure")
    with (Some (VNum (od_term_structure od))) by (vm_compute; reflexivity).
  unfold default, id. cbn [DataCache.py_eq DataCache.as_num].
  rewrite orb_false_r. by destruct (od_current_iv od).
Qed.

Lemma String_ltb_asym (a b : string) :
  String.ltb a b = true → String.ltb b a = false.
Proof.
  unfold String.ltb. rewrite (String.compare_antisym a b).
  by destruct (String.compare b a).
Qed.

Lemma key_lt_asym (a b : sort_key) : key_lt a b = true → key_lt b a = false.
Proof.
  destruct a as [[[a1 a2] a3] a4], b as [[[b1 b2] b3] b4]. unfold key_lt.
  rewrite (String.eqb_sym b3 a3).
  destruct a1, b1, a2, b2; simpl; try done;
    destruct (String.eqb a3 b3); simpl; apply String_ltb_asym.
Qed.

Lemma key_leb_total (a b : sort_key * dict) :
  key_leb a b = true ∨ key_leb b a = true.
Proof.
  unfold key_leb. destruct (key_lt b.1 a.1) eqn:H; [|by left].
  right. by rewrite (key_lt_asym _ _ H).
Qed.

Lemma keys_of_Forall (l : list dict) (ks : list (sort_key * dict)) :
  keys_of l = Ok ks → ks.*2 = l ∧ Forall (λ k, key_of k.2 = Ok k) ks.
Proof.
  revert ks; induction l as [|x l IH]; intros ks; simpl.
  - intros [= <-]. by split.
  - destruct (key_of x) as [k|] eqn:Hk; [|done]. simpl.
    destruct (keys_of l) as [ks'|]; [|done]. simpl. intros [= <-].
    destruct (IH ks' eq_refl) as [Hsnd Hall].
    assert (Hx : k.2 = x).
    { unfold key_of in Hk. destruct (x !! "recommendation"); [|done].
      destruct (as_str (x !! "earnings_time")); [|done].
      destruct (as_str (x !! "ticker")); [|done]. simpl in Hk.
      by injection Hk as <-. }
    split; [rewrite fmap_cons; by f_equal|]. constructor; [by rewrite Hx|done].
Qed.

Lemma keys_of_snd (ks : list (sort_key * dict)) :
  Forall (λ k, key_of k.2 = Ok k) ks → keys_of (ks.*2) = Ok ks.
Proof.
  induction 1 as [|k ks Hk Hall IH]; [done|].
  rewrite fmap_cons. cbn [keys_of]. rewrite Hk. cbn [exc_bind].
  rewrite IH. done.
Qed.

Lemma key_of_not_recommended (d : dict) (k : sort_key * dict) :
  key_of d = Ok k → k.1.1.1.1 = not_recommended d.
Proof.
  unfold key_of, not_recommended.
  destruct (d !! "recommendation"); [|done].
  destruct (as_str (d !! "earnings_time")); [|done].
  destruct (as_str (d !! "ticker")); [|done]. simpl. by intros [= <-].
Qed.

Lemma key_leb_first (a b : sort_key * dict) :
  key_leb a b = true → a.1.1.1.1 = true → b.1.1.1.1 = true.
Proof.
  unfold key_leb, key_lt.
  destruct a as [[[[a1 a2] a3] a4] da], b as [[[[b1 b2] b3] b4] db]. simpl.
  intros H ->. destruct b1; [done|]. done.
Qed.

(** The run of a fresh scan: the analyses, the sort, the save. *)
Lemma scan_fresh_run (mk : market) (ds : string) (e_stocks : list string)
  (s : state) :
  ∃ recommended ks md s1,
    scan_batches mk (chunks batch_size e_stocks) [] s = (Ok recommended, s1)
    ∧ files s1 = files s ∧ earnings_times s1 = earnings_times s
    ∧ keys_of recommended = Ok ks
    ∧ DataCache._identify_missing_data ((sorted key_leb ks).*2) = Ok md
    ∧ scan_fresh mk ds e_stocks s
      = (Ok ((sorted key_leb ks).*2),
         set_files
           (<[DataCache._get_cache_path (DataCache._get_cache_key ds e_stocks)
              := Pickled {| c_timestamp := now mk (log s1); c_date := ds;
                            c_tickers := e_stocks;
                            c_data := (sorted key_leb ks).*2;
                            c_missing_data := md |}]> (files s1)) s1).
Proof.
  destruct (scan_batches_spec mk (chunks batch_size e_stocks) [] s)
    as (outs & s1 & Hrun & Hfst & Hall).
  destruct (network_only_scan_batches mk (chunks batch_size e_stocks) [] s)
    as (Hf & He & _).
  rewrite Hrun in Hf, He. simpl in Hf, He, Hrun.
  assert (Hkeys : Forall has_keys (omap id (outs.*2))).
  { apply Forall_forall. intros d Hd.
    apply list_elem_of_omap in Hd as (r & Hr & Hrd). simpl in Hrd. subst r.
    apply list_elem_of_fmap in Hr as (o & Ho & Hin).
    rewrite Forall_forall in Hall.
    eapply is_record_has_keys, outcome_record; eauto. }
  destruct (keys_of_records _ Hkeys) as (ks & Hks & Hsnd).
  assert (Hkeys' : Forall has_keys ((sorted key_leb ks).*2)).
  { by rewrite (sorted_Permutation key_leb ks), Hsnd. }
  destruct (identify_returns _ Hkeys') as [md Hmd].
  exists (omap id (outs.*2)), ks, md, s1.
  split; [done|]. split; [done|]. split; [done|]. split; [done|].
  split; [done|].
  unfold scan_fresh, bind at 1. rewrite Hrun.
  unfold bind at 1, lift, sort_results. rewrite Hks. cbn [exc_bind].
  unfold bind, cache_save, DataCache.save_data. rewrite Hmd. reflexivity.
Qed.

(** X20. The result of a fresh scan is sorted by the key of lines
    791-796: every row is at most the row after it, by the tuple
    (not recommended, timing unknown, timing, ticker).  In particular
    the rows recommended "Recommended" come before all the others. *)
Theorem scan_fresh_sorted (mk : market) (ds : string)
  (e_stocks : list string) (s : state) :
  ∃ res ks,
    (scan_fresh mk ds e_stocks s).1 = Ok res
    ∧ keys_of res = Ok ks
    ∧ Sorted (le_of key_leb) ks
    ∧ ∀ i j d1 d2, res !! i = Some d1 → res !! j = Some d2 → (i < j)%nat →
        not_recommended d1 = true → not_recommended d2 = true.
Proof.
  destruct (scan_fresh_run mk ds e_stocks s)
    as (recommended & ks & md & s1 & _ & _ & _ & Hks & _ & ->).
  exists ((sorted key_leb ks).*2), (sorted key_leb ks). simpl.
  split; [done|].
  destruct (keys_of_Forall _ _ Hks) as [_ Hall].
  assert (Hall' : Forall (λ k, key_of k.2 = Ok k) (sorted key_leb ks)).
  { by rewrite (sorted_Permutation key_leb ks). }
  split; [by apply keys_of_snd|].
  pose proof (sorted_Sorted key_leb key_leb_total ks) as Hs.
  split; [exact Hs|].
  set (R := λ a b : sort_key * dict, a.1.1.1.1 = true → b.1.1.1.1 = true).
  assert (Hss : StronglySorted R (sorted key_leb ks)).
  { apply Sorted_StronglySorted.
    - intros a b c Hab Hbc. unfold R in *. auto.
    - eapply Sorted_mono; [|exact Hs]. intros a b Hab. unfold R.
      by apply key_leb_first. }
  intros i j d1 d2 Hi Hj Hij.
  rewrite list_lookup_fmap in Hi, Hj.
  destruct (sorted key_leb ks !! i) as [k1|] eqn:Hk1; [|done].
  destruct (sorted key_leb ks !! j) as [k2|] eqn:Hk2; [|done].
  simpl in Hi, Hj. injection Hi as <-. injection Hj as <-.
  rewrite Forall_forall in Hall'.
  rewrite <- (key_of_not_recommended k1.2 k1),
          <- (key_of_not_recommended k2.2 k2);
    [|apply Hall'; by eapply list_elem_of_lookup_2..].
  clear -Hss Hk1 Hk2 Hij. revert i j Hk1 Hk2 Hij.
  induction Hss as [|x l Hss IH Hx]; intros i j Hk1 Hk2 Hij.
  - by rewrite lookup_nil in Hk1.
  - destruct j as [|j]; [lia|]. destruct i as [|i]; simpl in *.
    + injection Hk1 as ->. rewrite Forall_forall in Hx.
      apply Hx. by eapply list_elem_of_lookup_2.
    + eapply IH; eauto. lia.
Qed.

(** X21. A fresh scan writes its result to the cache and does nothing
    else to the directory: the file of the key of the date and the
    symbols holds the returned rows, stamped with the time of the save,
    and the list of their missing fields; every other file and the
    earnings times are as before.  So a lookup for the same date and
    symbols less than seven days later returns these rows. *)
Theorem scan_fresh_saves (mk : market) (ds : string)
  (e_stocks : list string) (s : state) :
  let cp := DataCache._get_cache_path (DataCache._get_cache_key ds e_stocks) in
  let s' := (scan_fresh mk ds e_stocks s).2 in
  ∃ res c,
    (scan_fresh mk ds e_stocks s).1 = Ok res
    ∧ files s' = <[cp := Pickled c]> (files s)
    ∧ earnings_times s' = earnings_times s
    ∧ c_data c = res ∧ c_date c = ds ∧ c_tickers c = e_stocks
    ∧ DataCache._identify_missing_data res = Ok (c_missing_data c)
    ∧ ∀ now1 tickers,
        tickers ≡ₚ e_stocks →
        DataCache.age_days now1 (c_timestamp c) < DataCache.cache_expiry_days →
        DataCache.get_data now1 (files s') ds tickers
        = ((Some res, c_missing_data c), files s').
Proof.
  intros cp s'. unfold s'.
  destruct (scan_fresh_run mk ds e_stocks s)
    as (recommended & ks & md & s1 & _ & Hf & He & _ & Hmd & ->).
  fold cp. simpl. rewrite Hf.
  eexists _, _. split; [reflexivity|]. split; [reflexivity|].
  split; [done|]. simpl. repeat split; [done|].
  intros now1 tickers Hp Hage. unfold DataCache.get_data.
  rewrite (cache_key_perm ds tickers e_stocks Hp). fold cp.
  rewrite lookup_insert_eq. simpl.
  destruct (Z.leb_spec DataCache.cache_expiry_days
              (DataCache.age_days now1 (now mk (log s1)))); [lia|done].
Qed.

Lemma chunks_fuel_lookup {A : Type} (fuel n : nat) (l : list A) (i : nat) :
  (0 < n)%nat → (length l ≤ fuel)%nat →
  chunks_fuel fuel n l !! i
  = if (i * n <? length l)%nat then Some (take n (drop (i * n) l)) else None.
Proof.
  intros Hn. revert l i. induction fuel as [|fuel IH]; intros l i Hlen.
  - destruct l; [|simpl in Hlen; lia]. simpl.
    by destruct (Nat.ltb_spec (i * n) 0); [lia|].
  - destruct l as [|a l].
    { simpl. by destruct (Nat.ltb_spec (i * n) 0); [lia|]. }
    change (chunks_fuel (S fuel) n (a :: l))
      with (take n (a :: l) :: chunks_fuel fuel n (drop n (a :: l))).
    destruct i as [|i].
    + simpl. done.
    + cbn [lookup list_lookup]. change (chunks_fuel fuel n (drop n (a :: l)) !! i
        = if (S i * n <? length (a :: l))%nat
          then Some (take n (drop (S i * n) (a :: l))) else None).
      rewrite IH by (rewrite length_drop; simpl in *; lia).
      rewrite length_drop, drop_drop.
      replace (n + i * n)%nat with (S i * n)%nat by lia.
      destruct (Nat.ltb_spec (i * n) (length (a :: l) - n)),
               (Nat.ltb_spec (S i * n) (length (a :: l))); try done; lia.
Qed.

Lemma chunks_fuel_lengths {A : Type} (fuel n : nat) (l : list A) :
  (0 < n)%nat →
  Forall (λ b, (1 ≤ length b ≤ n)%nat) (chunks_fuel fuel n l).
Proof.
  intros Hn. revert l. induction fuel as [|fuel IH]; intros l.
  - destruct l; constructor.
  - destruct l as [|a l]; [constructor|].
    change (chunks_fuel (S fuel) n (a :: l))
      with (take n (a :: l) :: chunks_fuel fuel n (drop n (a :: l))).
    constructor; [|apply IH]. rewrite length_take. simpl. lia.
Qed.

(** X22. The batches of [scan_earnings_stocks] (the slices of lines 745
    and 771): put together again they are the list of symbols, in its
    order; every batch holds at least one and at most ten symbols; and
    batch [i] is the slice of ten symbols that starts at index [10 * i],
    for every [i] with [10 * i] below the length of the list, and there
    is no other batch. *)
Theorem scan_batches_slices {A : Type} (l : list A) :
  concat (chunks batch_size l) = l
  ∧ Forall (λ b, (1 ≤ length b ≤ batch_size)%nat) (chunks batch_size l)
  ∧ ∀ i, chunks batch_size l !! i
         = if (i * batch_size <? length l)%nat
           then Some (take batch_size (drop (i * batch_size) l)) else None.
Proof.
  assert (Hn : (0 < batch_size)%nat) by (unfold batch_size; lia).
  split; [by apply concat_chunks|]. split.
  - by apply chunks_fuel_lengths.
  - intros i. by apply chunks_fuel_lookup.
Qed.

(** X23. [EnhancedEarningsScanner.batch_download_history] never raises
    and makes exactly one request, for all its tickers, without a retry
    or a rotation.  A failed download gives the empty dict.  The dict it
    returns has frames of the requested tickers only; asked for a single
    ticker it returns whatever frame came back for it, even an empty
    one; asked for several it leaves out the tickers whose frame is
    missing or empty. *)
Theorem batch_download_history_spec (mk : market) (tickers : list string)
  (s : state) :
  ∃ hist,
    batch_download_history mk tickers s
    = (Ok hist, add_event (Fetched (ReqDownload tickers)) s)
    ∧ (∀ tk, is_Some (hist !! tk) → tk ∈ tickers)
    ∧ (∀ e, download_of mk tickers (log s) = Raise e → hist = ∅)
    ∧ (∀ data tk, download_of mk tickers (log s) = Ok data →
         tickers = [tk] → hist = {[ tk := default [] (data !! tk) ]})
    ∧ (∀ data, download_of mk tickers (log s) = Ok data →
         length tickers ≠ 1%nat →
         ∀ tk, hist !! tk
               = if bool_decide (tk ∈ tickers)
                 then match data !! tk with
                      | Some df => if bool_decide (df = []) then None
                                   else Some df
                      | None => None
                      end
                 else None).
Proof.
  unfold batch_download_history, try_except, bind, fetch, ret.
  destruct (download_of mk tickers (log s)) as [data|e] eqn:Hd.
  - set (pick := λ (res : gmap string history) (tk : string),
                   match data !! tk with
                   | Some df => if bool_decide (df = []) then res
                                else <[tk := df]> res
                   | None => res
                   end).
    assert (Hfold : ∀ l res tk,
              foldl pick res l !! tk
              = if bool_decide (tk ∈ l)
                then match data !! tk with
                     | Some df => if bool_decide (df = []) then res !! tk
                                  else Some df
                     | None => res !! tk
                     end
                else res !! tk).
    { induction l as [|x l IH]; intros res tk; [done|].
      simpl. rewrite IH.
      assert (Hpick : pick res x !! tk
                = if bool_decide (tk = x)
                  then match data !! tk with
                       | Some df => if bool_decide (df = []) then res !! tk
                                    else Some df
                       | None => res !! tk
                       end
                  else res !! tk).
      { unfold pick. case_bool_decide as Heq.
        - subst x. destruct (data !! tk) as [df|]; [|done].
          case_bool_decide; [done|]. apply lookup_insert_eq.
        - destruct (data !! x) as [df|]; [|done].
          case_bool_decide; [done|]. apply lookup_insert_ne. congruence. }
      rewrite Hpick.
      destruct (decide (tk = x)) as [->|Hne].
      - rewrite (bool_decide_true (x = x)) by done.
        rewrite (bool_decide_true (x ∈ x :: l)) by (apply elem_of_cons; auto).
        destruct (data !! x) as [df|]; [|by destruct (bool_decide (x ∈ l))].
        by destruct (bool_decide (df = [])), (bool_decide (x ∈ l)).
      - rewrite (bool_decide_false (tk = x)) by done.
        destruct (decide (tk ∈ l)) as [Hin|Hnin].
        + rewrite !bool_decide_true; [done|apply elem_of_cons; auto|done].
        + rewrite !bool_decide_false; [done| |done].
          rewrite elem_of_cons. tauto. }
    eexists. split; [reflexivity|]. split; [|split; [done|split]].
    + intros tk [df Hdf]. destruct tickers as [|t1 [|t2 l]].
      * simpl in Hdf. by rewrite lookup_empty in Hdf.
      * apply lookup_singleton_Some in Hdf as [-> _].
        apply elem_of_cons; auto.
      * fold pick in Hdf. rewrite Hfold in Hdf.
        destruct (decide (tk ∈ t1 :: t2 :: l)) as [|Hn]; [done|].
        rewrite (bool_decide_false _ Hn) in Hdf.
        by rewrite lookup_empty in Hdf.
    + intros data' tk [= <-] ->. done.
    + intros data' [= <-] Hlen tk. destruct tickers as [|t1 [|t2 l]].
      * cbn [foldl]. rewrite lookup_empty.
        rewrite bool_decide_false; [done|apply not_elem_of_nil].
      * done.
      * fold pick. rewrite Hfold, lookup_empty.
        destruct (bool_decide (tk ∈ t1 :: t2 :: l)); [|done].
        destruct (data !! tk) as [df|]; [|done].
        by destruct (bool_decide (df = [])).
  - exists ∅. split; [done|]. split; [|split; [done|split; done]].
    intros tk [df Hdf]. by rewrite lookup_empty in Hdf.
Qed.

(** X24. A scan that finds complete results in the cache analyses
    nothing.  When the calendar answers the first request with rows, and
    the cache file of the date and the tickers of the rows is readable,
    younger than seven days, holds at least one row and lists no missing
    data, [scan_earnings_stocks] returns the cached rows as they are;
    its only request is the one for the calendar, and the cache
    directory is unchanged. *)
Theorem scan_cache_hit (mk : market) (date : Z) (s : state)
  (rows : list (string * string)) (c : cache) :
  let ds := strftime mk date in
  let cp := DataCache._get_cache_path (DataCache._get_cache_key ds (rows.*1)) in
  let s1 := set_earnings_times (times_of rows)
              (add_event (Fetched (ReqCalendar ds)) s) in
  calendar_of mk ds (log s) = Ok rows →
  rows ≠ [] →
  files s !! cp = Some (Pickled c) →
  c_data c ≠ [] →
  c_missing_data c = [] →
  DataCache.age_days (now mk (log s1)) (c_timestamp c)
    < DataCache.cache_expiry_days →
  scan_earnings_stocks mk date s = (Ok (Some (c_data c)), s1).
Proof.
  intros ds cp s1 Hcal Hrows Hfile Hdata Hmd Hage.
  unfold scan_earnings_stocks. fold ds.
  unfold bind at 1, fetch_earnings_data, fetch_loop, try_except, bind at 1,
    fetch at 1. cbn [Nat.ltb Nat.leb]. rewrite Hcal.
  unfold bind at 1, record_times, ret at 1. fold (times_of rows). fold s1.
  rewrite bool_decide_false by (by destruct rows).
  unfold bind at 1, cache_get, DataCache.get_data. fold cp.
  change (files s1) with (files s). rewrite Hfile.
  destruct (Z.leb_spec DataCache.cache_expiry_days
              (DataCache.age_days (now mk (log s1)) (c_timestamp c)));
    [lia|].
  destruct (c_data c) as [|r0 rest] eqn:Hc; [done|].
  rewrite Hmd. rewrite bool_decide_true by done.
  unfold ret, set_files. by destruct s.
Qed.

Lemma scan_cache_hit_witness :
  let row : dict :=
    list_to_map [ ("ticker", VStr "AAA"); ("recommendation", VStr "Avoid");
                  ("earnings_time", VStr "Pre Market");
                  ("expected_move", VStr "4.2%");
                  ("current_iv", VNum (Fin 0.32));
                  ("term_structure", VNum (Fin 0.3)) ] in
  let c := {| c_timestamp := 1709300000; c_date := "2024-03-01";
              c_tickers := ["AAA"; "BBB"]; c_data := [row];
              c_missing_data := [] |} in
  let s := {| log := [];
              files := {[ "346eeb8479069095ab6b60c445353098.pkl" := Pickled c ]};
              earnings_times := ∅ |} in
  scan_earnings_stocks Sample.sample_market 738946 s
  = (Ok (Some [row]),
     set_earnings_times
       (times_of [("AAA", "Pre Market"); ("BBB", "Post Market")])
       (add_event (Fetched (ReqCalendar "2024-03-01")) s)).
Proof.
  intros row c s.
  apply (scan_cache_hit Sample.sample_market 738946 s
           [("AAA", "Pre Market"); ("BBB", "Post Market")] c).
  - reflexivity.
  - discriminate.
  - vm_compute. reflexivity.
  - discriminate.
  - reflexivity.
  - vm_compute. reflexivity.
Defined.

End ScanProperties.

(** ** OptionsAnalyzer.compute_recommendation: the at-the-money row *)

Section AtTheMoney.

Import OptionsAnalyzer.

Lemma fltb_Fin (x y : Q) : fltb (Fin x) (Fin y) = true ↔ (x < y)%Q.
Proof.
  unfold fltb, fcmp. rewrite Qlt_alt. by destruct (x ?= y)%Q.
Qed.

Lemma idxmin_from_fin (qs : list Q) (i j : nat) (b : Q) :
  ∃ r, idxmin_from (Fin <$> qs) i (Some (j, Fin b)) = Some r
       ∧ ((r = j ∧ ∀ y, y ∈ qs → (b <= y)%Q)
          ∨ ∃ k x, r = (i + k)%nat ∧ qs !! k = Some x ∧ (x < b)%Q
                   ∧ (∀ y, y ∈ qs → (x <= y)%Q)
                   ∧ ∀ k' y, (k' < k)%nat → qs !! k' = Some y → (x < y)%Q).
Proof.
  revert i j b. induction qs as [|x qs IH]; intros i j b.
  - exists j. split; [done|]. left. split; [done|].
    intros y Hy. by apply elem_of_nil in Hy.
  - rewrite fmap_cons. cbn [idxmin_from].
    destruct (fltb (Fin x) (Fin b)) eqn:Hlt.
    + apply fltb_Fin in Hlt.
      destruct (IH (S i) i x) as (r & -> & [[-> Hall]|Hk]).
      * exists i. split; [done|]. right. exists 0%nat, x.
        split; [lia|]. split; [done|]. split; [done|]. split.
        -- intros y Hy. apply elem_of_cons in Hy as [->|Hy];
             [apply Qle_refl|by apply Hall].
        -- intros k' y Hk'. lia.
      * destruct Hk as (k & x' & -> & Hx' & Hlt' & Hall & Hfirst).
        exists (S i + k)%nat. split; [done|]. right. exists (S k), x'.
        split; [lia|]. split; [done|].
        split; [by eapply Qlt_trans|]. split.
        -- intros y Hy. apply elem_of_cons in Hy as [->|Hy];
             [by apply Qlt_le_weak|by apply Hall].
        -- intros [|k'] y Hk' Hy; simpl in Hy.
           ++ by injection Hy as <-.
           ++ eapply Hfirst; [|done]. lia.
    + assert (Hge : (b <= x)%Q).
      { apply Qnot_lt_le. intros H. apply fltb_Fin in H. congruence. }
      destruct (IH (S i) j b) as (r & -> & [[-> Hall]|Hk]).
      * exists j. split; [done|]. left. split; [done|].
        intros y Hy. apply elem_of_cons in Hy as [->|Hy]; auto.
      * destruct Hk as (k & x' & -> & Hx' & Hlt' & Hall & Hfirst).
        exists (S i + k)%nat. split; [done|]. right. exists (S k), x'.
        split; [lia|]. split; [done|]. split; [done|]. split.
        -- intros y Hy. apply elem_of_cons in Hy as [->|Hy]; [|by apply Hall].
           apply Qlt_le_weak. by eapply Qlt_le_trans.
        -- intros [|k'] y Hk' Hy; simpl in Hy.
           ++ injection Hy as <-. by eapply Qlt_le_trans.
           ++ eapply Hfirst; [|done]. lia.
Qed.

Lemma idxmin_fin (qs : list Q) :
  qs ≠ [] →
  ∃ k x, idxmin (Fin <$> qs) = Some k ∧ qs !! k = Some x
         ∧ (∀ y, y ∈ qs → (x <= y)%Q)
         ∧ ∀ k' y, (k' < k)%nat → qs !! k' = Some y → (x < y)%Q.
Proof.
  destruct qs as [|x qs]; [done|]. intros _.
  unfold idxmin. rewrite fmap_cons. cbn [idxmin_from].
  destruct (idxmin_from_fin qs 1 0 x) as (r & -> & [[-> Hall]|Hk]).
  - exists 0%nat, x. split; [done|]. split; [done|]. split.
    + intros y Hy. apply elem_of_cons in Hy as [->|Hy];
        [apply Qle_refl|by apply Hall].
    + intros k' y Hk'. lia.
  - destruct Hk as (k & x' & -> & Hx' & Hlt' & Hall & Hfirst).
    exists (S k), x'. split; [done|]. split; [done|]. split.
    + intros y Hy. apply elem_of_cons in Hy as [->|Hy];
        [by apply Qlt_le_weak|by apply Hall].
    + intros [|k'] y Hk' Hy; simpl in Hy.
      * by injection Hy as <-.
      * eapply Hfirst; [|done]. lia.
Qed.

(** X26. The at-the-money row of a chain (lines 387-388) is a row whose
    strike is nearest to the underlying price, and the first such row of
    the frame.  For a finite price and a frame that is not empty and has
    finite strikes, [atm_row] returns a row of the frame; no row has a
    strike nearer to the price, and every row before it has a strike
    strictly farther from it. *)
Theorem atm_row_closest (u : Q) (rows : list quote) :
  rows ≠ [] →
  (∀ q, q ∈ rows → ∃ k, strike q = Fin k) →
  ∃ i q, atm_row (Some (Fin u)) rows = Ok q ∧ rows !! i = Some q
         ∧ (∀ q', q' ∈ rows → (strike_distance u q <= strike_distance u q')%Q)
         ∧ ∀ i' q', (i' < i)%nat → rows !! i' = Some q' →
             (strike_distance u q < strike_distance u q')%Q.
Proof.
  intros Hne Hfin.
  assert (Hmap : (λ q, fabs (fsub (strike q) (Fin u))) <$> rows
                 = Fin <$> (strike_distance u <$> rows)).
  { rewrite <- list_fmap_compose. apply Forall_fmap_ext_1.
    apply Forall_forall. intros q Hq. destruct (Hfin q Hq) as [k Hk].
    unfold compose, strike_distance. rewrite Hk. reflexivity. }
  destruct (idxmin_fin (strike_distance u <$> rows)) as (i & x & Hi & Hx & Hall & Hfirst).
  { by destruct rows. }
  unfold atm_row. rewrite Hmap, Hi.
  rewrite list_lookup_fmap in Hx.
  destruct (rows !! i) as [q|] eqn:Hq; [|done].
  simpl in Hx. injection Hx as <-.
  exists i, q. split; [done|]. split; [done|]. split.
  - intros q' Hq'. apply Hall. by apply list_elem_of_fmap_2.
  - intros i' q' Hlt Hq'. apply (Hfirst i'); [done|].
    by rewrite list_lookup_fmap, Hq'.
Qed.

Lemma atm_row_closest_witness :
  ∃ i q, atm_row (Some (Fin 11)) (calls Sample.sample_chain) = Ok q
         ∧ calls Sample.sample_chain !! i = Some q
         ∧ (∀ q', q' ∈ calls Sample.sample_chain →
              (strike_distance 11 q <= strike_distance 11 q')%Q)
         ∧ ∀ i' q', (i' < i)%nat → calls Sample.sample_chain !! i' = Some q' →
             (strike_distance 11 q < strike_distance 11 q')%Q.
Proof.
  apply (atm_row_closest 11 (calls Sample.sample_chain)).
  - discriminate.
  - intros q Hq. simpl in Hq.
    apply elem_of_cons in Hq as [->|Hq]; [by eexists|].
    apply list_elem_of_singleton in Hq as ->. by eexists.
Defined.

End AtTheMoney.

(** ** EarningsTkApp.apply_filters *)

Section Filters.

Import EarningsTkApp.

Lemma apply_filters_filter (time_val rec_val : string) (data : list dict) :
  apply_filters time_val rec_val data
  = filter (λ row, passes time_val rec_val row = true) data.
Proof.
  induction data as [|row data IH]; [done|].
  simpl. rewrite filter_cons, IH.
  destruct (passes time_val rec_val row); by destruct (decide _).
Qed.

Lemma passes_split (time_val rec_val : string) (row : dict) :
  passes time_val rec_val row
  = passes time_val "All" row && passes "All" rec_val row.
Proof.
  unfold passes. simpl.
  destruct (negb (time_val =? "All")%string && _); [done|].
  by destruct (negb (rec_val =? "All")%string && _).
Qed.

(** X25. [EarningsTkApp.apply_filters] keeps the rows that pass both
    filters, in their order, and drops the others.  With both filters on
    "All" it returns its input.  A row of a scan passes when each filter
    is "All" or equal to the row's field.  Filtering twice is filtering
    once, and filtering by time and recommendation is filtering by time
    and then by recommendation. *)
Theorem apply_filters_spec (time_val rec_val : string) (data : list dict) :
  apply_filters "All" "All" data = data
  ∧ apply_filters time_val rec_val data `sublist_of` data
  ∧ (∀ row, row ∈ apply_filters time_val rec_val data
            ↔ row ∈ data ∧ passes time_val rec_val row = true)
  ∧ (∀ row et rv,
       row !! "earnings_time" = Some (VStr et) →
       row !! "recommendation" = Some (VStr rv) →
       (passes time_val rec_val row = true
        ↔ (time_val = "All" ∨ et = time_val)
          ∧ (rec_val = "All" ∨ rv = rec_val)))
  ∧ apply_filters time_val rec_val (apply_filters time_val rec_val data)
    = apply_filters time_val rec_val data
  ∧ apply_filters time_val rec_val data
    = apply_filters "All" rec_val (apply_filters time_val "All" data).
Proof.
  split; [|split; [|split; [|split; [|split]]]].
  - induction data as [|row data IH]; [done|]. simpl. by rewrite IH.
  - rewrite apply_filters_filter. apply sublist_filter.
  - intros row. rewrite apply_filters_filter, list_elem_of_filter. tauto.
  - intros row et rv Het Hrv. unfold passes, differs. rewrite Het, Hrv.
    simpl.
    destruct (String.eqb_spec time_val "All") as [->|Ht]; simpl.
    + destruct (String.eqb_spec rec_val "All") as [->|Hr]; simpl.
      * tauto.
      * destruct (String.eqb_spec rv rec_val) as [->|Hne]; simpl.
        -- tauto.
        -- split; [done|]. intros [_ [?|?]]; done.
    + destruct (String.eqb_spec et time_val) as [->|Hne]; simpl.
      * destruct (String.eqb_spec rec_val "All") as [->|Hr]; simpl.
        -- tauto.
        -- destruct (String.eqb_spec rv rec_val) as [->|Hne]; simpl.
           ++ tauto.
           ++ split; [done|]. intros [_ [?|?]]; done.
      * split; [done|]. intros [[?|?] _]; done.
  - rewrite !apply_filters_filter.
    rewrite list_filter_filter. apply list_filter_iff. tauto.
  - rewrite !apply_filters_filter, list_filter_filter.
    apply list_filter_iff. intros row. rewrite (passes_split time_val rec_val).
    rewrite andb_true_iff. tauto.
Qed.

End Filters.

(** ** OptionsAnalyzer.compute_recommendation: short price histories *)

Section ShortHistory.

Import OptionsAnalyzer.

Lemma rolling_mean_short (n : nat) (l : list pyfloat) :
  (length l < n)%nat → Forall (λ x, x = NaN) (rolling_mean n l).
Proof.
  intros Hlen. unfold rolling_mean. apply Forall_fmap, Forall_forall.
  intros i Hi. apply elem_of_seq in Hi. simpl.
  by destruct (Nat.ltb_spec (i + 1) n); [|lia].
Qed.

Lemma rolling_mean_last (n : nat) (l : list pyfloat) :
  (0 < n)%nat → (n ≤ length l)%nat →
  last (rolling_mean n l)
  = Some (fdiv (foldr fadd (Fin 0) (drop (length l - n) l))
               (of_Z (Z.of_nat n))).
Proof.
  intros Hn Hlen. unfold rolling_mean.
  destruct (length l) as [|m] eqn:Hm; [lia|].
  rewrite seq_S, fmap_app, (list_fmap_singleton _ (0 + m)%nat), last_snoc.
  simpl.
  destruct (Nat.ltb_spec (m + 1) n); [lia|].
  replace (m + 1 - n)%nat with (S m - n)%nat by lia.
  rewrite take_ge; [done|]. rewrite length_drop. lia.
Qed.

Lemma sum_finite (qs : list Q) :
  ∃ q, foldr fadd (Fin 0) (Fin <$> qs) = Fin q.
Proof.
  induction qs as [|x qs [q IH]]; [by exists 0%Q|].
  rewrite fmap_cons. cbn [foldr]. rewrite IH. simpl. eauto.
Qed.

(** X27. Short price histories in [compute_recommendation] (lines 428
    and 431-437).  The 30-day average volume of an empty history is 0,
    and of a history of 30 or more bars with finite volumes it is the
    sum of the last 30 volumes divided by 30; but a history of 1 to 29
    bars raises an [IndexError], since every rolling mean is NaN and is
    dropped.  The 14-day average true range of an empty history is 0 and
    of a history of 1 to 13 bars it is NaN, without an exception. *)
Theorem short_history (h3 : history) :
  avg_volume_30 [] = Ok (Fin 0)
  ∧ atr14 [] = Fin 0
  ∧ ((0 < length h3 < 30)%nat →
     avg_volume_30 h3
     = Raise "IndexError: single positional indexer is out-of-bounds")
  ∧ ((0 < length h3 < 14)%nat → atr14 h3 = NaN)
  ∧ (∀ vols : list Q, Volume <$> h3 = Fin <$> vols → (30 ≤ length h3)%nat →
       ∃ total, foldr fadd (Fin 0) (Fin <$> drop (length vols - 30) vols)
                = Fin total
                ∧ avg_volume_30 h3 = Ok (Fin (total / 30))).
Proof.
  split; [done|]. split; [done|]. split; [|split].
  - intros Hlen. unfold avg_volume_30.
    rewrite bool_decide_false by (destruct h3; [simpl in Hlen; lia|done]).
    pose proof (rolling_mean_short 30 (Volume <$> h3)) as Hnan.
    rewrite length_fmap in Hnan. specialize (Hnan (proj2 Hlen)).
    assert (Hf : filter (λ x, is_nan x = false) (rolling_mean 30 (Volume <$> h3))
                 = []).
    { induction Hnan as [|x l -> _ IH]; [done|].
      rewrite filter_cons. simpl. destruct (decide (true = false)); done. }
    by rewrite Hf.
  - intros Hlen. unfold atr14.
    rewrite bool_decide_false by (destruct h3; [simpl in Hlen; lia|done]).
    cbv zeta.
    set (tr := _ <$> zip h3 _).
    assert (Htr : length tr = length h3).
    { unfold tr. rewrite length_fmap, length_zip. simpl.
      rewrite length_fmap, length_take. lia. }
    pose proof (rolling_mean_short 14 tr) as Hnan.
    rewrite Htr in Hnan. specialize (Hnan (proj2 Hlen)).
    destruct (last (rolling_mean 14 tr)) as [x|] eqn:Hl; [|done].
    apply last_Some_elem_of in Hl. rewrite Forall_forall in Hnan.
    simpl. by apply Hnan.
  - intros vols Hv Hlen. unfold avg_volume_30.
    rewrite bool_decide_false by (destruct h3; [simpl in Hlen; lia|done]).
    assert (Hlv : length vols = length h3).
    { by rewrite <- (length_fmap Fin vols), <- Hv, length_fmap. }
    destruct (sum_finite (drop (length vols - 30) vols)) as [total Htot].
    exists total. split; [done|].
    pose proof (rolling_mean_last 30 (Volume <$> h3)) as Hlast.
    rewrite length_fmap in Hlast. specialize (Hlast ltac:(lia) Hlen).
    rewrite Hv, <- fmap_drop, <- Hlv, Htot in Hlast.
    assert (Hval : fdiv (Fin total) (of_Z (Z.of_nat 30)) = Fin (total / 30)).
    { reflexivity. }
    rewrite Hval in Hlast. rewrite Hv.
    destruct (rolling_mean 30 (Fin <$> vols)) as [|x l _] using rev_ind;
      [done|].
    rewrite last_snoc in Hlast. injection Hlast as ->.
    rewrite filter_app, filter_cons. simpl.
    destruct (decide (false = false)); [|done].
    by rewrite filter_nil, last_snoc.
Qed.

End ShortHistory.

(** ** The scan and the cache directory *)

Section ScanFrame.

Import OptionsAnalyzer EarningsCalendarFetcher EnhancedEarningsScanner.

Lemma touches_only_network {A : Type} (cp : string) (m : M A) :
  network_only m → touches_only cp m.
Proof. intros Hm s name _. destruct (Hm s) as [-> _]. done. Qed.

Lemma touches_only_bind {A B : Type} (cp : string) (m : M A) (k : A → M B) :
  touches_only cp m → (∀ a, touches_only cp (k a)) →
  touches_only cp (bind m k).
Proof.
  intros Hm Hk s name Hne. unfold bind. specialize (Hm s name Hne).
  destruct (m s) as [[a|e] s1]; simpl in *; [|done].
  by rewrite (Hk a s1 name Hne).
Qed.

Lemma touches_only_try {A : Type} (cp : string) (m : M A) (h : string → M A) :
  touches_only cp m → (∀ e, touches_only cp (h e)) →
  touches_only cp (try_except m h).
Proof.
  intros Hm Hh s name Hne. unfold try_except. specialize (Hm s name Hne).
  destruct (m s) as [[a|e] s1]; simpl in *; [done|].
  by rewrite (Hh e s1 name Hne).
Qed.

Lemma touches_only_cache_get mk ds e_stocks :
  touches_only (DataCache._get_cache_path (DataCache._get_cache_key ds e_stocks))
    (cache_get mk ds e_stocks).
Proof.
  intros s name Hne. unfold cache_get, DataCache.get_data.
  destruct (files s !! _) as [[|c]|]; simpl; try done.
  destruct (_ <=? _); simpl; [|done]. by apply lookup_delete_ne.
Qed.

Lemma touches_only_cache_update ds e_stocks r :
  touches_only (DataCache._get_cache_path (DataCache._get_cache_key ds e_stocks))
    (cache_update ds e_stocks r).
Proof.
  intros s name Hne. unfold cache_update, DataCache.update_missing_data. simpl.
  destruct (files s !! _) as [[|c]|]; try done.
  destruct (DataCache.backfill_all r (c_data c)) as [data'|]; [|done].
  cbn [exc_bind].
  destruct (DataCache._identify_missing_data data'); [|done].
  cbn [exc_bind]. by apply lookup_insert_ne.
Qed.

Lemma touches_only_cache_save mk ds e_stocks data :
  touches_only (DataCache._get_cache_path (DataCache._get_cache_key ds e_stocks))
    (cache_save mk ds e_stocks data).
Proof.
  intros s name Hne. unfold cache_save, DataCache.save_data.
  destruct (DataCache._identify_missing_data data); [|done].
  simpl. by apply lookup_insert_ne.
Qed.

Lemma touches_only_refill_batch mk ds e_stocks b hist :
  touches_only (DataCache._get_cache_path (DataCache._get_cache_key ds e_stocks))
    (refill_batch mk ds e_stocks b hist).
Proof.
  induction b as [|st b IH]; simpl.
  - apply touches_only_network, network_only_ret.
  - apply touches_only_bind.
    { apply touches_only_network, network_only_try;
        [apply network_only_analyze_stock|intros ?; apply network_only_ret]. }
    intros r. apply touches_only_bind; [|intros ?; exact IH].
    destruct r as [d|]; [|apply touches_only_network, network_only_ret].
    destruct (truthy_result (Some d));
      [apply touches_only_cache_update
      |apply touches_only_network, network_only_ret].
Qed.

Lemma touches_only_refill_batches mk ds e_stocks batches :
  touches_only (DataCache._get_cache_path (DataCache._get_cache_key ds e_stocks))
    (refill_batches mk ds e_stocks batches).
Proof.
  induction batches as [|b bs IH]; simpl.
  - apply touches_only_network, network_only_ret.
  - apply touches_only_bind;
      [apply touches_only_network, network_only_lift|intros tickers].
    apply touches_only_bind;
      [apply touches_only_network, network_only_batch_download|intros hist].
    apply touches_only_bind; [apply touches_only_refill_batch|intros ?; exact IH].
Qed.

Lemma touches_only_scan_fresh mk ds e_stocks :
  touches_only (DataCache._get_cache_path (DataCache._get_cache_key ds e_stocks))
    (scan_fresh mk ds e_stocks).
Proof.
  unfold scan_fresh.
  apply touches_only_bind;
    [apply touches_only_network, network_only_scan_batches|intros rec].
  apply touches_only_bind;
    [apply touches_only_network, network_only_lift|intros res].
  apply touches_only_bind; [apply touches_only_cache_save|intros ?].
  apply touches_only_network, network_only_ret.
Qed.

Lemma fetch_earnings_data_returns mk date s :
  ∃ tickers, (fetch_earnings_data mk date s).1 = Ok tickers
             ∧ files (fetch_earnings_data mk date s).2 = files s.
Proof.
  unfold fetch_earnings_data, fetch_loop, try_except, bind,
    fetch, record_times, ret, rotate_session. simpl.
  destruct (calendar_of mk date _) as [rows1|e1]; simpl; [eauto|].
  destruct (calendar_of mk date _) as [rows2|e2]; simpl; [eauto|].
  destruct (calendar_of mk date _) as [rows3|e3]; simpl; eauto.
Qed.

(** X28. A scan touches one cache file only.  Whatever
    [EnhancedEarningsScanner.scan_earnings_stocks] does (return cached
    rows, backfill them, or scan afresh), and even if it raises, every
    file of the cache directory other than the file of the key of the
    date and the tickers of the calendar is afterwards as it was
    before. *)
Theorem scan_touches_one_file (mk : market) (date : Z) (s : state) :
  ∃ e_stocks,
    (fetch_earnings_data mk (strftime mk date) s).1 = Ok e_stocks
    ∧ ∀ name,
        name ≠ DataCache._get_cache_path
                 (DataCache._get_cache_key (strftime mk date) e_stocks) →
        files (scan_earnings_stocks mk date s).2 !! name = files s !! name.
Proof.
  destruct (fetch_earnings_data_returns mk (strftime mk date) s)
    as (e_stocks & Hr & Hf).
  exists e_stocks. split; [exact Hr|]. intros name Hne.
  unfold scan_earnings_stocks, bind at 1.
  destruct (fetch_earnings_data mk (strftime mk date) s) as [r s1].
  simpl in Hr, Hf. subst r. rewrite <- Hf.
  set (cp := DataCache._get_cache_path
               (DataCache._get_cache_key (strftime mk date) e_stocks)) in *.
  assert (Hrest : touches_only cp
    (if bool_decide (e_stocks = []) then ret (Some [])
     else
       cached <- cache_get mk (strftime mk date) e_stocks ;;
       match cached with
       | (Some (c :: cd), md) =>
           if bool_decide (md = []) then ret (Some (c :: cd))
           else
             refill_batches mk (strftime mk date) e_stocks
               (chunks batch_size (m_ticker <$> md)) ;;;
             again <- cache_get mk (strftime mk date) e_stocks ;;
             ret again.1
       | _ =>
           r <- scan_fresh mk (strftime mk date) e_stocks ;;
           ret (Some r)
       end)).
  { destruct (bool_decide (e_stocks = []));
      [apply touches_only_network, network_only_ret|].
    apply touches_only_bind; [apply touches_only_cache_get|].
    assert (Hfresh : touches_only cp
              (r <- scan_fresh mk (strftime mk date) e_stocks ;; ret (Some r))).
    { apply touches_only_bind; [apply touches_only_scan_fresh|intros r].
      apply touches_only_network, network_only_ret. }
    intros [[[|c cd]|] md]; try exact Hfresh.
    destruct (bool_decide (md = []));
      [apply touches_only_network, network_only_ret|].
    apply touches_only_bind; [apply touches_only_refill_batches|intros ?].
    apply touches_only_bind; [apply touches_only_cache_get|intros again].
    apply touches_only_network, network_only_ret. }
  exact (Hrest s1 name Hne).
Qed.

End ScanFrame.

(** ** The scan that backfills cached rows *)

Section ScanRefill.

Import OptionsAnalyzer EarningsCalendarFetcher EnhancedEarningsScanner.

Lemma kept_by_trans (e1 e2 e3 : dict) :
  kept_by e1 e2 → kept_by e2 e3 → kept_by e1 e3.
Proof. intros H12 H23 k v Hk Hv. apply H23; [by apply H12|done]. Qed.

Lemma Forall2_kept_by_trans (l1 l2 l3 : list dict) :
  Forall2 kept_by l1 l2 → Forall2 kept_by l2 l3 → Forall2 kept_by l1 l3.
Proof.
  intros H12. revert l3. induction H12 as [|x y l1 l2 Hxy H12 IH]; intros l3 H23.
  - by inversion H23.
  - inversion H23 as [|y' z l2' l3' Hyz H23']; subst.
    constructor; [by eapply kept_by_trans|by apply IH].
Qed.

Lemma backfilled_from_network {A : Type} (cp : string) (c : cache) (m : M A)
  (s : state) :
  network_only m → backfilled_from cp c s → backfilled_from cp c (m s).2.
Proof.
  intros Hm (c' & Hc' & Hts & Hk). destruct (Hm s) as (Hf & _).
  exists c'. by rewrite Hf.
Qed.

Lemma backfilled_from_update (ds : string) (e_stocks : list string) (r : dict)
  (c : cache) (s : state) :
  let cp := DataCache._get_cache_path (DataCache._get_cache_key ds e_stocks) in
  backfilled_from cp c s →
  ∃ s', cache_update ds e_stocks r s = (Ok tt, s') ∧ backfilled_from cp c s'.
Proof.
  intros cp (c' & Hc' & Hts & Hk). eexists. split; [reflexivity|].
  unfold DataCache.update_missing_data. fold cp. simpl.
  rewrite Hc'.
  destruct (DataCache.backfill_all r (c_data c')) as [data'|] eqn:Hb;
    cbn [exc_bind]; [|by exists c'].
  destruct (DataCache._identify_missing_data data') as [md|];
    cbn [exc_bind]; [|by exists c'].
  eexists. split; [apply lookup_insert_eq|]. simpl. split; [done|].
  eapply Forall2_kept_by_trans; [exact Hk|]. by eapply backfill_all_kept.
Qed.

Lemma refill_batch_inv mk ds e_stocks b hist c s :
  let cp := DataCache._get_cache_path (DataCache._get_cache_key ds e_stocks) in
  backfilled_from cp c s →
  ∃ s', refill_batch mk ds e_stocks b hist s = (Ok tt, s')
        ∧ backfilled_from cp c s'.
Proof.
  intros cp. revert s. induction b as [|st b IH]; intros s Hs.
  { exists s. done. }
  cbn [refill_batch]. unfold bind at 1, try_except.
  pose proof (backfilled_from_network cp c
                (analyze_stock mk st (hist !! st)) s
                (network_only_analyze_stock mk st (hist !! st)) Hs) as Hs1.
  destruct (analyze_stock_returns mk st (hist !! st) s)
    as (r & s1 & Hr & _).
  rewrite Hr in Hs1 |- *. simpl in Hs1. unfold bind at 1.
  destruct r as [d|]; [|by apply IH].
  destruct (truthy_result (Some d)); [|by apply IH].
  destruct (backfilled_from_update ds e_stocks d c s1 Hs1) as (s2 & -> & Hs2).
  by apply IH.
Qed.

Lemma ticker_strings_ok (b : list pyval) :
  Forall (λ v, ∃ t, v = VStr t) b → ∃ ts, ticker_strings b = Ok ts.
Proof.
  induction 1 as [|v b [t ->] _ [ts IH]]; simpl; [eauto|].
  rewrite IH. simpl. eauto.
Qed.

Lemma refill_batches_inv mk ds e_stocks batches c s :
  let cp := DataCache._get_cache_path (DataCache._get_cache_key ds e_stocks) in
  Forall (Forall (λ v, ∃ t, v = VStr t)) batches →
  backfilled_from cp c s →
  ∃ s', refill_batches mk ds e_stocks batches s = (Ok tt, s')
        ∧ backfilled_from cp c s'.
Proof.
  intros cp Hb. revert s. induction Hb as [|b bs Hb _ IH]; intros s Hs.
  { exists s. done. }
  cbn [refill_batches]. unfold bind at 1, lift.
  destruct (ticker_strings_ok b Hb) as [ts ->].
  unfold bind at 1.
  pose proof (backfilled_from_network cp c (batch_download_history mk ts) s
                (network_only_batch_download mk ts) Hs) as Hs1.
  destruct (batch_download_returns mk ts s) as (hist & s1 & Hd).
  rewrite Hd in Hs1 |- *. simpl in Hs1. unfold bind at 1.
  destruct (refill_batch_inv mk ds e_stocks ts hist c s1 Hs1)
    as (s2 & -> & Hs2).
  by apply IH.
Qed.

Lemma chunks_Forall {A : Type} (P : A → Prop) (n : nat) (l : list A) :
  (0 < n)%nat → Forall P l → Forall (Forall P) (chunks n l).
Proof.
  intros Hn Hl. rewrite <- (concat_chunks n l Hn) in Hl.
  by apply Forall_concat in Hl.
Qed.

(** X29. The backfilling scan keeps what the cache had.  When the
    calendar answers the first request, and the cache file of the date
    and its tickers is readable, younger than seven days, not empty, and
    lists missing data for tickers that are strings,
    [scan_earnings_stocks] does not raise.  It returns the rows of the
    cache file as the backfill left them: as many rows as before, every
    populated field of every cached row unchanged.  Or it returns
    [None]: the file turned seven days old while the missing tickers
    were analysed, and the re-read deleted it. *)
Theorem scan_refill_keeps_rows (mk : market) (date : Z) (s : state)
  (rows : list (string * string)) (c : cache) :
  let ds := strftime mk date in
  let cp := DataCache._get_cache_path (DataCache._get_cache_key ds (rows.*1)) in
  let s1 := set_earnings_times (times_of rows)
              (add_event (Fetched (ReqCalendar ds)) s) in
  calendar_of mk ds (log s) = Ok rows →
  rows ≠ [] →
  files s !! cp = Some (Pickled c) →
  c_data c ≠ [] →
  c_missing_data c ≠ [] →
  Forall (λ m, ∃ t, m_ticker m = VStr t) (c_missing_data c) →
  DataCache.age_days (now mk (log s1)) (c_timestamp c)
    < DataCache.cache_expiry_days →
  ∃ r s',
    scan_earnings_stocks mk date s = (Ok r, s')
    ∧ match r with
      | Some res =>
          Forall2 kept_by (c_data c) res
          ∧ ∃ c', files s' !! cp = Some (Pickled c') ∧ c_data c' = res
                  ∧ c_timestamp c' = c_timestamp c
      | None =>
          DataCache.cache_expiry_days
            ≤ DataCache.age_days (now mk (log s')) (c_timestamp c)
          ∧ files s' !! cp = None
      end.
Proof.
  intros ds cp s1 Hcal Hrows Hfile Hdata Hmd Hstr Hage.
  unfold scan_earnings_stocks. fold ds.
  unfold bind at 1, fetch_earnings_data, fetch_loop, try_except, bind at 1,
    fetch at 1. cbn [Nat.ltb Nat.leb]. rewrite Hcal.
  unfold bind at 1, record_times, ret at 1. fold (times_of rows). fold s1.
  rewrite bool_decide_false by (by destruct rows).
  unfold bind at 1, cache_get at 1, DataCache.get_data. fold cp.
  change (files s1) with (files s). rewrite Hfile.
  destruct (Z.leb_spec DataCache.cache_expiry_days
              (DataCache.age_days (now mk (log s1)) (c_timestamp c)));
    [lia|].
  destruct (c_data c) as [|r0 rest] eqn:Hc; [done|].
  rewrite bool_decide_false by done.
  assert (Hs1 : backfilled_from cp c (set_files (files s) s1)).
  { exists c. split; [done|]. split; [done|].
    clear. induction (c_data c); constructor; [apply kept_by_refl|done]. }
  unfold bind at 1.
  destruct (refill_batches_inv mk ds (rows.*1)
              (chunks batch_size (m_ticker <$> c_missing_data c)) c
              (set_files (files s) s1)) as (s2 & -> & Hs2).
  { apply chunks_Forall; [unfold batch_size; lia|].
    by apply Forall_fmap. }
  { exact Hs1. }
  fold cp in Hs2.
  destruct Hs2 as (c' & Hc' & Hts & Hk).
  unfold bind, cache_get, DataCache.get_data, ret. fold cp. rewrite Hc'.
  rewrite Hts.
  destruct (Z.leb_spec DataCache.cache_expiry_days
              (DataCache.age_days (now mk (log s2)) (c_timestamp c)))
    as [Hold|Hnew]; simpl.
  - eexists _, _. split; [reflexivity|]. simpl.
    split; [done|]. apply lookup_delete_eq.
  - eexists _, _. split; [reflexivity|]. simpl.
    rewrite <- Hc. split; [done|]. exists c'. done.
Qed.

Lemma scan_refill_keeps_rows_witness :
  let cp := DataCache._get_cache_path
              (DataCache._get_cache_key "2024-03-01" ["AAA"; "BBB"]) in
  let c := {| c_timestamp := 1709300000; c_date := "2024-03-01";
              c_tickers := ["AAA"; "BBB"]; c_data := [Sample.stored_entry];
              c_missing_data :=
                [ {| m_ticker := VStr "AAA";
                     m_missing_fields := ["expected_move"];
                     m_earnings_time := VStr "Unknown" |} ] |} in
  let s := {| log := []; files := {[ cp := Pickled c ]};
              earnings_times := ∅ |} in
  ∃ r s',
    scan_earnings_stocks Sample.sample_market 738946 s = (Ok r, s')
    ∧ match r with
      | Some res =>
          Forall2 kept_by [Sample.stored_entry] res
          ∧ ∃ c', files s' !! cp = Some (Pickled c') ∧ c_data c' = res
                  ∧ c_timestamp c' = 1709300000
      | None =>
          DataCache.cache_expiry_days
            ≤ DataCache.age_days (now Sample.sample_market (log s'))
                1709300000
          ∧ files s' !! cp = None
      end.
Proof.
  intros cp c s.
  apply (scan_refill_keeps_rows Sample.sample_market 738946 s
           [("AAA", "Pre Market"); ("BBB", "Post Market")] c).
  - reflexivity.
  - discriminate.
  - apply lookup_singleton_eq.
  - discriminate.
  - discriminate.
  - repeat constructor. by eexists.
  - vm_compute. reflexivity.
Defined.

End ScanRefill.

(** ** OptionsAnalyzer.compute_recommendation: the first expiry *)

Section FirstExpiry.

Import OptionsAnalyzer.

Lemma atm_step_later (up : option pyfloat) (st st' : atm_state)
  (ec : string * chain) :
  (0 < atm_i st)%nat → atm_step up st ec = Ok st' →
  stprice st' = stprice st ∧ fi_iv st' = fi_iv st ∧ (0 < atm_i st')%nat.
Proof.
  intros Hi. destruct ec as [e ch]. unfold atm_step.
  destruct (bool_decide (calls ch = []) || bool_decide (puts ch = [])).
  { by intros [= <-]. }
  destruct (atm_row up (calls ch)) as [c|]; [|done]. cbn [exc_bind].
  destruct (atm_row up (puts ch)) as [p|]; [|done]. cbn [exc_bind].
  destruct (Nat.eqb_spec (atm_i st) 0); [lia|].
  intros [= <-]. simpl. split; [done|]. split; [done|]. lia.
Qed.

Lemma atm_loop_later (up : option pyfloat) (oc : list (string * chain))
  (st st' : atm_state) :
  (0 < atm_i st)%nat → atm_loop up st oc = Ok st' →
  stprice st' = stprice st ∧ fi_iv st' = fi_iv st.
Proof.
  revert st. induction oc as [|ec oc IH]; intros st Hi; simpl.
  - by intros [= <-].
  - destruct (atm_step up st ec) as [st1|] eqn:H1; [|done]. cbn [exc_bind].
    intros Hloop.
    destruct (atm_step_later up st st1 ec Hi H1) as (Hs & Hf & Hi1).
    destruct (IH st1 Hi1 Hloop) as [Hs' Hf']. split; congruence.
Qed.

Lemma atm_loop_skips (up : option pyfloat) (pre oc : list (string * chain))
  (st : atm_state) :
  Forall (λ ec : string * chain, calls ec.2 = [] ∨ puts ec.2 = []) pre →
  atm_loop up st (pre ++ oc) = atm_loop up st oc.
Proof.
  induction 1 as [|[e ch] pre Hec _ IH]; [done|].
  simpl. simpl in Hec.
  assert (Hb : bool_decide (calls ch = []) || bool_decide (puts ch = [])
               = true).
  { destruct Hec as [->| ->].
    - by rewrite bool_decide_true.
    - rewrite (bool_decide_true ([] = [])) by done. apply orb_true_r. }
  rewrite Hb. cbn [exc_bind]. exact IH.
Qed.

(** X30. The current vol and the straddle price of
    [compute_recommendation] (lines 384-401) come from one expiry only:
    the first one whose chain has calls and puts.  Chains without calls
    or puts before it are skipped, and the expiries after it add knots
    to the term structure but change neither value.  There the current
    vol is the mean of the implied vols of the at-the-money call and
    put. *)
Theorem straddle_from_first_expiry (up : option pyfloat)
  (pre post : list (string * chain)) (e : string) (ch : chain)
  (st' : atm_state) :
  Forall (λ ec : string * chain, calls ec.2 = [] ∨ puts ec.2 = []) pre →
  calls ch ≠ [] → puts ch ≠ [] →
  atm_loop up atm_init (pre ++ (e, ch) :: post) = Ok st' →
  ∃ st1 c p,
    atm_step up atm_init (e, ch) = Ok st1
    ∧ stprice st' = stprice st1 ∧ fi_iv st' = fi_iv st1
    ∧ atm_row up (calls ch) = Ok c ∧ atm_row up (puts ch) = Ok p
    ∧ fi_iv st1
      = Some (fdiv (fadd (impliedVolatility c) (impliedVolatility p)) (Fin 2)).
Proof.
  intros Hpre Hc Hp Hloop. rewrite atm_loop_skips in Hloop by exact Hpre.
  cbn [atm_loop] in Hloop.
  destruct (atm_step up atm_init (e, ch)) as [st1|] eqn:H1; [|done].
  cbn [exc_bind] in Hloop.
  pose proof H1 as Hstep. unfold atm_step in Hstep.
  rewrite (bool_decide_false _ Hc), (bool_decide_false _ Hp) in Hstep.
  cbn [orb] in Hstep.
  destruct (atm_row up (calls ch)) as [c|]; [|done]. cbn [exc_bind] in Hstep.
  destruct (atm_row up (puts ch)) as [p|]; [|done]. cbn [exc_bind] in Hstep.
  simpl in Hstep. injection Hstep as <-.
  eexists _, c, p. split; [reflexivity|].
  apply atm_loop_later in Hloop as [Hs Hf]; [|simpl; lia].
  repeat split; done.
Qed.

Lemma straddle_from_first_expiry_witness :
  let up := Some (Fin 11) in
  let empty := {| calls := []; puts := [] |} in
  let later := {| calls := [ {| strike := Fin 11; bid := Fin 2; ask := Fin 3;
                               impliedVolatility := Fin 0.9 |} ];
                  puts := [ {| strike := Fin 11; bid := Fin 2; ask := Fin 3;
                               impliedVolatility := Fin 0.9 |} ] |} in
  let oc := [ ("2024-03-15", empty); ("2024-04-15", Sample.sample_chain);
              ("2024-05-17", later) ] in
  let st' := match atm_loop up atm_init oc with
             | Ok st => st
             | Raise _ => atm_init
             end in
  ∃ st1 c p,
    atm_step up atm_init ("2024-04-15", Sample.sample_chain) = Ok st1
    ∧ stprice st' = stprice st1 ∧ fi_iv st' = fi_iv st1
    ∧ atm_row up (calls Sample.sample_chain) = Ok c
    ∧ atm_row up (puts Sample.sample_chain) = Ok p
    ∧ fi_iv st1
      = Some (fdiv (fadd (impliedVolatility c) (impliedVolatility p)) (Fin 2)).
Proof.
  intros up empty later oc st'.
  apply (straddle_from_first_expiry up [("2024-03-15", empty)]
           [("2024-05-17", later)] "2024-04-15" Sample.sample_chain st').
  - repeat constructor.
  - discriminate.
  - discriminate.
  - vm_compute. reflexivity.
Defined.

End FirstExpiry.
